(** * H3DNet: ScanNet detection dataset, label synthesis

    A shallow embedding of [scannet/scannet_detection_dataset_hd.py]:
    the box geometry ([params2bbox], [f_min], [pdist2]), the matching of
    support centers ([find_idx]), the rejection-resampling loop, the data
    augmentation, the per-instance vote / corner-vote / plane-label loop
    and the packing of the per-box arrays of
    [ScannetDetectionDataset.__getitem__], and the helpers [viz_votes] and
    [viz_obb]; and of the script [scannet/extract_mean_size.py].

    Conventions.
    - numpy float arrays are lists; float arithmetic is idealised as real
      arithmetic ([R]); instance ids, semantic ids, plane-patch ids and the
      0/1 masks are stored by the code as floats holding integers and are
      modelled as [Z].
    - Python exceptions are the [Raise] case of [result]; a loop without an
      iteration bound takes a fuel argument and returns [None] when the
      fuel runs out.
    - [point_cloud] is the xyz part of the cloud (the code reads
      [point_cloud[ind,:3]] only; the default configuration has no further
      columns). *)

From Stdlib Require Import Reals Lra ZArith Lia.
From stdpp Require Import base list sorting gmap strings.

(** ** Exceptions *)

Inductive exn := IndexError | ValueError | KeyError | AssertionError.

Inductive result (A : Type) :=
  | Ok (a : A)
  | Raise (e : exn).
Arguments Ok {A} a.
Arguments Raise {A} e.

#[global] Instance result_ret : MRet result := λ A a, Ok a.
#[global] Instance result_bind : MBind result := λ A B f m,
  match m with Ok a => f a | Raise e => Raise e end.

(** ** numpy array primitives *)

(** [a[i]] for a non-negative index. *)
Definition getitem {A} (a : list A) (i : nat) : result A :=
  match a !! i with
  | Some x => Ok x
  | None => Raise IndexError
  end.

(** [a[idx]] for an integer index array [idx] (a gather; a copy). *)
Fixpoint take_rows {A} (a : list A) (idx : list nat) : result (list A) :=
  match idx with
  | [] => Ok []
  | i :: idx' =>
      x ← getitem a i; xs ← take_rows a idx'; Ok (x :: xs)
  end.

(** [a[idx] = v]: every index is bounds-checked, then [v] is broadcast. *)
Definition fill (A : Type) (a : list A) (idx : list nat) (v : A) : list A :=
  foldr (λ i acc, <[i:=v]> acc) a idx.
Arguments fill {A} a idx v.

Definition in_bounds {A} (a : list A) (idx : list nat) : bool :=
  forallb (λ i, i <? length a) idx.

Definition fill_rows {A} (a : list A) (idx : list nat) (v : A) : result (list A) :=
  if in_bounds a idx then Ok (fill a idx v) else Raise IndexError.

(** [a[idx] = vs] (or the loop [a[idx[k]] = vs[k]]) with [vs] as long as
    [idx]. *)
Fixpoint scatter {A} (a : list A) (idx : list nat) (vs : list A) : list A :=
  match idx, vs with
  | i :: idx', v :: vs' => scatter (<[i:=v]> a) idx' vs'
  | _, _ => a
  end.

Definition put_rows {A} (a : list A) (idx : list nat) (vs : list A) : result (list A) :=
  if in_bounds a idx then
    if length vs =? length idx then Ok (scatter a idx vs) else Raise ValueError
  else Raise IndexError.

(** [np.unique] on a one-dimensional array: the sorted distinct values. *)
Fixpoint insert_sorted (x : Z) (l : list Z) : list Z :=
  match l with
  | [] => [x]
  | y :: t =>
      if (x <? y)%Z then x :: l
      else if (x =? y)%Z then l
      else y :: insert_sorted x t
  end.

Definition np_unique (l : list Z) : list Z := foldr insert_sorted [] l.

(** [np.array_equal]: same shape and same elements. *)
Definition array_equal (a b : list Z) : bool := bool_decide (a = b).

(** [np.where(l == v)[0]]: the positions of [v] in [l], ascending. *)
Fixpoint where_from (k : nat) (l : list Z) (v : Z) : list nat :=
  match l with
  | [] => []
  | y :: t =>
      if (y =? v)%Z then k :: where_from (S k) t v else where_from (S k) t v
  end.

Definition np_where_eq (l : list Z) (v : Z) : list nat := where_from 0 l v.

(** ** Rows of the per-scene arrays *)

Definition vec3 : Type := R * R * R.

(** A 4-parameter plane [normal . p + offset = 0]: [p[0:3]] and [p[3]]. *)
Record plane := Plane { normal : vec3; offset : R }.

(** A row of [plane_vertices]: columns 0..3 hold the plane estimate,
    column 4 the plane-patch indicator. *)
Record plane_row := PlaneRow { plane_est : plane; patch_id : Z }.

(** A row of [meta_vertices] (9 columns): center, sizes, heading,
    instance id (column -2), semantic id (column -1). *)
Record meta_row := MetaRow {
  m_center : vec3;
  m_xsize : R; m_ysize : R; m_zsize : R;
  m_heading : R;
  m_instance : Z;
  m_semantic : Z
}.

(** The arrays loaded for one scan, before subsampling. *)
Record scene := Scene {
  point_cloud : list vec3;      (* mesh_vertices[:,0:3] *)
  pcl_color : list vec3;        (* mesh_vertices[:,3:6] *)
  plane_vertices : list plane_row;
  meta_vertices : list meta_row
}.

(** [instance_labels = meta_vertices[:,-2]],
    [semantic_labels = meta_vertices[:,-1]]. *)
Definition instance_labels (s : scene) : list Z := m_instance <$> meta_vertices s.
Definition semantic_labels (s : scene) : list Z := m_semantic <$> meta_vertices s.

(** What is live after the resampling block (lines 211-225). *)
Record sampled := Sampled {
  s_choices : list nat;
  s_point_cloud : list vec3;
  s_instance_labels : list Z;
  s_semantic_labels : list Z;
  s_plane_vertices : list plane_row;
  s_meta_vertices : list meta_row;
  s_pcl_color : list vec3
}.

(** ** The rejection-resampling loop *)

Section Resampling.
(** The state of numpy's global generator, and [np.random.choice(n, k)]
    as a function of that state. *)
Variable rng : Type.
Variable random_choice : rng → nat → nat → list nat * rng.

(** Modelled from the spec: [pc_util.random_sampling] with
    [return_choices=True] (utils/pc_util.py is not part of the sources):
    draws [num_sample] row indices of [pc] and returns the rows drawn
    together with the indices. *)
Definition random_sampling (g : rng) (pc : list vec3) (num_sample : nat)
  : result (list vec3 * list nat * rng) :=
  let '(choices, g') := random_choice g (length pc) num_sample in
  rows ← take_rows pc choices; Ok (rows, choices, g').

Variable num_points : nat.

(** [while True: ...] of lines 212-219; [None] is "still looping". *)
Fixpoint resample_loop (fuel : nat) (s : scene) (before_sample : list Z) (g : rng)
  : option (result (list vec3 * list nat * rng)) :=
  match fuel with
  | O => None
  | S fuel' =>
      match random_sampling g (point_cloud s) num_points with
      | Raise e => Some (Raise e)
      | Ok (temp_point_cloud, choices, g') =>
          match take_rows (instance_labels s) choices with
          | Raise e => Some (Raise e)
          | Ok drawn =>
              if array_equal before_sample (np_unique drawn)
              then Some (Ok (temp_point_cloud, choices, g'))
              else resample_loop fuel' s before_sample g'
          end
      end
  end.

(** Lines 211-225. *)
Definition resample (fuel : nat) (s : scene) (g : rng) : option (result (sampled * rng)) :=
  let before_sample := np_unique (instance_labels s) in
  match resample_loop fuel s before_sample g with
  | None => None
  | Some (Raise e) => Some (Raise e)
  | Some (Ok (pc, choices, g')) =>
      Some (il ← take_rows (instance_labels s) choices;
            sl ← take_rows (semantic_labels s) choices;
            pv ← take_rows (plane_vertices s) choices;
            mv ← take_rows (meta_vertices s) choices;
            col ← take_rows (pcl_color s) choices;
            Ok (Sampled choices pc il sl pv mv col, g'))
  end.

(** The generator state before the [k]-th draw of the loop. *)
Fixpoint rng_after (k : nat) (s : scene) (g : rng) : rng :=
  match k with
  | O => g
  | S k' => rng_after k' s (random_choice g (length (point_cloud s)) num_points).2
  end.

Definition draw (k : nat) (s : scene) (g : rng) : list nat :=
  (random_choice (rng_after k s g) (length (point_cloud s)) num_points).1.
End Resampling.

(** ** Geometry kernel *)

Section Geometry.
Local Open Scope R_scope.

Definition vadd (a b : vec3) : vec3 :=
  let '(a1, a2, a3) := a in let '(b1, b2, b3) := b in (a1 + b1, a2 + b2, a3 + b3).
Definition vsub (a b : vec3) : vec3 :=
  let '(a1, a2, a3) := a in let '(b1, b2, b3) := b in (a1 - b1, a2 - b2, a3 - b3).
(** [v * k / 2] on a 3-vector, componentwise, as numpy evaluates it. *)
Definition vhalf (v : vec3) (k : R) : vec3 :=
  let '(v1, v2, v3) := v in (v1 * k / 2, v2 * k / 2, v3 * k / 2).
Definition dot (a b : vec3) : R :=
  let '(a1, a2, a3) := a in let '(b1, b2, b3) := b in a1 * b1 + a2 * b2 + a3 * b3.
Definition norm (a : vec3) : R := sqrt (dot a a).

Definition Rsum (l : list R) : R := foldr Rplus 0 l.
(** [np.mean] of a one-dimensional array. *)
Definition mean (l : list R) : R := Rsum l / INR (length l).

(** [params2bbox] (lines 41-62). *)
Definition params2bbox (center : vec3) (xsize ysize zsize angle : R) : list vec3 :=
  let vx := (cos angle, sin angle, 0) in
  let vy := (- sin angle, cos angle, 0) in
  let vx := vhalf vx (Rabs xsize) in
  let vy := vhalf vy (Rabs ysize) in
  let vz := (0, 0, Rabs zsize / 2) in
  [ vsub (vsub (vsub center vx) vy) vz; vadd (vsub (vsub center vx) vy) vz;
    vsub (vadd (vsub center vx) vy) vz; vadd (vadd (vsub center vx) vy) vz;
    vsub (vsub (vadd center vx) vy) vz; vadd (vsub (vadd center vx) vy) vz;
    vsub (vadd (vadd center vx) vy) vz; vadd (vadd (vadd center vx) vy) vz ].

(** [f_min] (lines 33-36); [X] is given by its columns, the points. *)
Definition f_min (X : list vec3) (p : plane) : list R :=
  let plane_xyz := normal p in
  (λ q, (dot plane_xyz q + offset p) / norm plane_xyz) <$> X.

(** [residuals] (lines 38-39); the [signal] argument is ignored. *)
Definition residuals (params : plane) (X : list vec3) : list R := f_min X params.

(** Squared distance of a point to a corner:
    [np.sum(np.square(x - corner), axis=-1)]. *)
Definition sqdist (p c : vec3) : R :=
  let '(d1, d2, d3) := vsub p c in d1 * d1 + d2 * d2 + d3 * d3.

(** [np.argmin] on a one-dimensional array: the first position of the
    minimum. *)
Fixpoint argmin_from (best : R) (besti k : nat) (l : list R) : nat :=
  match l with
  | [] => besti
  | y :: t =>
      if Rlt_dec y best then argmin_from y k (S k) t
      else argmin_from best besti (S k) t
  end.

Definition argmin (l : list R) : nat :=
  match l with
  | [] => O
  | y :: t => argmin_from y 0%nat 1%nat t
  end.

(** [sel_corner] (lines 343-345): for every member point the position
    of its nearest corner. *)
Definition sel_corner (corners x : list vec3) : list nat :=
  (λ p, argmin ((λ c, sqdist p c) <$> corners)) <$> x.
End Geometry.

(** ** Dataset configuration *)

(** The fields of [ScannetDatasetConfig] (model_util_scannet.py, not part
    of the sources) that [__getitem__] reads. *)
Record DatasetConfig := {
  nyu40ids : list Z;
  nyu40id2class : gmap Z Z;
  nyu40id2class_sem : gmap Z Z;
  mean_size_arr : list vec3;
  num_heading_bin : nat
}.

Definition dict_get (d : gmap Z Z) (k : Z) : result Z :=
  match d !! k with
  | Some v => Ok v
  | None => Raise KeyError
  end.

Section Heading.
Local Open Scope R_scope.
Variable DC : DatasetConfig.

Definition angle_per_class : R := 2 * PI / INR (num_heading_bin DC).

(** Center of sector [k] of the partition of (-pi, pi] into
    [num_heading_bin] equal sectors. *)
Definition sector_center (k : Z) : R := - PI + (IZR k + 1 / 2) * angle_per_class.

(** Modelled from the spec: [DC.angle2class2] (model_util_scannet.py is
    not part of the sources): (-pi, pi] is cut into [num_heading_bin]
    equal sectors; the class is the sector containing the angle, the
    residual the signed offset from the center of that sector. The
    sector [k] is (-pi + k w, -pi + (k+1) w]. *)
Definition angle2class2 (angle : R) : Z * R :=
  let class_id := (- up (- ((angle + PI) / angle_per_class)))%Z in
  (class_id, angle - sector_center class_id).

(** Modelled from the spec: [DC.class2angle2], the inverse of
    [angle2class2]: sector center plus residual. *)
Definition class2angle2 (pred_cls : Z) (residual : R) : R :=
  sector_center pred_cls + residual.
End Heading.

(** ** Vote and plane label synthesis (lines 278-395) *)

(** The label arrays the per-instance loop writes, and [obj_meta]. *)
Record labels := Labels {
  point_votes : list vec3;
  point_votes_corner : list vec3;
  point_votes_mask : list Z;
  point_sem_label : list Z;
  plane_label_mask : list Z;
  plane_votes_front : list plane;
  plane_votes_back : list plane;
  plane_votes_left : list plane;
  plane_votes_right : list plane;
  plane_votes_upper : list plane;
  plane_votes_lower : list plane;
  obj_meta : list meta_row
}.

(** The six face planes of one box. *)
Record faces := Faces {
  plane_front : plane; plane_back : plane;
  plane_left : plane; plane_right : plane;
  plane_upper : plane; plane_lower : plane
}.

Definition zero3 : vec3 := (0%R, 0%R, 0%R).
Definition zero_plane : plane := Plane zero3 0%R.

(** The [np.zeros] allocations of lines 278-291. *)
Definition init_labels (num_points : nat) : labels :=
  {| point_votes := replicate num_points zero3;
     point_votes_corner := replicate num_points zero3;
     point_votes_mask := replicate num_points 0%Z;
     point_sem_label := replicate num_points 0%Z;
     plane_label_mask := replicate num_points 0%Z;
     plane_votes_front := replicate num_points zero_plane;
     plane_votes_back := replicate num_points zero_plane;
     plane_votes_left := replicate num_points zero_plane;
     plane_votes_right := replicate num_points zero_plane;
     plane_votes_upper := replicate num_points zero_plane;
     plane_votes_lower := replicate num_points zero_plane;
     obj_meta := [] |}.

Section Labels.
Local Open Scope R_scope.
Variable DC : DatasetConfig.
(** [scipy.optimize.leastsq(func, x0)[0]]: the fitted parameters, as a
    function of the residual function and of the starting point. *)
Variable leastsq : (plane → list R) → plane → plane.

(** The parallel face through [para_points] with the normal of [fitted]
    (lines 375-377, 380-382, 385-387). *)
Definition parallel_plane (fitted : plane) (para_points : list vec3) : plane :=
  let newd := (λ q, dot q (normal fitted)) <$> para_points in
  Plane (normal fitted) (- mean newd).

(** Lines 373-387. *)
Definition face_planes (corners : list vec3) : result faces :=
  pts ← take_rows corners [0; 2; 4; 6]%nat;
  let lower := leastsq (λ p, residuals p pts) (Plane (0, 0, 1) 0) in
  para_points ← take_rows corners [1; 3; 5; 7]%nat;
  let upper := parallel_plane lower para_points in
  pts ← take_rows corners [0; 1; 2; 3]%nat;
  let left := leastsq (λ p, residuals p pts) (Plane (1, 0, 0) 0) in
  para_points ← take_rows corners [4; 5; 6; 7]%nat;
  let right := parallel_plane left para_points in
  pts ← take_rows corners [0; 1; 4; 5]%nat;
  let front := leastsq (λ p, residuals p pts) (Plane (0, 1, 0) 0) in
  para_points ← take_rows corners [2; 3; 6; 7]%nat;
  let back := parallel_plane front para_points in
  Ok (Faces front back left right upper lower).

(** The loop [for p in planes] of lines 361-365: the patches of one
    instance that are kept, as lists of point indices. *)
Fixpoint patch_groups (ind : list nat) (plane_indicator planes : list Z)
  : result (list (list nat)) :=
  match planes with
  | [] => Ok []
  | p :: planes' =>
      if (0 <? p)%Z then
        let temp_ind := np_where_eq plane_indicator p in
        if (10 <? length temp_ind)%nat then
          g ← take_rows ind temp_ind;
          gs ← patch_groups ind plane_indicator planes';
          Ok (g :: gs)
        else patch_groups ind plane_indicator planes'
      else patch_groups ind plane_indicator planes'
  end.

(** The loop of lines 346-347. *)
Fixpoint corner_vote_loop (corners : list vec3) (votes : list vec3)
    (ind sel : list nat) (x : list vec3) : result (list vec3) :=
  match ind, sel, x with
  | j :: ind', k :: sel', p :: x' =>
      c ← getitem corners k;
      votes' ← fill_rows votes [j] (vsub c p);
      corner_vote_loop corners votes' ind' sel' x'
  | _, _, _ => Ok votes
  end.

(** Lines 358-395 for one retained instance. *)
Definition label_planes (s : sampled) (ind : list nat) (corners : list vec3)
    (st : labels) : result labels :=
  rows ← take_rows (s_plane_vertices s) ind;
  let plane_indicator := patch_id <$> rows in
  let planes := np_unique plane_indicator in
  plane_ind ← patch_groups ind plane_indicator planes;
  if (0 <? length plane_ind)%nat then
    let plane_ind := concat plane_ind in
    mask ← fill_rows (plane_label_mask st) plane_ind 1%Z;
    f ← face_planes corners;
    upper ← fill_rows (plane_votes_upper st) plane_ind (plane_upper f);
    lower ← fill_rows (plane_votes_lower st) plane_ind (plane_lower f);
    front ← fill_rows (plane_votes_front st) plane_ind (plane_front f);
    back ← fill_rows (plane_votes_back st) plane_ind (plane_back f);
    left ← fill_rows (plane_votes_left st) plane_ind (plane_left f);
    right ← fill_rows (plane_votes_right st) plane_ind (plane_right f);
    Ok {| point_votes := point_votes st;
          point_votes_corner := point_votes_corner st;
          point_votes_mask := point_votes_mask st;
          point_sem_label := point_sem_label st;
          plane_label_mask := mask;
          plane_votes_front := front; plane_votes_back := back;
          plane_votes_left := left; plane_votes_right := right;
          plane_votes_upper := upper; plane_votes_lower := lower;
          obj_meta := obj_meta st |}
  else Ok st.

(** The body of [for i_instance in np.unique(instance_labels)]
    (lines 323-395). *)
Definition label_instance (s : sampled) (st : labels) (i_instance : Z) : result labels :=
  let ind := np_where_eq (s_instance_labels s) i_instance in
  i0 ← getitem ind 0%nat;
  sem ← getitem (s_semantic_labels s) i0;
  if bool_decide (sem ∈ nyu40ids DC) then
    x ← take_rows (s_point_cloud s) ind;
    meta ← getitem (s_meta_vertices s) i0;
    let center := m_center meta in
    let corners :=
      params2bbox center (m_xsize meta) (m_ysize meta) (m_zsize meta) (m_heading meta) in
    votes ← put_rows (point_votes st) ind ((λ p, vsub center p) <$> x);
    mask ← fill_rows (point_votes_mask st) ind 1%Z;
    cls ← dict_get (nyu40id2class_sem DC) (m_semantic meta);
    sem_label ← fill_rows (point_sem_label st) ind cls;
    cvotes ← corner_vote_loop corners (point_votes_corner st) ind (sel_corner corners x) x;
    label_planes s ind corners
      {| point_votes := votes;
         point_votes_corner := cvotes;
         point_votes_mask := mask;
         point_sem_label := sem_label;
         plane_label_mask := plane_label_mask st;
         plane_votes_front := plane_votes_front st;
         plane_votes_back := plane_votes_back st;
         plane_votes_left := plane_votes_left st;
         plane_votes_right := plane_votes_right st;
         plane_votes_upper := plane_votes_upper st;
         plane_votes_lower := plane_votes_lower st;
         obj_meta := obj_meta st ++ [meta] |}
  else Ok st.

Fixpoint label_instances (s : sampled) (ids : list Z) (st : labels) : result labels :=
  match ids with
  | [] => Ok st
  | i_instance :: ids' =>
      st' ← label_instance s st i_instance;
      label_instances s ids' st'
  end.

(** Lines 278-395: allocation, then the loop over the instance ids. *)
Definition synthesize_labels (num_points : nat) (s : sampled) : result labels :=
  label_instances s (np_unique (s_instance_labels s)) (init_labels num_points).
End Labels.

(** ** Packing of the per-box arrays (lines 204-209, 425-442, 476-478) *)

Definition MAX_NUM_OBJ : nat := 64.

(** [a[0:n] = v] for a scalar [v]: the slice is clipped to the array. *)
Definition slice_fill {A} (a : list A) (n : nat) (v : A) : list A :=
  replicate (n `min` length a) v ++ drop n a.

(** [a[0:n] = b] for an array [b]: the slice is clipped to the array and
    [b] has to have the rows of the slice, or one row, which is
    broadcast; numpy raises [ValueError] otherwise. *)
Definition slice_assign {A} (a : list A) (n : nat) (b : list A) : result (list A) :=
  let rows := n `min` length a in
  if length b =? rows then Ok (b ++ drop rows a)
  else match b with
       | [v] => Ok (replicate rows v ++ drop rows a)
       | _ => Raise ValueError
       end.

(** [a - b] on two arrays of 3-vectors, with numpy's broadcasting of the
    first axis. *)
Definition broadcast_sub (a b : list vec3) : result (list vec3) :=
  if length a =? length b then Ok (zip_with vsub a b)
  else match a, b with
       | [u], _ => Ok ((λ v, vsub u v) <$> b)
       | _, [v] => Ok ((λ u, vsub u v) <$> a)
       | _, _ => Raise ValueError
       end.

(** A list comprehension whose body can raise. *)
Fixpoint map_result {A B} (f : A → result B) (l : list A) : result (list B) :=
  match l with
  | [] => Ok []
  | a :: l' => b ← f a; bs ← map_result f l'; Ok (b :: bs)
  end.

(** [np.where(l == x)[0][0]]. *)
Definition index_of (l : list Z) (x : Z) : result nat := getitem (np_where_eq l x) 0.

Record box_labels := BoxLabels {
  target_bboxes : list (vec3 * vec3);   (* columns 0:3 and 3:6 *)
  target_bboxes_mask : list Z;
  angle_classes : list Z;
  angle_residuals : list R;
  size_classes : list Z;
  size_residuals : list vec3;
  target_bboxes_semcls : list Z
}.

Section Packing.
Local Open Scope R_scope.
Variable DC : DatasetConfig.

(** The loop of lines 438-442, from row [i] on. *)
Fixpoint heading_loop (i : nat) (rows : list meta_row)
    (classes : list Z) (resid : list R) : result (list Z * list R) :=
  match rows with
  | [] => Ok (classes, resid)
  | m :: rows' =>
      let '(angle_class, angle_residual) := angle2class2 DC (m_heading m) in
      classes' ← fill_rows classes [i] angle_class;
      resid' ← fill_rows resid [i] angle_residual;
      if Rlt_dec (Rabs (class2angle2 DC angle_class angle_residual - m_heading m))
                 (1 / 1000000)
      then heading_loop (S i) rows' classes' resid'
      else Raise AssertionError
  end.

Definition pack_boxes (obj_meta : list meta_row) : result box_labels :=
  let target_bboxes := replicate MAX_NUM_OBJ (zero3, zero3) in
  let target_bboxes_mask := replicate MAX_NUM_OBJ 0%Z in
  let angle_classes := replicate MAX_NUM_OBJ 0%Z in
  let angle_residuals := replicate MAX_NUM_OBJ 0 in
  let size_classes := replicate MAX_NUM_OBJ 0%Z in
  let size_residuals := replicate MAX_NUM_OBJ zero3 in
  let num_instance := length obj_meta in
  let target_bboxes_mask := slice_fill target_bboxes_mask num_instance 1%Z in
  target_bboxes ← slice_assign target_bboxes num_instance
    ((λ m, (m_center m, (m_xsize m, m_ysize m, m_zsize m))) <$> obj_meta);
  class_ind ← map_result (λ m, index_of (nyu40ids DC) (m_semantic m)) obj_meta;
  size_classes ← slice_assign size_classes num_instance (Z.of_nat <$> class_ind);
  means ← take_rows (mean_size_arr DC) class_ind;
  diff ← broadcast_sub (take num_instance (snd <$> target_bboxes)) means;
  size_residuals ← slice_assign size_residuals num_instance diff;
  '(angle_classes, angle_residuals) ←
    heading_loop 0 obj_meta angle_classes angle_residuals;
  let target_bboxes_semcls := replicate MAX_NUM_OBJ 0%Z in
  semcls ← map_result (λ m, dict_get (nyu40id2class DC) (m_semantic m)) obj_meta;
  target_bboxes_semcls ← slice_assign target_bboxes_semcls num_instance semcls;
  Ok {| target_bboxes := target_bboxes;
        target_bboxes_mask := target_bboxes_mask;
        angle_classes := angle_classes;
        angle_residuals := angle_residuals;
        size_classes := size_classes;
        size_residuals := size_residuals;
        target_bboxes_semcls := target_bboxes_semcls |}.

Variable leastsq : (plane → list R) → plane → plane.

(** The label part of [__getitem__] on the subsampled (and possibly
    augmented) arrays: the per-instance loop, then the packing. *)
Definition dataset_getitem (num_points : nat) (s : sampled) : result (labels * box_labels) :=
  st ← synthesize_labels DC leastsq num_points s;
  boxes ← pack_boxes (obj_meta st);
  Ok (st, boxes).
End Packing.

(** ** Well-formedness of the inputs *)

(** The per-point arrays of a scan have one row per point. *)
Definition aligned (s : scene) : Prop :=
  length (pcl_color s) = length (point_cloud s)
  ∧ length (plane_vertices s) = length (point_cloud s)
  ∧ length (meta_vertices s) = length (point_cloud s).

(** [np.random.choice(n, k)] returns [k] indices below [n]. *)
Definition sampler_ok {rng} (random_choice : rng → nat → nat → list nat * rng)
    (num_points : nat) (s : scene) : Prop :=
  ∀ g, length (random_choice g (length (point_cloud s)) num_points).1 = num_points
       ∧ Forall (λ i, i < length (point_cloud s))
                (random_choice g (length (point_cloud s)) num_points).1.

(** The draw [choices] hits every instance id of the scene. *)
Definition keeps_ids (s : scene) (choices : list nat) : Prop :=
  ∀ x, x ∈ instance_labels s →
       ∃ i, i ∈ choices ∧ instance_labels s !! i = Some x.

(** Every array of [out] is the gather of the scene's array along
    [s_choices out]. *)
Definition gathered_by (s : scene) (out : sampled) : Prop :=
  ∀ k i, s_choices out !! k = Some i →
    s_point_cloud out !! k = point_cloud s !! i
    ∧ s_instance_labels out !! k = instance_labels s !! i
    ∧ s_semantic_labels out !! k = semantic_labels s !! i
    ∧ s_plane_vertices out !! k = plane_vertices s !! i
    ∧ s_meta_vertices out !! k = meta_vertices s !! i
    ∧ s_pcl_color out !! k = pcl_color s !! i.

(** The arrays that reach the label loop have [num_points] rows, and the
    semantic labels are the last column of the metadata rows (both are
    gathered from [meta_vertices] along the same indices). *)
Definition sampled_ok (num_points : nat) (s : sampled) : Prop :=
  length (s_point_cloud s) = num_points
  ∧ length (s_instance_labels s) = num_points
  ∧ length (s_plane_vertices s) = num_points
  ∧ length (s_meta_vertices s) = num_points
  ∧ s_semantic_labels s = m_semantic <$> s_meta_vertices s.

(** Every valid object class has an entry in [nyu40id2class_sem]. *)
Definition config_ok (DC : DatasetConfig) : Prop :=
  ∀ x, x ∈ nyu40ids DC → is_Some (nyu40id2class_sem DC !! x).

(** What the packing needs of the configuration: a class for every
    valid semantic id, a mean size for every position of [nyu40ids], and
    at least one heading bin. *)
Definition config_boxes_ok (DC : DatasetConfig) : Prop :=
  (∀ x, x ∈ nyu40ids DC → is_Some (nyu40id2class DC !! x))
  ∧ length (nyu40ids DC) ≤ length (mean_size_arr DC)
  ∧ 0 < num_heading_bin DC.

(** Every per-box array is zero in the slots from [k] on. *)
Definition zero_padded (b : box_labels) (k : nat) : Prop :=
  ∀ slot, k ≤ slot < MAX_NUM_OBJ →
    target_bboxes b !! slot = Some (zero3, zero3)
    ∧ target_bboxes_mask b !! slot = Some 0%Z
    ∧ angle_classes b !! slot = Some 0%Z
    ∧ angle_residuals b !! slot = Some 0%R
    ∧ size_classes b !! slot = Some 0%Z
    ∧ size_residuals b !! slot = Some zero3
    ∧ target_bboxes_semcls b !! slot = Some 0%Z.

(** ** Instances, as the specification speaks of them *)

(** The member points of instance [i]. *)
Definition members (s : sampled) (i : Z) : list nat :=
  np_where_eq (s_instance_labels s) i.

(** The metadata row of a retained instance: the row of its first member
    point, provided the semantic id of that point is a valid object
    class; [None] for an instance that is not retained. *)
Definition retained_meta (DC : DatasetConfig) (s : sampled) (i : Z) : option meta_row :=
  i0 ← head (members s i);
  sem ← s_semantic_labels s !! i0;
  if bool_decide (sem ∈ nyu40ids DC) then s_meta_vertices s !! i0 else None.

Definition instance_corners (meta : meta_row) : list vec3 :=
  params2bbox (m_center meta) (m_xsize meta) (m_ysize meta) (m_zsize meta)
    (m_heading meta).

(** The member points of instance [i] that carry plane-patch id [p]. *)
Definition patch_members (s : sampled) (i p : Z) : list nat :=
  filter (λ j, patch_id <$> s_plane_vertices s !! j = Some p) (members s i).

(** Point [j] of instance [i] lies in a patch that the loop of lines
    361-365 keeps: a positive patch id carried by more than 10 member
    points. *)
Definition plane_labelled (s : sampled) (i : Z) (j : nat) : bool :=
  match s_plane_vertices s !! j with
  | Some row =>
      (0 <? patch_id row)%Z && (10 <? length (patch_members s i (patch_id row)))
  | None => false
  end.

(** ** The label arrays seen at one point *)

Definition sizes (n : nat) (st : labels) : Prop :=
  length (point_votes st) = n
  ∧ length (point_votes_corner st) = n
  ∧ length (point_votes_mask st) = n
  ∧ length (point_sem_label st) = n
  ∧ length (plane_label_mask st) = n
  ∧ length (plane_votes_front st) = n
  ∧ length (plane_votes_back st) = n
  ∧ length (plane_votes_left st) = n
  ∧ length (plane_votes_right st) = n
  ∧ length (plane_votes_upper st) = n
  ∧ length (plane_votes_lower st) = n.

(** Row [j] of the four vote arrays. *)
Definition votes_are (st : labels) (j : nat) (vote cvote : vec3) (mask sem : Z) : Prop :=
  point_votes st !! j = Some vote
  ∧ point_votes_corner st !! j = Some cvote
  ∧ point_votes_mask st !! j = Some mask
  ∧ point_sem_label st !! j = Some sem.

(** Row [j] of the plane mask and of the six plane arrays. *)
Definition planes_are (st : labels) (j : nat) (mask : Z) (f : faces) : Prop :=
  plane_label_mask st !! j = Some mask
  ∧ plane_votes_front st !! j = Some (plane_front f)
  ∧ plane_votes_back st !! j = Some (plane_back f)
  ∧ plane_votes_left st !! j = Some (plane_left f)
  ∧ plane_votes_right st !! j = Some (plane_right f)
  ∧ plane_votes_upper st !! j = Some (plane_upper f)
  ∧ plane_votes_lower st !! j = Some (plane_lower f).

Definition zero_faces : faces :=
  Faces zero_plane zero_plane zero_plane zero_plane zero_plane zero_plane.

(** Row [j] is as [np.zeros] left it. *)
Definition untouched (st : labels) (j : nat) : Prop :=
  votes_are st j zero3 zero3 0 0 ∧ planes_are st j 0 zero_faces.

Definition same_votes (st st' : labels) (j : nat) : Prop :=
  point_votes st' !! j = point_votes st !! j
  ∧ point_votes_corner st' !! j = point_votes_corner st !! j
  ∧ point_votes_mask st' !! j = point_votes_mask st !! j
  ∧ point_sem_label st' !! j = point_sem_label st !! j.

Definition same_planes (st st' : labels) (j : nat) : Prop :=
  plane_label_mask st' !! j = plane_label_mask st !! j
  ∧ plane_votes_front st' !! j = plane_votes_front st !! j
  ∧ plane_votes_back st' !! j = plane_votes_back st !! j
  ∧ plane_votes_left st' !! j = plane_votes_left st !! j
  ∧ plane_votes_right st' !! j = plane_votes_right st !! j
  ∧ plane_votes_upper st' !! j = plane_votes_upper st !! j
  ∧ plane_votes_lower st' !! j = plane_votes_lower st !! j.

(** What the loop leaves in row [j], a point of instance [i]. *)
Definition settled (DC : DatasetConfig) (leastsq : (plane → list R) → plane → plane)
    (s : sampled) (st : labels) (j : nat) (i : Z) : Prop :=
  match retained_meta DC s i with
  | None => untouched st j
  | Some meta =>
      ∃ p cls c f,
        s_point_cloud s !! j = Some p
        ∧ nyu40id2class_sem DC !! m_semantic meta = Some cls
        ∧ instance_corners meta
            !! argmin ((λ c, sqdist p c) <$> instance_corners meta) = Some c
        ∧ face_planes leastsq (instance_corners meta) = Ok f
        ∧ votes_are st j (vsub (m_center meta) p) (vsub c p) 1 cls
        ∧ if plane_labelled s i j then planes_are st j 1 f
          else planes_are st j 0 zero_faces
  end.

(** The corner of a box named by three sign bits ([false] is the minus
    side): the center plus the signed half-extents along the box axes,
    the x and y axes turned by the heading about z. *)
Definition sign_of (b : bool) : R := if b then 1%R else (-1)%R.

Definition box_corner (center : vec3) (xsize ysize zsize angle : R)
    (bx by_ bz : bool) : vec3 :=
  let '(cx, cy, cz) := center in
  let hx := (Rabs xsize / 2)%R in
  let hy := (Rabs ysize / 2)%R in
  let hz := (Rabs zsize / 2)%R in
  (cx + sign_of bx * hx * cos angle - sign_of by_ * hy * sin angle,
   cy + sign_of bx * hx * sin angle + sign_of by_ * hy * cos angle,
   cz + sign_of bz * hz)%R.

(** Position of that corner in the array: x is the high bit, z the low. *)
Definition corner_index (bx by_ bz : bool) : nat :=
  4 * Nat.b2n bx + 2 * Nat.b2n by_ + Nat.b2n bz.

(** ** Example inputs *)

(** A generator that walks round the rows: state [g] draws the [k]
    indices [g, g+1, ...] modulo [n]. *)
Definition cycle_choice (g n k : nat) : list nat * nat :=
  ((λ i, (g + i) mod n) <$> seq 0 k, S g).

Definition demo_meta (inst sem : Z) : meta_row :=
  MetaRow zero3 2 2 2 0 inst sem.

(** Three points, the first of instance 1, the others of instance 2. *)
Definition demo_scene : scene :=
  {| point_cloud := [zero3; zero3; zero3];
     pcl_color := [zero3; zero3; zero3];
     plane_vertices := replicate 3 (PlaneRow zero_plane 0);
     meta_vertices := [demo_meta 1 3; demo_meta 2 4; demo_meta 2 4] |}.

(** A small configuration: two object classes, twelve heading bins. *)
Definition demo_config : DatasetConfig :=
  {| nyu40ids := [3; 4]%Z;
     nyu40id2class := <[3%Z:=0%Z]> (<[4%Z:=1%Z]> ∅);
     nyu40id2class_sem := <[3%Z:=2%Z]> (<[4%Z:=3%Z]> ∅);
     mean_size_arr := [(1, 1, 1); (1, 1, 1)]%R;
     num_heading_bin := 12 |}.

(** A fit that stays at the starting point. *)
Definition demo_leastsq (residual : plane → list R) (x0 : plane) : plane := x0.

(** [n] points of one chair-like instance (id 1, semantic id 3), all on
    plane patch 1. *)
Definition one_patch_scene (n : nat) : sampled :=
  {| s_choices := seq 0 n;
     s_point_cloud := replicate n zero3;
     s_instance_labels := replicate n 1%Z;
     s_semantic_labels := replicate n 3%Z;
     s_plane_vertices := replicate n (PlaneRow zero_plane 1);
     s_meta_vertices := replicate n (demo_meta 1 3);
     s_pcl_color := replicate n zero3 |}.

(** Three points: the first of a retained instance (id 1, semantic id
    3), the others of an instance whose semantic id 40 is not an object
    class. *)
Definition mixed_scene : sampled :=
  {| s_choices := [0; 1; 2];
     s_point_cloud := [zero3; zero3; zero3];
     s_instance_labels := [1; 2; 2]%Z;
     s_semantic_labels := [3; 40; 40]%Z;
     s_plane_vertices := replicate 3 (PlaneRow zero_plane 0);
     s_meta_vertices := [demo_meta 1 3; demo_meta 2 40; demo_meta 2 40];
     s_pcl_color := [zero3; zero3; zero3] |}.

(** [n] points, each an instance of its own (ids 1..n, semantic id 3). *)
Definition crowded_scene (n : nat) : sampled :=
  {| s_choices := seq 0 n;
     s_point_cloud := replicate n zero3;
     s_instance_labels := (λ k, Z.of_nat k + 1)%Z <$> seq 0 n;
     s_semantic_labels := replicate n 3%Z;
     s_plane_vertices := replicate n (PlaneRow zero_plane 0);
     s_meta_vertices := (λ k, demo_meta (Z.of_nat k + 1) 3) <$> seq 0 n;
     s_pcl_color := replicate n zero3 |}.

(** ** Further functions of the module *)

(** [np.sum(np.square(x), 1)] on one row. *)
Definition sum_square (a : vec3) : R :=
  let '(a1, a2, a3) := a in (a1 * a1 + a2 * a2 + a3 * a3)%R.

(** [pdist2] (lines 64-70), on the arrays of 3-vectors that [find_idx]
    passes: [(-2 x1 x2^T + ny^T) + nx] with numpy's broadcasting. *)
Definition pdist2 (x1 x2 : list vec3) : list (list R) :=
  let C := (λ a, (λ b, (-2 * dot a b)%R) <$> x2) <$> x1 in
  let nx := sum_square <$> x1 in
  let ny := sum_square <$> x2 in
  zip_with (λ row nxi, (λ v, (v + nxi)%R) <$> zip_with Rplus row ny) C nx.



(** The configuration [DC] with a class 0 added to [nyu40id2class_sem]
    for every valid semantic id that has none. *)
Definition with_default_sem_classes (DC : DatasetConfig) : DatasetConfig :=
  {| nyu40ids := nyu40ids DC;
     nyu40id2class := nyu40id2class DC;
     nyu40id2class_sem :=
       nyu40id2class_sem DC ∪ gset_to_gmap 0%Z (list_to_set (nyu40ids DC));
     mean_size_arr := mean_size_arr DC;
     num_heading_bin := num_heading_bin DC |}.

(** [demo_config] without the entry of semantic id 3 in
    [nyu40id2class_sem]. *)
Definition gappy_config : DatasetConfig :=
  {| nyu40ids := [3; 4]%Z;
     nyu40id2class := <[3%Z:=0%Z]> (<[4%Z:=1%Z]> ∅);
     nyu40id2class_sem := <[4%Z:=3%Z]> ∅;
     mean_size_arr := [(1, 1, 1); (1, 1, 1)]%R;
     num_heading_bin := 12 |}.

(** ** Data augmentation (lines 231-260) *)

(** A 3x3 matrix, by rows. *)
Definition mat3 : Type := vec3 * vec3 * vec3.

(** [np.eye(3)]. *)
Definition eye3 : mat3 := ((1, 0, 0), (0, 1, 0), (0, 0, 1))%R.

(** A row of [np.dot(x, np.transpose(m))]. *)
Definition row_dot_T (m : mat3) (p : vec3) : vec3 :=
  let '(r1, r2, r3) := m in (dot p r1, dot p r2, dot p r3).

(** A row of [np.transpose(np.dot(m, np.transpose(x)))]. *)
Definition dot_T_row (m : mat3) (p : vec3) : vec3 :=
  let '(r1, r2, r3) := m in (dot r1 p, dot r2 p, dot r3 p).

(** [v[0] = -1 * v[0]] and [v[1] = -1 * v[1]]. *)
Definition negate_x (v : vec3) : vec3 := let '(x, y, z) := v in ((-1 * x)%R, y, z).
Definition negate_y (v : vec3) : vec3 := let '(x, y, z) := v in (x, (-1 * y)%R, z).

(** A per-coordinate change of the three coordinate-carrying arrays that
    also negates the heading (lines 238-242 and 247-251). *)
Definition flip_with (neg : vec3 → vec3) (s : sampled) : sampled :=
  {| s_choices := s_choices s;
     s_point_cloud := neg <$> s_point_cloud s;
     s_instance_labels := s_instance_labels s;
     s_semantic_labels := s_semantic_labels s;
     s_plane_vertices :=
       (λ r, PlaneRow (Plane (neg (normal (plane_est r))) (offset (plane_est r)))
               (patch_id r)) <$> s_plane_vertices s;
     s_meta_vertices :=
       (λ m, MetaRow (neg (m_center m)) (m_xsize m) (m_ysize m) (m_zsize m)
               (-1 * m_heading m)%R (m_instance m) (m_semantic m))
         <$> s_meta_vertices s;
     s_pcl_color := s_pcl_color s |}.

(** Flipping along the YZ plane, and along the XZ plane. *)
Definition flip_yz : sampled → sampled := flip_with negate_x.
Definition flip_xz : sampled → sampled := flip_with negate_y.

(** Columns 0:6 of a metadata row, and their replacement. *)
Definition box_of (m : meta_row) : vec3 * vec3 :=
  (m_center m, (m_xsize m, m_ysize m, m_zsize m)).

Definition set_box (m : meta_row) (b : vec3 * vec3) : meta_row :=
  let '(c, (xs, ys, zs)) := b in
  MetaRow c xs ys zs (m_heading m) (m_instance m) (m_semantic m).

(** [meta_vertices[:, :6] = boxes]: as many rows, or one row that is
    broadcast. *)
Definition assign_boxes (mv : list meta_row) (boxes : list (vec3 * vec3))
  : result (list meta_row) :=
  if length boxes =? length mv then Ok (zip_with set_box mv boxes)
  else match boxes with
       | [b] => Ok ((λ m, set_box m b) <$> mv)
       | _ => Raise ValueError
       end.

Section Augmentation.
Local Open Scope R_scope.
(** [np.random.random()] as a function of the generator state. *)
Variable rng : Type.
Variable random : rng → R * rng.
(** [pc_util.rotz] and [model_util_scannet.rotate_aligned_boxes], which
    are not part of the sources. *)
Variable rotz : R → mat3.
Variable rotate_aligned_boxes : list (vec3 * vec3) → mat3 → list (vec3 * vec3).

(** Lines 254-260. *)
Definition rotate_scene (rot_angle : R) (s : sampled) : result sampled :=
  let rot_mat := rotz rot_angle in
  let point_cloud := row_dot_T rot_mat <$> s_point_cloud s in
  let plane_vertices :=
    (λ r, PlaneRow (Plane (dot_T_row rot_mat (normal (plane_est r)))
                      (offset (plane_est r))) (patch_id r)) <$> s_plane_vertices s in
  meta_vertices ← assign_boxes (s_meta_vertices s)
    (rotate_aligned_boxes (box_of <$> s_meta_vertices s) rot_mat);
  let meta_vertices :=
    (λ m, MetaRow (m_center m) (m_xsize m) (m_ysize m) (m_zsize m)
            (m_heading m + rot_angle) (m_instance m) (m_semantic m))
      <$> meta_vertices in
  Ok {| s_choices := s_choices s;
        s_point_cloud := point_cloud;
        s_instance_labels := s_instance_labels s;
        s_semantic_labels := s_semantic_labels s;
        s_plane_vertices := plane_vertices;
        s_meta_vertices := meta_vertices;
        s_pcl_color := s_pcl_color s |}.

(** Lines 231-260: the scene after augmentation, the flags [aug_yz],
    [aug_xz] and the matrix [aug_rot]. *)
Definition augment_scene (augment : bool) (s : sampled) (g : rng)
  : result (sampled * Z * Z * mat3 * rng) :=
  if augment then
    let '(r1, g) := random g in
    let '(s, point_yz) := if Rgt_dec r1 (1 / 2) then (flip_yz s, 1%Z) else (s, (-1)%Z) in
    let '(r2, g) := random g in
    let '(s, point_xz) := if Rgt_dec r2 (1 / 2) then (flip_xz s, 1%Z) else (s, (-1)%Z) in
    let '(r3, g) := random g in
    let rot_angle := r3 * PI / 18 - PI / 36 in
    s ← rotate_scene rot_angle s;
    Ok (s, point_yz, point_xz, rotz rot_angle, g)
  else Ok (s, (-1)%Z, (-1)%Z, eye3, g).
End Augmentation.

(** Two scenes that differ in coordinates only: the same instance,
    semantic and patch ids, row by row. *)
Definition same_ids (s s' : sampled) : Prop :=
  s_instance_labels s' = s_instance_labels s
  ∧ s_semantic_labels s' = s_semantic_labels s
  ∧ patch_id <$> s_plane_vertices s' = patch_id <$> s_plane_vertices s
  ∧ m_semantic <$> s_meta_vertices s' = m_semantic <$> s_meta_vertices s.

(** Example stand-ins for the generator and the two absent helpers:
    draws that alternate between 3/4 and 1/4, the rotation about z, and a
    box rotation that returns its boxes. *)
Definition demo_random (g : nat) : R * nat :=
  ((if Nat.even g then 3 / 4 else 1 / 4)%R, S g).

Definition demo_rotz (t : R) : mat3 :=
  ((cos t, - sin t, 0), (sin t, cos t, 0), (0, 0, 1))%R.

Definition demo_rotate_boxes (boxes : list (vec3 * vec3)) (m : mat3)
  : list (vec3 * vec3) := boxes.

(** ** Visualization (lines 526-534 and 598-622) *)

(** [a[inds]] for a boolean index array: [inds] has to be as long as
    [a]; the rows at the [True] positions are kept, in order. *)
Fixpoint select_rows {A} (a : list A) (inds : list bool) : list A :=
  match a, inds with
  | x :: a', b :: inds' => if b then x :: select_rows a' inds' else select_rows a' inds'
  | _, _ => []
  end.






Section VizObb.
Variable DC : DatasetConfig.


End VizObb.

(** ** Matching support centers to boxes (lines 72-101) *)

(** [np.array_equal] on two 3-vectors. *)
Definition centers_equal (a b : vec3) : bool :=
  let '(a1, a2, a3) := a in
  let '(b1, b2, b3) := b in
  if Req_dec_T a1 b1 then
    if Req_dec_T a2 b2 then if Req_dec_T a3 b3 then true else false else false
  else false.

(** The scan of lines 83-86 over the centers from index [idx] on:
    [check] and the value [idx] holds after the loop. After a scan without
    a hit [idx] is the last index of the range; the range is never empty,
    [np.stack] has refused an empty list before. *)
Fixpoint scan_centers (selected_centers : list vec3) (center : vec3) (idx : nat)
  : bool * nat :=
  match selected_centers with
  | [] => (false, idx - 1)
  | c :: rest =>
      if centers_equal c center then (true, idx)
      else scan_centers rest center (S idx)
  end.

(** One of the two loops of lines 81-100. [idx2bb] is the dictionary
    with keys [0 .. n-1], held as the list of its values; [printed]
    counts the lines ["error with data"] written so far. *)
Fixpoint match_loop (selected_centers : list vec3) (idx2bb : list nat)
    (support : list vec3) (support_idx : list nat) (printed : nat)
  : result (list nat * nat) :=
  match support with
  | [] => Ok (support_idx, printed)
  | center :: rest =>
      let '(check, idx) := scan_centers selected_centers center 0 in
      let printed := if check then printed else S printed in
      if bool_decide (idx ∈ support_idx)
      then match_loop selected_centers idx2bb rest support_idx printed
      else
        match idx2bb !! idx with
        | Some bb =>
            match_loop selected_centers idx2bb rest (support_idx ++ [bb]) printed
        | None => Raise KeyError
        end
  end.

Section FindIdx.
(** [scipy.optimize.linear_sum_assignment]: the row and the column
    indices of an optimal assignment. *)
Variable linear_sum_assignment : list (list R) → list nat * list nat.

(** [find_idx]: the two index lists and the number of lines printed. *)
Definition find_idx (targetbb selected_centers selected_centers_support
    selected_centers_bsupport : list vec3) : result (list nat * list nat * nat) :=
  match selected_centers with
  | [] => Raise ValueError
  | _ =>
      let center_matrix := selected_centers in
      if negb (length center_matrix =? length targetbb) then Raise AssertionError
      else
        let costMatrix := pdist2 center_matrix targetbb in
        let '(row_ind, col_ind) := linear_sum_assignment costMatrix in
        idx2bb ← take_rows row_ind (seq 0 (length center_matrix));
        '(support_idx, printed) ←
          match_loop selected_centers idx2bb selected_centers_support [] 0;
        '(bsupport_idx, printed) ←
          match_loop selected_centers idx2bb selected_centers_bsupport [] printed;
        Ok (support_idx, bsupport_idx, printed)
  end.
End FindIdx.

(** An assignment routine that pairs row [i] with column [i]; its row
    indices are those scipy returns for a square matrix. *)
Definition diagonal_assignment (M : list (list R)) : list nat * list nat :=
  (seq 0 (length M), seq 0 (length M)).

(** [k] is the position of the first of the centers equal to [c]. *)
Definition first_at (centers : list vec3) (c : vec3) (k : nat) : Prop :=
  centers !! k = Some c ∧ ∀ k', k' < k → (centers !! k') ≠ Some c.

(** The index a support center [c] is matched to: the position of its
    first occurrence among the selected centers, or the last position
    when it is none of them. *)
Definition matched_at (centers : list vec3) (c : vec3) (k : nat) : Prop :=
  first_at centers c k ∨ ((c ∉ centers) ∧ k = length centers - 1).

(** * [scannet/extract_mean_size.py]

    The script that computes the mean box size of every class from the
    per-vertex box arrays of the training scans. A file is the list of
    its rows, a row has the nine columns of [meta_row]; [str], Python's
    conversion of a float to a string, is a parameter. *)

(** The nine columns of a row, as the loop of [list2str] meets them. *)
Definition row_values (obj : meta_row) : list R :=
  let '(c1, c2, c3) := m_center obj in
  [c1; c2; c3; m_xsize obj; m_ysize obj; m_zsize obj; m_heading obj;
   IZR (m_instance obj); IZR (m_semantic obj)].

(** [obj[3:6]]. *)
Definition row_size (obj : meta_row) : vec3 := (m_xsize obj, m_ysize obj, m_zsize obj).

(** [{i:[] for i in range(1,41)}]. *)
Definition mean_size_init : gmap Z (list vec3) :=
  gset_to_gmap [] (list_to_set (Z.of_nat <$> seq 1 40)).

(** [np.mean(l, axis=0)] on a list of 3-vectors. *)
Definition vmean (l : list vec3) : vec3 :=
  (mean ((λ v, v.1.1) <$> l), mean ((λ v, v.1.2) <$> l), mean ((λ v, v.2) <$> l)).

(** Lines 50-53: the keys of [mean_size] are 1 .. 40, in this order. *)
Definition fill_means (mean_size : gmap Z (list vec3)) : list vec3 :=
  foldl (λ mean_shape cls,
           match mean_size !! Z.of_nat cls with
           | Some (v :: l) => <[cls - 1 := vmean (v :: l)]> mean_shape
           | _ => mean_shape
           end)
        (replicate 40 zero3) (seq 1 40).

Section ExtractMeanSize.
Variable str : R → string.

Definition list2str (l : list R) : string :=
  foldl (λ st i, st +:+ str i) EmptyString l.

(** The loop of lines 32-37 over the rows of one file. *)
Fixpoint scan_file (data : list meta_row) (temp : list string)
    (mean_size : gmap Z (list vec3)) : result (list string * gmap Z (list vec3)) :=
  match data with
  | [] => Ok (temp, mean_size)
  | obj :: rest =>
      if bool_decide (m_semantic obj ∈ [0; 38; 39; 40]%Z)
      then scan_file rest temp mean_size
      else
        let temps := list2str (row_values obj) in
        if bool_decide (temps ∈ temp) then scan_file rest temp mean_size
        else
          match mean_size !! m_semantic obj with
          | Some l =>
              scan_file rest (temp ++ [temps])
                (<[m_semantic obj := l ++ [row_size obj]]> mean_size)
          | None => Raise KeyError
          end
  end.

(** The loop of lines 19-37 over the files. *)
Fixpoint scan_files (flist : list (list meta_row)) (mean_size : gmap Z (list vec3))
  : result (gmap Z (list vec3)) :=
  match flist with
  | [] => Ok mean_size
  | data :: rest =>
      '(_, mean_size) ← scan_file data [] mean_size;
      scan_files rest mean_size
  end.

(** The array the script saves. *)
Definition extract_mean_size (flist : list (list meta_row)) : result (list vec3) :=
  mean_size ← scan_files flist mean_size_init;
  Ok (fill_means mean_size).
End ExtractMeanSize.


(** A row of the files. *)
Definition row_of (flist : list (list meta_row)) (obj : meta_row) : Prop :=
  ∃ data, data ∈ flist ∧ obj ∈ data.

(** The keys of the dictionary are 1 .. 40. *)
Definition keys_ok (mean_size : gmap Z (list vec3)) : Prop :=
  ∀ c, is_Some (mean_size !! c) ↔ (1 ≤ c ≤ 40)%Z.

(** The classes the script leaves out. *)
Definition skipped (c : Z) : Prop := c ∈ [0; 38; 39; 40]%Z.

(** What the loops add to the list of class [c]: sizes of rows of that
    class, which is not one of the classes left out. *)
Definition grown_from (rows : meta_row → Prop) (old new : gmap Z (list vec3)) : Prop :=
  ∀ c l', new !! c = Some l' →
    ∃ l add, old !! c = Some l ∧ l' = l ++ add
      ∧ ∀ v, v ∈ add →
          ∃ obj, rows obj ∧ m_semantic obj = c ∧ row_size obj = v ∧ ¬ skipped c.

(** A conversion to strings that tells no two numbers apart. *)
Definition demo_str (x : R) : string := "x"%string.

(** ** One sample, from the raw scene to the labels *)

Section GetItem.
Variable rng : Type.
Variable random_choice : rng → nat → nat → list nat * rng.
Variable random : rng → R * rng.
Variable rotz : R → mat3.
Variable rotate_aligned_boxes : list (vec3 * vec3) → mat3 → list (vec3 * vec3).
Variable DC : DatasetConfig.
Variable leastsq : (plane → list R) → plane → plane.
Variable num_points : nat.
Variable augment : bool.

(** [__getitem__] from the resampling loop to the box arrays (lines
    211-442): resampling, augmentation, label loop and packing, in this
    order and on one generator. The voxel grids computed in between are
    read by none of these steps and are left out. *)
Definition getitem_sample (fuel : nat) (s : scene) (g : rng)
  : option (result (labels * box_labels * Z * Z * mat3 * rng)) :=
  match resample rng random_choice num_points fuel s g with
  | None => None
  | Some r =>
      Some ('(out, g) ← r;
            '(out, point_yz, point_xz, point_rot, g) ←
              augment_scene rng random rotz rotate_aligned_boxes augment out g;
            '(st, b) ← dataset_getitem DC leastsq num_points out;
            Ok (st, b, point_yz, point_xz, point_rot, g))
  end.
End GetItem.

(** * Properties *)

(** ** The exception monad *)

Lemma bind_Ok {A B} (m : result A) (f : A → result B) (b : B) :
  m ≫= f = Ok b ↔ ∃ a, m = Ok a ∧ f a = Ok b.
Proof.
  destruct m as [a|e]; simpl; split.
  - eauto.
  - by intros (? & [= <-] & ?).
  - done.
  - by intros (? & ? & ?).
Qed.

Ltac inv_bind H :=
  repeat match type of H with
  | _ ≫= _ = Ok _ =>
      let x := fresh "x" in let Hx := fresh "Hx" in
      apply bind_Ok in H as (x & Hx & H)
  end.

(** ** Reading and writing rows *)

Lemma getitem_Ok {A} (a : list A) i x : getitem a i = Ok x ↔ a !! i = Some x.
Proof. unfold getitem. destruct (a !! i); naive_solver. Qed.

Lemma getitem_lt {A} (a : list A) i : i < length a → ∃ x, getitem a i = Ok x.
Proof.
  intros [x Hx]%lookup_lt_is_Some. exists x. by apply getitem_Ok.
Qed.

Lemma take_rows_Ok {A} (a : list A) idx xs :
  take_rows a idx = Ok xs ↔ Forall2 (λ i x, a !! i = Some x) idx xs.
Proof.
  revert xs. induction idx as [|i idx IH]; intros xs; simpl.
  - split; [intros [= <-]; constructor | by intros ->%Forall2_nil_inv_l].
  - split.
    + intros H. inv_bind H. injection H as <-.
      constructor; [by apply getitem_Ok | by apply IH].
    + intros (x & xs' & Hx & Hxs & ->)%Forall2_cons_inv_l.
      apply getitem_Ok in Hx. apply IH in Hxs. by rewrite Hx, Hxs.
Qed.

Lemma take_rows_length {A} (a : list A) idx xs :
  take_rows a idx = Ok xs → length xs = length idx.
Proof. intros H%take_rows_Ok. symmetry. by eapply Forall2_length. Qed.

Lemma take_rows_lookup {A} (a : list A) idx xs k i :
  take_rows a idx = Ok xs → idx !! k = Some i → xs !! k = a !! i.
Proof.
  intros H%take_rows_Ok Hk.
  destruct (Forall2_lookup_l _ _ _ _ _ H Hk) as (x & -> & Hx). done.
Qed.

Lemma take_rows_total {A} (a : list A) idx :
  Forall (λ i, i < length a) idx → ∃ xs, take_rows a idx = Ok xs.
Proof.
  induction 1 as [|i idx Hi _ [xs IH]]; simpl; [by eexists|].
  destruct (getitem_lt a i Hi) as [x ->]. rewrite IH. by eexists.
Qed.

Lemma take_rows_fmap {A B} (f : A → B) (a : list A) idx xs :
  take_rows a idx = Ok xs → take_rows (f <$> a) idx = Ok (f <$> xs).
Proof.
  rewrite !take_rows_Ok. intros H. apply Forall2_fmap_r.
  eapply Forall2_impl; [done|]. intros i x Hx; simpl.
  by rewrite list_lookup_fmap, Hx.
Qed.

Lemma take_rows_elem_of {A} (a : list A) idx xs x :
  take_rows a idx = Ok xs →
  x ∈ xs ↔ ∃ i, i ∈ idx ∧ a !! i = Some x.
Proof.
  intros H%take_rows_Ok. split.
  - intros (k & Hk)%list_elem_of_lookup.
    destruct (Forall2_lookup_r _ _ _ _ _ H Hk) as (i & Hi & Hx).
    exists i. split; [by eapply list_elem_of_lookup_2 | done].
  - intros (i & (k & Hk)%list_elem_of_lookup & Hx).
    destruct (Forall2_lookup_l _ _ _ _ _ H Hk) as (y & Hy & Hx').
    simpl in Hx'. simplify_eq. by eapply list_elem_of_lookup_2.
Qed.

(** ** [np.unique] *)

Lemma elem_of_insert_sorted x y l : y ∈ insert_sorted x l ↔ y = x ∨ y ∈ l.
Proof.
  induction l as [|z l IH]; simpl.
  - rewrite list_elem_of_singleton, elem_of_nil. tauto.
  - destruct (Z.ltb_spec x z); [by rewrite elem_of_cons|].
    destruct (Z.eqb_spec x z) as [->|].
    + rewrite elem_of_cons. tauto.
    + rewrite !elem_of_cons, IH. tauto.
Qed.

Lemma elem_of_np_unique x l : x ∈ np_unique l ↔ x ∈ l.
Proof.
  induction l as [|y l IH]; simpl; [done|].
  by rewrite elem_of_insert_sorted, IH, elem_of_cons.
Qed.

Lemma insert_sorted_sorted x l :
  StronglySorted Z.lt l → StronglySorted Z.lt (insert_sorted x l).
Proof.
  induction 1 as [|z l Hl IH Hz]; simpl.
  - repeat constructor.
  - destruct (Z.ltb_spec x z).
    + constructor; [by constructor|].
      constructor; [done|]. eapply Forall_impl; [done|]. simpl. lia.
    + destruct (Z.eqb_spec x z); [by constructor|].
      constructor; [done|].
      apply Forall_forall. intros y [->|Hy]%elem_of_insert_sorted; [lia|].
      by eapply Forall_forall in Hz.
Qed.

Lemma np_unique_sorted l : StronglySorted Z.lt (np_unique l).
Proof.
  induction l; simpl; [constructor | by apply insert_sorted_sorted].
Qed.

Lemma sorted_lt_NoDup l : StronglySorted Z.lt l → NoDup l.
Proof.
  induction 1 as [|z l Hl IH Hz]; constructor; [|done].
  intros Hin. eapply Forall_forall in Hz; [|done]. lia.
Qed.

Lemma np_unique_NoDup l : NoDup (np_unique l).
Proof. apply sorted_lt_NoDup, np_unique_sorted. Qed.

(** Two arrays with the same set of values have the same [np.unique]. *)
Lemma np_unique_ext l1 l2 :
  (∀ x, x ∈ l1 ↔ x ∈ l2) → np_unique l1 = np_unique l2.
Proof.
  intros Heq. apply (StronglySorted_unique_strong Z.lt).
  - intros; lia.
  - apply np_unique_sorted.
  - apply np_unique_sorted.
  - apply NoDup_Permutation; [apply np_unique_NoDup..|].
    intros x. by rewrite !elem_of_np_unique.
Qed.

Lemma np_unique_inj l1 l2 :
  np_unique l1 = np_unique l2 → ∀ x, x ∈ l1 ↔ x ∈ l2.
Proof.
  intros Heq x.
  by rewrite <-(elem_of_np_unique x l1), <-(elem_of_np_unique x l2), Heq.
Qed.

(** ** The rejection-resampling loop *)

Section ResamplingProps.
Context {rng : Type} (random_choice : rng → nat → nat → list nat * rng).
Context (num_points : nat).

Abbreviation loop := (resample_loop rng random_choice num_points).
Abbreviation resample' := (resample rng random_choice num_points).
Abbreviation draw' := (draw rng random_choice num_points).

(** More fuel does not change the outcome of a loop that has exited. *)
Lemma resample_loop_mono fuel fuel' s before g r :
  loop fuel s before g = Some r → fuel ≤ fuel' → loop fuel' s before g = Some r.
Proof.
  revert fuel' g. induction fuel as [|fuel IH]; intros fuel' g; [done|].
  intros H Hle. destruct fuel' as [|fuel']; [lia|].
  simpl in *.
  destruct (random_sampling _ _ _ _ _) as [[[pc choices] g']|]; [|done].
  destruct (take_rows _ _) as [drawn|]; [|done].
  destruct (array_equal _ _); [done|]. apply IH; [done|lia].
Qed.

(** What holds of the draw the loop exits with. *)
Lemma resample_loop_sound fuel s before g pc choices g' :
  loop fuel s before g = Some (Ok (pc, choices, g')) →
  take_rows (point_cloud s) choices = Ok pc
  ∧ (∃ k, choices = draw' k s g)
  ∧ ∃ drawn, take_rows (instance_labels s) choices = Ok drawn
             ∧ before = np_unique drawn.
Proof.
  revert g. induction fuel as [|fuel IH]; intros g; [done|]. simpl.
  unfold random_sampling.
  destruct (random_choice g _ _) as [c g1] eqn:Hc.
  destruct (take_rows (point_cloud s) c) as [rows|] eqn:Hrows; simpl; [|done].
  destruct (take_rows (instance_labels s) c) as [drawn|] eqn:Hdrawn; [|done].
  destruct (array_equal _ _) eqn:Heq.
  - intros [= <- <- <-]. split; [done|]. split.
    + exists 0. unfold draw; simpl. by rewrite Hc.
    + exists drawn. split; [done|]. by apply bool_decide_eq_true in Heq.
  - intros (? & [k ->] & ?)%IH. split; [done|]. split; [|done].
    exists (S k). unfold draw; simpl. by rewrite Hc.
Qed.

(** A draw that hits every instance id passes the test of line 217. *)
Lemma keeps_ids_unique s choices drawn :
  take_rows (instance_labels s) choices = Ok drawn →
  keeps_ids s choices →
  np_unique (instance_labels s) = np_unique drawn.
Proof.
  intros Hd Hk. apply np_unique_ext. intros x.
  rewrite (take_rows_elem_of _ _ _ x Hd). split; [apply Hk|].
  intros (i & _ & Hi). by eapply list_elem_of_lookup_2.
Qed.

(** The loop exits as soon as some draw hits every instance id. *)
Lemma resample_loop_complete s g k :
  aligned s → sampler_ok random_choice num_points s →
  keeps_ids s (draw' k s g) →
  ∃ fuel r, loop fuel s (np_unique (instance_labels s)) g = Some (Ok r).
Proof.
  intros (_ & _ & Hmeta) Hs. revert g.
  induction k as [|k IH]; intros g Hk.
  - exists 1. simpl. unfold random_sampling, draw in *; simpl in Hk.
    destruct (Hs g) as [_ Hb].
    destruct (random_choice g _ _) as [c g1]; simpl in *.
    destruct (take_rows_total (point_cloud s) c Hb) as [rows ->]; simpl.
    destruct (take_rows_total (instance_labels s) c) as [drawn Hd].
    { unfold instance_labels. by rewrite length_fmap, Hmeta. }
    rewrite Hd. unfold array_equal.
    rewrite bool_decide_eq_true_2 by exact (keeps_ids_unique s c drawn Hd Hk).
    eauto.
  - destruct (Hs g) as [_ Hb]. unfold draw in Hk; simpl in Hk.
    destruct (random_choice g _ _) as [c g1] eqn:Hc; simpl in *.
    destruct (take_rows_total (point_cloud s) c Hb) as [rows Hrows].
    destruct (take_rows_total (instance_labels s) c) as [drawn Hd].
    { unfold instance_labels. by rewrite length_fmap, Hmeta. }
    destruct (array_equal (np_unique (instance_labels s)) (np_unique drawn)) eqn:Heq.
    + exists 1. simpl. unfold random_sampling. rewrite Hc, Hrows; simpl.
      rewrite Hd, Heq. eauto.
    + destruct (IH g1 Hk) as (fuel & r & Hr). exists (S fuel), r. simpl.
      unfold random_sampling. rewrite Hc, Hrows; simpl. by rewrite Hd, Heq.
Qed.
Lemma resample_fuel_irrelevant fuel fuel' s g r r' :
  resample' fuel s g = Some r → resample' fuel' s g = Some r' → r = r'.
Proof.
  unfold resample. intros H H'.
  destruct (loop fuel s _ g) as [x|] eqn:Hx; [|done].
  destruct (loop fuel' s _ g) as [x'|] eqn:Hx'; [|done].
  apply (resample_loop_mono _ (fuel `max` fuel')) in Hx; [|lia].
  apply (resample_loop_mono _ (fuel `max` fuel')) in Hx'; [|lia].
  rewrite Hx in Hx'. injection Hx' as <-.
  destruct x as [[[pc choices] g']|e]; congruence.
Qed.

(** The loop raises nothing on aligned arrays. *)
Lemma resample_loop_no_raise fuel s before g e :
  aligned s → sampler_ok random_choice num_points s →
  loop fuel s before g ≠ Some (Raise e).
Proof.
  intros (_ & _ & Hmeta) Hs. revert g.
  induction fuel as [|fuel IH]; intros g; [done|]. simpl.
  unfold random_sampling. destruct (Hs g) as [_ Hb].
  destruct (random_choice g _ _) as [c g1]; simpl in *.
  destruct (take_rows_total (point_cloud s) c Hb) as [rows ->]; simpl.
  destruct (take_rows_total (instance_labels s) c) as [drawn ->].
  { unfold instance_labels. by rewrite length_fmap, Hmeta. }
  destruct (array_equal _ _); [done|apply IH].
Qed.

(** The draw the loop exits with hits every instance id. *)
Lemma resample_loop_keeps fuel s g pc choices g' :
  loop fuel s (np_unique (instance_labels s)) g = Some (Ok (pc, choices, g')) →
  ∃ k, choices = draw' k s g ∧ keeps_ids s choices.
Proof.
  intros (_ & [k ->] & drawn & Hd & Huniq)%resample_loop_sound.
  exists k. split; [done|]. intros x Hx.
  apply (np_unique_inj _ _ Huniq) in Hx.
  by apply (take_rows_elem_of _ _ _ x Hd) in Hx.
Qed.

Lemma resample_returns s g :
  aligned s → sampler_ok random_choice num_points s →
  (∃ k, keeps_ids s (draw' k s g)) →
  ∃ fuel out g',
    resample' fuel s g = Some (Ok (out, g'))
    ∧ (∀ fuel' r, resample' fuel' s g = Some r → r = Ok (out, g'))
    ∧ sampled_ok num_points out
    ∧ length (s_choices out) = num_points
    ∧ (∀ x, x ∈ s_instance_labels out ↔ x ∈ instance_labels s)
    ∧ gathered_by s out.
Proof.
  intros Hal Hs [k Hk].
  destruct (resample_loop_complete s g k Hal Hs Hk) as (fuel & [[pc c] g'] & Hloop).
  destruct (resample_loop_sound _ _ _ _ _ _ _ Hloop)
    as (Hpc & [k' ->] & drawn & Hdrawn & Huniq).
  destruct Hal as (Hcol & Hpl & Hmeta).
  destruct (Hs (rng_after rng random_choice num_points k' s g)) as [Hlen Hb].
  fold (draw' k' s g) in Hlen, Hb. set (c := draw' k' s g) in *.
  destruct (take_rows_total (meta_vertices s) c) as [mv Hmv]; [by rewrite Hmeta|].
  destruct (take_rows_total (plane_vertices s) c) as [pv Hpv]; [by rewrite Hpl|].
  destruct (take_rows_total (pcl_color s) c) as [col Hc]; [by rewrite Hcol|].
  pose proof (take_rows_fmap m_semantic _ _ _ Hmv) as Hsl.
  assert (resample' fuel s g
          = Some (Ok (Sampled c pc drawn (m_semantic <$> mv) pv mv col, g'))) as Hres.
  { unfold resample. rewrite Hloop, Hdrawn; simpl.
    unfold semantic_labels. by rewrite Hsl, Hpv, Hmv, Hc. }
  eexists fuel, _, g'. split; [exact Hres|].
  split; [intros fuel' r Hr; symmetry; by eapply resample_fuel_irrelevant|].
  split.
  { unfold sampled_ok; simpl.
    rewrite (take_rows_length _ _ _ Hpc), (take_rows_length _ _ _ Hdrawn),
      (take_rows_length _ _ _ Hpv), (take_rows_length _ _ _ Hmv). done. }
  simpl. split; [done|]. split.
  - apply np_unique_inj. by rewrite <-Huniq.
  - intros j i Hj; simpl.
    rewrite (take_rows_lookup _ _ _ _ _ Hpc Hj), (take_rows_lookup _ _ _ _ _ Hdrawn Hj),
      (take_rows_lookup _ _ _ _ _ Hpv Hj), (take_rows_lookup _ _ _ _ _ Hmv Hj),
      (take_rows_lookup _ _ _ _ _ Hc Hj).
    unfold semantic_labels.
    by rewrite (take_rows_lookup _ _ _ _ _ Hsl Hj).
Qed.

Lemma resample_never_returns s g :
  aligned s → sampler_ok random_choice num_points s →
  (∀ k, ¬ keeps_ids s (draw' k s g)) →
  ∀ fuel, resample' fuel s g = None.
Proof.
  intros Hal Hs Hnone fuel. unfold resample.
  destruct (loop fuel s _ g) as [[[[pc c] g']|e]|] eqn:Hloop; [| |done].
  - apply resample_loop_keeps in Hloop as (k & -> & Hk). by destruct (Hnone k).
  - by apply resample_loop_no_raise in Hloop.
Qed.

(** C1 (as amended): for a scene whose arrays are aligned and a seed
    some draw of which hits every instance id, the rejection loop of
    [__getitem__] returns; what it returns does not depend on the fuel,
    has exactly [num_points] points, carries exactly the instance ids of
    the full cloud, and every companion array is indexed by the same
    chosen indices. For a seed no draw of which hits every instance id
    the loop does not return. *)
Theorem resample_keeps_instance_ids s g :
  aligned s → sampler_ok random_choice num_points s →
  ((∃ k, keeps_ids s (draw' k s g)) →
   ∃ fuel out g',
     resample' fuel s g = Some (Ok (out, g'))
     ∧ (∀ fuel' r, resample' fuel' s g = Some r → r = Ok (out, g'))
     ∧ length (s_point_cloud out) = num_points
     ∧ length (s_choices out) = num_points
     ∧ (∀ x, x ∈ s_instance_labels out ↔ x ∈ instance_labels s)
     ∧ gathered_by s out)
  ∧ ((∀ k, ¬ keeps_ids s (draw' k s g)) → ∀ fuel, resample' fuel s g = None).
Proof.
  intros Hal Hs. split; [|by apply resample_never_returns].
  intros Hk.
  destruct (resample_returns s g Hal Hs Hk)
    as (fuel & out & g' & Hres & Hdet & (Hpc & _) & Hc & Hids & Hg).
  by exists fuel, out, g'.
Qed.
End ResamplingProps.

Lemma cycle_choice_ok k s :
  0 < length (point_cloud s) → sampler_ok cycle_choice k s.
Proof.
  intros Hn g. unfold cycle_choice; simpl. split.
  - by rewrite length_fmap, length_seq.
  - apply Forall_fmap, Forall_forall. intros i _; simpl.
    apply Nat.mod_upper_bound. lia.
Qed.

Lemma demo_scene_aligned : aligned demo_scene.
Proof. by repeat split. Qed.

Lemma resample_keeps_instance_ids_witness :
  aligned demo_scene ∧ sampler_ok cycle_choice 2 demo_scene
  ∧ keeps_ids demo_scene (draw nat cycle_choice 2 0 demo_scene 0)
  ∧ ∃ fuel out g',
      resample nat cycle_choice 2 fuel demo_scene 0 = Some (Ok (out, g'))
      ∧ (∀ fuel' r, resample nat cycle_choice 2 fuel' demo_scene 0 = Some r →
                    r = Ok (out, g'))
      ∧ length (s_point_cloud out) = 2
      ∧ length (s_choices out) = 2
      ∧ (∀ x, x ∈ s_instance_labels out ↔ x ∈ instance_labels demo_scene)
      ∧ gathered_by demo_scene out.
Proof.
  assert (sampler_ok cycle_choice 2 demo_scene) as Hs.
  { apply cycle_choice_ok. simpl. lia. }
  assert (keeps_ids demo_scene (draw nat cycle_choice 2 0 demo_scene 0)) as Hk.
  { intros x Hx. vm_compute in Hx.
    apply elem_of_cons in Hx as [->|Hx]; [exists 0; split; [|done]; vm_compute; left|].
    exists 1. split; [vm_compute; right; left|].
    apply elem_of_cons in Hx as [->|Hx]; [done|].
    apply elem_of_cons in Hx as [->|Hx]; [done|]. by apply elem_of_nil in Hx. }
  split; [apply demo_scene_aligned|]. split; [done|]. split; [done|].
  apply (resample_keeps_instance_ids cycle_choice 2 demo_scene 0
           demo_scene_aligned Hs).
  by exists 0.
Defined.

(** One index cannot hit the two instance ids of [demo_scene], whatever
    the generator. *)
Lemma one_point_draw_misses_an_id {rng} (random_choice : rng → nat → nat → list nat * rng) g k :
  sampler_ok random_choice 1 demo_scene →
  ¬ keeps_ids demo_scene (draw rng random_choice 1 k demo_scene g).
Proof.
  intros Hs Hk. unfold draw in Hk.
  destruct (Hs (rng_after rng random_choice 1 k demo_scene g)) as [Hlen _].
  destruct (random_choice _ _ _).1 as [|i [|? ?]]; try done.
  destruct (Hk 1%Z) as (i1 & ->%list_elem_of_singleton & H1); [by left|].
  destruct (Hk 2%Z) as (i2 & ->%list_elem_of_singleton & H2); [by right; left|].
  congruence.
Qed.

(** C1, as stated, fails: with one point drawn from a scene that holds
    two instances no draw can keep both ids, and the loop never
    returns, whatever the fuel. *)
Lemma resample_one_point_never_returns :
  ¬ ∃ fuel r, resample nat cycle_choice 1 fuel demo_scene 0 = Some r.
Proof.
  intros (fuel & r & H).
  assert (sampler_ok cycle_choice 1 demo_scene) as Hs.
  { apply cycle_choice_ok. simpl. lia. }
  rewrite (resample_never_returns cycle_choice 1 demo_scene 0 demo_scene_aligned Hs)
    in H; [done|].
  intros k. by apply one_point_draw_misses_an_id.
Qed.

(** ** Box corners *)

Section GeometryProps.
Local Open Scope R_scope.

Lemma params2bbox_corner center xsize ysize zsize angle bx by_ bz :
  params2bbox center xsize ysize zsize angle !! corner_index bx by_ bz
  = Some (box_corner center xsize ysize zsize angle bx by_ bz).
Proof.
  destruct center as [[cx cy] cz].
  destruct bx, by_, bz; simpl; do 2 f_equal; try f_equal; field.
Qed.

Lemma unit_box_corners :
  params2bbox (0, 0, 0) 2 2 2 0
  = [ (-1, -1, -1); (-1, -1, 1); (-1, 1, -1); (-1, 1, 1);
      (1, -1, -1); (1, -1, 1); (1, 1, -1); (1, 1, 1) ].
Proof.
  unfold params2bbox, vhalf, vsub, vadd.
  rewrite cos_0, sin_0, (Rabs_right 2) by lra.
  repeat (f_equal; try lra).
Qed.

(** C8: the unit box at the origin has the corners (+-1, +-1, +-1) in
    the bit order x, y, z; in general the corner at position
    4 bx + 2 by + bz is the center plus the signed half-extents, the x
    and y axes turned by the heading about z, the z axis not. *)
Theorem params2bbox_corners :
  params2bbox (0, 0, 0) 2 2 2 0
  = [ (-1, -1, -1); (-1, -1, 1); (-1, 1, -1); (-1, 1, 1);
      (1, -1, -1); (1, -1, 1); (1, 1, -1); (1, 1, 1) ]
  ∧ ∀ center xsize ysize zsize angle,
      length (params2bbox center xsize ysize zsize angle) = 8%nat
      ∧ ∀ bx by_ bz,
          params2bbox center xsize ysize zsize angle !! corner_index bx by_ bz
          = Some (box_corner center xsize ysize zsize angle bx by_ bz).
Proof.
  split; [apply unit_box_corners|].
  intros. split; [done|]. intros. apply params2bbox_corner.
Qed.
End GeometryProps.

(** ** Heading classes *)

Section HeadingProps.
Local Open Scope R_scope.
Variable DC : DatasetConfig.
Hypothesis bins_pos : (0 < num_heading_bin DC)%nat.

Lemma angle_per_class_pos : 0 < angle_per_class DC.
Proof.
  unfold angle_per_class. apply Rdiv_lt_0_compat.
  - pose proof PI_RGT_0. lra.
  - by apply lt_0_INR.
Qed.

Lemma bins_span : INR (num_heading_bin DC) * angle_per_class DC = 2 * PI.
Proof.
  unfold angle_per_class. field. apply not_0_INR. lia.
Qed.

(** The class is the sector (-pi + c w, -pi + (c+1) w] that holds the
    angle. *)
Lemma angle2class2_sector a :
  let c := (angle2class2 DC a).1 in
  - PI + IZR c * angle_per_class DC < a <= - PI + (IZR c + 1) * angle_per_class DC.
Proof.
  simpl. pose proof angle_per_class_pos as Hw.
  set (w := angle_per_class DC) in *. set (t := (a + PI) / w).
  destruct (archimed (- t)) as [H1 H2]. rewrite opp_IZR.
  assert (a + PI = t * w) as Ht by (unfold t; field; lra).
  split; nra.
Qed.

Lemma angle2class2_range a :
  - PI < a <= PI →
  (0 <= (angle2class2 DC a).1 < Z.of_nat (num_heading_bin DC))%Z.
Proof.
  intros [Hlo Hhi]. pose proof (angle2class2_sector a) as [H1 H2].
  pose proof angle_per_class_pos as Hw. pose proof bins_span as Hspan.
  set (c := (angle2class2 DC a).1) in *. simpl in H1, H2.
  split.
  - assert (IZR (-1) < IZR c) as ?%lt_IZR; [|lia].
    replace (IZR (-1)) with (-1) by done. nra.
  - apply lt_IZR. rewrite <-INR_IZR_INZ. nra.
Qed.

Lemma class2angle2_angle2class2 a :
  class2angle2 DC (angle2class2 DC a).1 (angle2class2 DC a).2 = a.
Proof. unfold class2angle2, angle2class2; simpl. ring. Qed.

Lemma heading_assert_passes a :
  Rabs (class2angle2 DC (angle2class2 DC a).1 (angle2class2 DC a).2 - a) < 1 / 1000000.
Proof.
  rewrite class2angle2_angle2class2.
  replace (a - a) with 0 by ring. rewrite Rabs_R0. lra.
Qed.

Lemma heading_loop_total rows : ∀ i classes resid,
  (i + length rows ≤ length classes)%nat → length resid = length classes →
  ∃ out, heading_loop DC i rows classes resid = Ok out
         ∧ length out.1 = length classes ∧ length out.2 = length classes
         ∧ (∀ j, (j < i ∨ i + length rows ≤ j)%nat →
                 out.1 !! j = classes !! j ∧ out.2 !! j = resid !! j)
         ∧ (∀ k m, rows !! k = Some m →
                 out.1 !! (i + k)%nat = Some (angle2class2 DC (m_heading m)).1
                 ∧ out.2 !! (i + k)%nat = Some (angle2class2 DC (m_heading m)).2).
Proof.
  induction rows as [|m rows IH]; intros i classes resid Hi Hlen.
  - simpl. eexists. split; [done|]. simpl. repeat split; done.
  - cbn [heading_loop].
    pose proof (heading_assert_passes (m_heading m)) as Hassert.
    destruct (angle2class2 DC (m_heading m)) as [c r] eqn:Hcr; simpl in Hassert.
    simpl in Hi. unfold fill_rows, in_bounds; simpl.
    rewrite !andb_true_r.
    destruct (Nat.ltb_spec i (length classes)); [|lia].
    destruct (Nat.ltb_spec i (length resid)); [|lia]. simpl.
    destruct (Rlt_dec _ _); [|done].
    destruct (IH (S i) (<[i:=c]> classes) (<[i:=r]> resid))
      as (out & Hout & Hl1 & Hl2 & Hframe & Hrows).
    { rewrite length_insert. lia. }
    { by rewrite !length_insert. }
    rewrite length_insert in Hl1, Hl2.
    exists out. split; [done|]. split; [done|]. split; [done|]. split.
    + intros j Hj. destruct (Hframe j) as [-> ->]; [lia|].
      rewrite !list_lookup_insert_ne by lia. done.
    + intros [|k] m' Hk; simpl in Hk.
      * injection Hk as <-. rewrite Nat.add_0_r.
        destruct (Hframe i) as [-> ->]; [lia|].
        rewrite !list_lookup_insert_eq by lia.
        by injection Hcr as <- <-.
      * replace (i + S k)%nat with (S i + k)%nat by lia. by apply Hrows.
Qed.

(** C2: for a heading in (-pi, pi], [angle2class2] yields a class among
    the configured bins and a residual within half a sector, and
    [class2angle2] gives the heading back within 1e-6; so the assertion
    of line 442 holds for every row and the loop of lines 438-442
    finishes. *)
Theorem heading_round_trip a :
  - PI < a <= PI →
  let '(c, r) := angle2class2 DC a in
  (0 <= c < Z.of_nat (num_heading_bin DC))%Z
  ∧ Rabs r <= angle_per_class DC / 2
  ∧ Rabs (class2angle2 DC c r - a) < 1 / 1000000
  ∧ ∀ rows, Forall (λ m, - PI < m_heading m <= PI) rows →
      (length rows ≤ MAX_NUM_OBJ)%nat →
      ∃ out, heading_loop DC 0 rows (replicate MAX_NUM_OBJ 0%Z)
               (replicate MAX_NUM_OBJ 0) = Ok out.
Proof.
  intros Ha. pose proof (angle2class2_range a Ha) as Hrange.
  pose proof (angle2class2_sector a) as Hsec.
  pose proof (heading_assert_passes a) as Hassert.
  destruct (angle2class2 DC a) as [c r] eqn:Hcr. simpl in *.
  split; [done|]. split; [|split; [done|]].
  - injection Hcr as Hc <-. rewrite Hc. unfold sector_center.
    apply Rabs_le. lra.
  - intros rows _ Hlen.
    destruct (heading_loop_total rows 0%nat (replicate MAX_NUM_OBJ 0%Z)
                (replicate MAX_NUM_OBJ 0)) as (out & Hout & _).
    + rewrite length_replicate. simpl. lia.
    + by rewrite !length_replicate.
    + by exists out.
Qed.
End HeadingProps.

(** ** Indexed writes *)

Lemma in_bounds_Forall {A} (a : list A) idx :
  in_bounds a idx = true ↔ Forall (λ i, i < length a) idx.
Proof.
  unfold in_bounds. induction idx as [|i idx IH]; simpl.
  - split; [constructor|done].
  - rewrite andb_true_iff, IH, Forall_cons, Nat.ltb_lt. done.
Qed.

Lemma length_fill {A} (a : list A) idx v : length (fill a idx v) = length a.
Proof.
  induction idx as [|i idx IH]; simpl; [done|]. by rewrite length_insert.
Qed.

Lemma fill_lookup_elem {A} (a : list A) idx v j :
  j ∈ idx → j < length a → fill a idx v !! j = Some v.
Proof.
  intros Hj Hlt. induction idx as [|i idx IH]; simpl.
  - by apply elem_of_nil in Hj.
  - destruct (decide (i = j)) as [->|Hne].
    + apply list_lookup_insert_eq. by rewrite length_fill.
    + rewrite list_lookup_insert_ne by done.
      apply elem_of_cons in Hj as [->|Hj]; [done|]. by apply IH.
Qed.

Lemma fill_lookup_not_elem {A} (a : list A) idx v j :
  j ∉ idx → fill a idx v !! j = a !! j.
Proof.
  intros Hj. induction idx as [|i idx IH]; simpl; [done|].
  apply not_elem_of_cons in Hj as [Hne Hj].
  rewrite list_lookup_insert_ne by done. by apply IH.
Qed.

Lemma fill_rows_spec {A} (a : list A) idx v :
  Forall (λ i, i < length a) idx →
  ∃ a', fill_rows a idx v = Ok a'
        ∧ length a' = length a
        ∧ (∀ j, j ∈ idx → a' !! j = Some v)
        ∧ (∀ j, j ∉ idx → a' !! j = a !! j).
Proof.
  intros Hb. exists (fill a idx v). unfold fill_rows.
  rewrite (proj2 (in_bounds_Forall a idx) Hb).
  split; [done|]. split; [apply length_fill|]. split.
  - intros j Hj. apply fill_lookup_elem; [done|].
    by eapply Forall_forall in Hb.
  - intros j Hj. by apply fill_lookup_not_elem.
Qed.

Lemma length_scatter {A} (a : list A) idx vs : length (scatter a idx vs) = length a.
Proof.
  revert a vs. induction idx as [|i idx IH]; intros a [|v vs]; simpl; try done.
  by rewrite IH, length_insert.
Qed.

Lemma scatter_lookup_not_elem {A} (a : list A) idx vs j :
  j ∉ idx → scatter a idx vs !! j = a !! j.
Proof.
  revert a vs. induction idx as [|i idx IH]; intros a [|v vs] Hj; simpl; try done.
  apply not_elem_of_cons in Hj as [Hne Hj].
  rewrite IH by done. by apply list_lookup_insert_ne.
Qed.

Lemma scatter_lookup {A} (a : list A) idx vs k j :
  NoDup idx → Forall (λ i, i < length a) idx →
  idx !! k = Some j → k < length vs → scatter a idx vs !! j = vs !! k.
Proof.
  revert a vs k. induction idx as [|i idx IH]; intros a [|v vs] k Hnd Hb Hk Hlt;
    simpl in *; try done; try lia.
  apply NoDup_cons in Hnd as [Hi Hnd]. apply Forall_cons in Hb as [Hia Hb].
  destruct k as [|k]; simpl in *.
  - injection Hk as ->. rewrite scatter_lookup_not_elem by done.
    by apply list_lookup_insert_eq.
  - apply IH; [done| |done|lia].
    eapply Forall_impl; [done|]. intros ??; simpl. by rewrite length_insert.
Qed.

Lemma put_rows_spec {A} (a : list A) idx vs :
  NoDup idx → Forall (λ i, i < length a) idx → length vs = length idx →
  ∃ a', put_rows a idx vs = Ok a'
        ∧ length a' = length a
        ∧ (∀ k j, idx !! k = Some j → a' !! j = vs !! k)
        ∧ (∀ j, j ∉ idx → a' !! j = a !! j).
Proof.
  intros Hnd Hb Hlen. exists (scatter a idx vs). unfold put_rows.
  rewrite (proj2 (in_bounds_Forall a idx) Hb), Hlen, Nat.eqb_refl.
  split; [done|]. split; [apply length_scatter|]. split.
  - intros k j Hk. apply scatter_lookup; [done..|].
    rewrite Hlen. by eapply lookup_lt_Some.
  - intros j Hj. by apply scatter_lookup_not_elem.
Qed.

(** ** [np.where] *)

Lemma elem_of_where_from k l v j :
  j ∈ where_from k l v ↔ k ≤ j ∧ l !! (j - k) = Some v.
Proof.
  revert k. induction l as [|y l IH]; intros k; simpl.
  - rewrite elem_of_nil. split; [done|]. by intros [_ ?].
  - assert (j ∈ where_from (S k) l v ↔ k < j ∧ (y :: l) !! (j - k) = Some v) as Hrec.
    { rewrite IH. split.
      - intros [Hle Hl]. split; [lia|].
        by replace (j - k) with (S (j - S k)) by lia.
      - intros [Hlt Hl]. split; [lia|].
        by replace (j - k) with (S (j - S k)) in Hl by lia. }
    destruct (Z.eqb_spec y v) as [->|Hne].
    + rewrite elem_of_cons, Hrec. split.
      * intros [->|[? ?]]; [|split; [lia|done]].
        split; [lia|]. by rewrite Nat.sub_diag.
      * intros [Hle Hl]. destruct (decide (j = k)) as [->|]; [by left|].
        right. split; [lia|done].
    + rewrite Hrec. split.
      * intros [? ?]. split; [lia|done].
      * intros [Hle Hl]. destruct (decide (j = k)) as [->|]; [|split; [lia|done]].
        rewrite Nat.sub_diag in Hl. simpl in Hl. congruence.
Qed.

Lemma elem_of_np_where_eq l v j : j ∈ np_where_eq l v ↔ l !! j = Some v.
Proof.
  unfold np_where_eq. rewrite elem_of_where_from, Nat.sub_0_r.
  split; [by intros [_ ?]|]. split; [lia|done].
Qed.

Lemma where_from_NoDup k l v : NoDup (where_from k l v).
Proof.
  revert k. induction l as [|y l IH]; intros k; simpl; [constructor|].
  destruct (y =? v)%Z; [|apply IH].
  constructor; [|apply IH]. rewrite elem_of_where_from. lia.
Qed.

Lemma np_where_eq_NoDup l v : NoDup (np_where_eq l v).
Proof. apply where_from_NoDup. Qed.

Lemma np_where_eq_bound l v : Forall (λ j, j < length l) (np_where_eq l v).
Proof.
  apply Forall_forall. intros j Hj%elem_of_np_where_eq.
  by eapply lookup_lt_Some.
Qed.

Lemma np_where_eq_head l v :
  v ∈ l → ∃ i0, getitem (np_where_eq l v) 0 = Ok i0 ∧ l !! i0 = Some v.
Proof.
  intros (j & Hj%elem_of_np_where_eq)%list_elem_of_lookup.
  destruct (np_where_eq l v) as [|i0 rest] eqn:Hw; [by apply elem_of_nil in Hj|].
  exists i0. split; [done|]. apply elem_of_np_where_eq. rewrite Hw. by left.
Qed.

(** ** Plane-patch groups *)

Lemma where_from_length_filter {A} (f : A → option Z) (ind : list A) ys p k :
  Forall2 (λ j y, f j = Some y) ind ys →
  length (where_from k ys p) = length (filter (λ j, f j = Some p) ind).
Proof.
  intros H. revert k. induction H as [|j y ind ys Hj _ IH]; intros k; simpl; [done|].
  rewrite filter_cons. destruct (Z.eqb_spec y p) as [->|Hne].
  - rewrite decide_True by done. simpl. by rewrite IH.
  - rewrite decide_False by congruence. apply IH.
Qed.

Section PatchGroups.
Variables (ind : list nat) (plane_indicator : list Z).
Hypothesis Hlen : length plane_indicator = length ind.

(** The patches kept are those with a positive id found on more than
    10 rows; a kept patch contributes the points on those rows. *)
Lemma patch_groups_spec planes :
  ∃ groups, patch_groups ind plane_indicator planes = Ok groups
    ∧ ∀ j, j ∈ concat groups ↔
           ∃ p k, p ∈ planes ∧ (0 < p)%Z
                  ∧ 10 < length (np_where_eq plane_indicator p)
                  ∧ plane_indicator !! k = Some p ∧ ind !! k = Some j.
Proof.
  induction planes as [|p planes (groups & IH & Hspec)]; simpl.
  - exists []. split; [done|]. intros j. simpl.
    rewrite elem_of_nil. split; [done|].
    intros (p & k & Hp & _). by apply elem_of_nil in Hp.
  - assert (∀ j, j ∈ concat groups →
              ∃ q k, q ∈ p :: planes ∧ (0 < q)%Z
                     ∧ 10 < length (np_where_eq plane_indicator q)
                     ∧ plane_indicator !! k = Some q ∧ ind !! k = Some j) as Hold.
    { intros j (q & k & Hq & ?)%Hspec. exists q, k. rewrite elem_of_cons. tauto. }
    destruct (Z.ltb_spec 0 p) as [Hpos|Hneg];
      [destruct (Nat.ltb_spec 10 (length (np_where_eq plane_indicator p)))
         as [Hbig|Hsmall]|].
    + destruct (take_rows_total ind (np_where_eq plane_indicator p)) as [g Hg].
      { rewrite <-Hlen. apply np_where_eq_bound. }
      rewrite Hg, IH. simpl. exists (g :: groups). split; [done|].
      intros j. simpl. rewrite elem_of_app, (take_rows_elem_of _ _ _ j Hg).
      split.
      * intros [(k & Hk%elem_of_np_where_eq & Hj)|Hj]; [|by apply Hold].
        exists p, k. rewrite elem_of_cons. tauto.
      * intros (q & k & [->|Hq]%elem_of_cons & Hpos' & Hbig' & Hk & Hj).
        -- left. exists k. by rewrite elem_of_np_where_eq.
        -- right. apply Hspec. exists q, k. tauto.
    + exists groups. split; [done|]. intros j. split; [apply Hold|].
      intros (q & k & [->|Hq]%elem_of_cons & Hpos' & Hbig' & ?); [lia|].
      apply Hspec. exists q, k. tauto.
    + exists groups. split; [done|]. intros j. split; [apply Hold|].
      intros (q & k & [->|Hq]%elem_of_cons & Hpos' & Hbig' & ?); [lia|].
      apply Hspec. exists q, k. tauto.
Qed.
End PatchGroups.

(** ** [np.argmin] and the corner votes *)

Section ArgminProps.
Local Open Scope R_scope.

Lemma argmin_from_spec l : ∀ best besti k,
  (besti < k)%nat →
  ∃ v, (argmin_from best besti k l = besti ∧ v = best
        ∨ (k ≤ argmin_from best besti k l)%nat
          ∧ l !! (argmin_from best besti k l - k)%nat = Some v ∧ v < best)
       ∧ (∀ i y, l !! i = Some y → v <= y)
       ∧ (∀ i y, l !! i = Some y →
                 (k + i < argmin_from best besti k l)%nat → v < y).
Proof.
  induction l as [|y t IH]; intros best besti k Hk; simpl.
  - exists best. split; [by left|]. split; [done|]. intros; lia.
  - destruct (Rlt_dec y best) as [Hlt|Hge].
    + destruct (IH y k (S k)) as (v & Hv & Hmin & Hfirst); [lia|].
      set (r := argmin_from y k (S k) t) in *.
      exists v. split; [right|split].
      * destruct Hv as [[-> ->]|(Hr & Hl & Hvy)].
        -- rewrite Nat.sub_diag. by repeat split.
        -- split; [lia|]. split; [|lra].
           by replace (r - k)%nat with (S (r - S k)) by lia.
      * intros [|i] z Hz; simpl in Hz; [|by eapply Hmin].
        injection Hz as <-. destruct Hv as [[_ ->]|(_ & _ & ?)]; lra.
      * intros [|i] z Hz Hi; simpl in Hz.
        -- injection Hz as <-. destruct Hv as [[? _]|(_ & _ & ?)]; [lia|lra].
        -- eapply Hfirst; [done|lia].
    + destruct (IH best besti (S k)) as (v & Hv & Hmin & Hfirst); [lia|].
      set (r := argmin_from best besti (S k) t) in *.
      exists v. split; [|split].
      * destruct Hv as [[? ?]|(Hr & Hl & Hvy)]; [by left|right].
        split; [lia|]. split; [|done].
        by replace (r - k)%nat with (S (r - S k)) by lia.
      * intros [|i] z Hz; simpl in Hz; [|by eapply Hmin].
        injection Hz as <-. destruct Hv as [[_ ->]|(_ & _ & ?)]; lra.
      * intros [|i] z Hz Hi; simpl in Hz.
        -- injection Hz as <-. destruct Hv as [[? _]|(_ & _ & ?)]; [lia|lra].
        -- eapply Hfirst; [done|lia].
Qed.

(** [argmin] returns the first position of the least element. *)
Lemma argmin_spec l :
  l ≠ [] →
  ∃ v, l !! argmin l = Some v
       ∧ (∀ i y, l !! i = Some y → v <= y)
       ∧ (∀ i y, l !! i = Some y → (i < argmin l)%nat → v < y).
Proof.
  destruct l as [|y t]; [done|]. intros _. simpl.
  destruct (argmin_from_spec t y 0%nat 1%nat) as (v & Hv & Hmin & Hfirst); [lia|].
  set (r := argmin_from y 0 1 t) in *.
  exists v. split; [|split].
  - destruct Hv as [[-> ->]|(Hr & Hl & _)]; [done|].
    by replace r with (S (r - 1)) by lia.
  - intros [|i] z Hz; simpl in Hz; [|by eapply Hmin].
    injection Hz as <-. destruct Hv as [[_ ->]|(_ & _ & ?)]; lra.
  - intros [|i] z Hz Hi; simpl in Hz.
    + injection Hz as <-. destruct Hv as [[? _]|(_ & _ & ?)]; [lia|lra].
    + eapply Hfirst; [done|lia].
Qed.

Lemma argmin_lt l : l ≠ [] → (argmin l < length l)%nat.
Proof.
  intros (v & Hv & _)%argmin_spec. by eapply lookup_lt_Some.
Qed.

Lemma corner_vote_loop_spec corners ind : ∀ votes x,
  corners ≠ [] → NoDup ind → Forall (λ j, (j < length votes)%nat) ind →
  length x = length ind →
  ∃ votes', corner_vote_loop corners votes ind (sel_corner corners x) x = Ok votes'
    ∧ length votes' = length votes
    ∧ (∀ j, j ∉ ind → votes' !! j = votes !! j)
    ∧ (∀ k j p, ind !! k = Some j → x !! k = Some p →
         ∃ c, corners !! argmin ((λ c, sqdist p c) <$> corners) = Some c
              ∧ votes' !! j = Some (vsub c p)).
Proof.
  induction ind as [|j ind IH]; intros votes x Hne Hnd Hb Hlen.
  - exists votes. destruct x; [|done]. by repeat split.
  - destruct x as [|p x]; [done|]. simpl.
    apply NoDup_cons in Hnd as [Hj Hnd]. apply Forall_cons in Hb as [Hjb Hb].
    assert (argmin ((λ c, sqdist p c) <$> corners) < length corners)%nat as Hsel.
    { rewrite <-(length_fmap (λ c, sqdist p c)). apply argmin_lt.
      by destruct corners. }
    destruct (getitem_lt corners _ Hsel) as [c Hc]. rewrite Hc. simpl.
    unfold fill_rows, in_bounds. simpl.
    destruct (Nat.ltb_spec j (length votes)); [|lia]. simpl.
    destruct (IH (<[j:=vsub c p]> votes) x) as (votes' & Hloop & Hl & Hout & Hin);
      [done|done| |by injection Hlen|].
    { eapply Forall_impl; [done|]. intros ??; simpl. by rewrite length_insert. }
    exists votes'. split; [done|]. rewrite length_insert in Hl.
    split; [done|]. split.
    + intros j' [Hne' Hj']%not_elem_of_cons. rewrite Hout by done.
      by apply list_lookup_insert_ne.
    + intros [|k] j' p' Hk Hp; simpl in *.
      * injection Hk as <-. injection Hp as <-.
        exists c. split; [by apply getitem_Ok|].
        rewrite Hout by done. by apply list_lookup_insert_eq.
      * by eapply Hin.
Qed.
End ArgminProps.

(** ** The plane labels of one instance *)

Section PlaneProps.
Variable leastsq : (plane → list R) → plane → plane.

Lemma face_planes_total corners :
  length corners = 8 → ∃ f, face_planes leastsq corners = Ok f.
Proof.
  intros Hlen. do 8 (destruct corners as [|? corners]; [done|]).
  destruct corners; [|done]. by eexists.
Qed.

(** The lower, left and front planes are fitted to their 4 corners;
    the planes of the opposite faces are not: each takes the normal of
    the fitted face and an offset computed from its own 4 corners. *)
Lemma face_planes_inv corners f :
  face_planes leastsq corners = Ok f →
  ∃ lower_pts upper_pts left_pts right_pts front_pts back_pts,
    take_rows corners [0; 2; 4; 6] = Ok lower_pts
    ∧ take_rows corners [1; 3; 5; 7] = Ok upper_pts
    ∧ take_rows corners [0; 1; 2; 3] = Ok left_pts
    ∧ take_rows corners [4; 5; 6; 7] = Ok right_pts
    ∧ take_rows corners [0; 1; 4; 5] = Ok front_pts
    ∧ take_rows corners [2; 3; 6; 7] = Ok back_pts
    ∧ plane_lower f = leastsq (λ p, residuals p lower_pts) (Plane (0, 0, 1) 0)%R
    ∧ plane_upper f = parallel_plane (plane_lower f) upper_pts
    ∧ plane_left f = leastsq (λ p, residuals p left_pts) (Plane (1, 0, 0) 0)%R
    ∧ plane_right f = parallel_plane (plane_left f) right_pts
    ∧ plane_front f = leastsq (λ p, residuals p front_pts) (Plane (0, 1, 0) 0)%R
    ∧ plane_back f = parallel_plane (plane_front f) back_pts.
Proof.
  unfold face_planes. intros H.
  apply bind_Ok in H as (lower_pts & Hlo & H).
  apply bind_Ok in H as (upper_pts & Hu & H).
  apply bind_Ok in H as (left_pts & Hl & H).
  apply bind_Ok in H as (right_pts & Hr & H).
  apply bind_Ok in H as (front_pts & Hf & H).
  apply bind_Ok in H as (back_pts & Hb & H).
  injection H as <-.
  by exists lower_pts, upper_pts, left_pts, right_pts, front_pts, back_pts.
Qed.

Variables (s : sampled) (i : Z) (n : nat).
Hypothesis Hpv : length (s_plane_vertices s) = n.
Hypothesis Hil : length (s_instance_labels s) = n.

Lemma members_bound : Forall (λ j, j < n) (members s i).
Proof. rewrite <-Hil. apply np_where_eq_bound. Qed.

(** The points the kept patches contribute are the member points that
    [plane_labelled] names. *)
Lemma kept_points rows groups :
  take_rows (s_plane_vertices s) (members s i) = Ok rows →
  patch_groups (members s i) (patch_id <$> rows) (np_unique (patch_id <$> rows))
    = Ok groups →
  ∀ j, j ∈ concat groups ↔ j ∈ members s i ∧ plane_labelled s i j = true.
Proof.
  intros Hrows Hgroups j.
  assert (length (patch_id <$> rows) = length (members s i)) as Hlen.
  { rewrite length_fmap. by eapply take_rows_length. }
  destruct (patch_groups_spec _ _ Hlen (np_unique (patch_id <$> rows)))
    as (groups' & Hg & Hspec).
  rewrite Hgroups in Hg. injection Hg as <-. rewrite Hspec. clear Hspec Hgroups.
  apply take_rows_Ok in Hrows.
  assert (Forall2 (λ j y, patch_id <$> s_plane_vertices s !! j = Some y)
            (members s i) (patch_id <$> rows)) as Hal.
  { apply Forall2_fmap_r. eapply Forall2_impl; [done|].
    intros ?? ->. done. }
  assert (∀ p, length (np_where_eq (patch_id <$> rows) p)
               = length (patch_members s i p)) as Hcount.
  { intros p. unfold np_where_eq, patch_members.
    by rewrite (where_from_length_filter _ _ _ p 0 Hal). }
  unfold plane_labelled. split.
  - intros (p & k & _ & Hpos & Hbig & Hk & Hj).
    split; [by eapply list_elem_of_lookup_2|].
    destruct (Forall2_lookup_l _ _ _ _ _ Hal Hj) as (y & Hy & Hrow).
    simpl in Hrow. rewrite Hk in Hy. injection Hy as <-.
    destruct (s_plane_vertices s !! j) as [row|]; [|done].
    injection Hrow as ->. rewrite Hcount in Hbig.
    apply andb_true_iff. split; [by apply Z.ltb_lt | by apply Nat.ltb_lt].
  - intros [(k & Hk)%list_elem_of_lookup Hlab].
    destruct (Forall2_lookup_l _ _ _ _ _ Hal Hk) as (y & Hy & Hrow).
    simpl in Hrow.
    destruct (s_plane_vertices s !! j) as [row|]; [|done].
    injection Hrow as <-.
    apply andb_true_iff in Hlab as [Hpos%Z.ltb_lt Hbig%Nat.ltb_lt].
    exists (patch_id row), k. rewrite Hcount.
    split; [|done]. apply elem_of_np_unique. by eapply list_elem_of_lookup_2.
Qed.

Lemma label_planes_spec corners st :
  sizes n st → length corners = 8 →
  ∃ st' f,
    label_planes leastsq s (members s i) corners st = Ok st'
    ∧ face_planes leastsq corners = Ok f
    ∧ sizes n st'
    ∧ point_votes st' = point_votes st
    ∧ point_votes_corner st' = point_votes_corner st
    ∧ point_votes_mask st' = point_votes_mask st
    ∧ point_sem_label st' = point_sem_label st
    ∧ obj_meta st' = obj_meta st
    ∧ (∀ j, j ∈ members s i → plane_labelled s i j = true → planes_are st' j 1 f)
    ∧ (∀ j, ¬ (j ∈ members s i ∧ plane_labelled s i j = true) → same_planes st st' j).
Proof.
  intros Hsz Hc. destruct (face_planes_total corners Hc) as [f Hf].
  pose proof members_bound as Hb.
  destruct (take_rows_total (s_plane_vertices s) (members s i)) as [rows Hrows];
    [by rewrite Hpv|].
  assert (length (patch_id <$> rows) = length (members s i)) as Hlen.
  { rewrite length_fmap. by eapply take_rows_length. }
  destruct (patch_groups_spec _ _ Hlen (np_unique (patch_id <$> rows)))
    as (groups & Hg & _).
  pose proof (kept_points rows groups Hrows Hg) as Hkept.
  unfold label_planes. rewrite Hrows. simpl. rewrite Hg. simpl.
  destruct (Nat.ltb_spec 0 (length groups)) as [Hsome|Hnone].
  - assert (∀ m, m = n → Forall (λ j, j < m) (concat groups)) as Hbg.
    { intros m ->. apply Forall_forall. intros j [Hj _]%Hkept.
      by eapply Forall_forall in Hb. }
    destruct Hsz as (? & ? & ? & ? & Hm & Hfr & Hbk & Hlf & Hrt & Hup & Hlo).
    destruct (fill_rows_spec (plane_label_mask st) (concat groups) 1%Z (Hbg _ Hm))
      as (mask & -> & ? & Hmask1 & Hmask0).
    simpl. rewrite Hf. simpl.
    destruct (fill_rows_spec (plane_votes_upper st) (concat groups) (plane_upper f)
                (Hbg _ Hup)) as (upper & -> & ? & Hup1 & Hup0). simpl.
    destruct (fill_rows_spec (plane_votes_lower st) (concat groups) (plane_lower f)
                (Hbg _ Hlo)) as (lower & -> & ? & Hlo1 & Hlo0). simpl.
    destruct (fill_rows_spec (plane_votes_front st) (concat groups) (plane_front f)
                (Hbg _ Hfr)) as (front & -> & ? & Hfr1 & Hfr0). simpl.
    destruct (fill_rows_spec (plane_votes_back st) (concat groups) (plane_back f)
                (Hbg _ Hbk)) as (back & -> & ? & Hbk1 & Hbk0). simpl.
    destruct (fill_rows_spec (plane_votes_left st) (concat groups) (plane_left f)
                (Hbg _ Hlf)) as (left & -> & ? & Hlf1 & Hlf0). simpl.
    destruct (fill_rows_spec (plane_votes_right st) (concat groups) (plane_right f)
                (Hbg _ Hrt)) as (right & -> & ? & Hrt1 & Hrt0). simpl.
    eexists _, f. split; [done|]. split; [done|].
    split; [unfold sizes; simpl; repeat split; congruence|].
    do 5 (split; [done|]). split.
    + intros j Hj Hlab. assert (j ∈ concat groups) as Hin by (apply Hkept; tauto).
      unfold planes_are; simpl. repeat split; auto.
    + intros j Hj. assert (j ∉ concat groups) as Hin by (by rewrite Hkept).
      unfold same_planes; simpl. repeat split; auto.
  - exists st, f. split; [done|]. split; [done|]. split; [done|].
    do 5 (split; [done|]). split.
    + intros j Hj Hlab. assert (j ∈ concat groups) as Hin by (apply Hkept; tauto).
      destruct groups; [by apply elem_of_nil in Hin | simpl in Hnone; lia].
    + intros j _. by repeat split.
Qed.
End PlaneProps.

(** ** One pass of the instance loop *)

Section InstanceProps.
Variable DC : DatasetConfig.
Variable leastsq : (plane → list R) → plane → plane.
Variables (s : sampled) (n : nat).
Hypothesis Hs : sampled_ok n s.
Hypothesis HDC : config_ok DC.

Lemma same_rows_refl st j : same_votes st st j ∧ same_planes st st j.
Proof. by repeat split. Qed.

Lemma label_instance_spec st i :
  sizes n st → i ∈ s_instance_labels s →
  ∃ st', label_instance DC leastsq s st i = Ok st'
    ∧ sizes n st'
    ∧ obj_meta st' = obj_meta st ++ option_list (retained_meta DC s i)
    ∧ (∀ j, s_instance_labels s !! j ≠ Some i →
            same_votes st st' j ∧ same_planes st st' j)
    ∧ (∀ j, s_instance_labels s !! j = Some i → untouched st j →
            settled DC leastsq s st' j i).
Proof.
  intros Hsz Hi. destruct Hs as (Hpc & Hil & Hpv & Hmv & Hsl).
  destruct (np_where_eq_head _ _ Hi) as (i0 & Hhead & Hi0).
  unfold label_instance, settled, retained_meta. fold (members s i) in *.
  rewrite Hhead. simpl.
  apply getitem_Ok in Hhead. rewrite <-head_lookup in Hhead. rewrite Hhead. simpl.
  assert (i0 < n) as Hi0n by (rewrite <-Hil; by eapply lookup_lt_Some).
  destruct (lookup_lt_is_Some_2 (s_meta_vertices s) i0) as [meta Hmeta]; [lia|].
  assert (s_semantic_labels s !! i0 = Some (m_semantic meta)) as Hsem.
  { by rewrite Hsl, list_lookup_fmap, Hmeta. }
  rewrite (proj2 (getitem_Ok _ _ _) Hsem), Hsem. simpl.
  destruct (bool_decide_reflect (m_semantic meta ∈ nyu40ids DC)) as [Hvalid|Hinvalid].
  2:{ exists st. split; [done|]. split; [done|].
      split; [by rewrite app_nil_r|]. split; [intros; apply same_rows_refl|done]. }
  pose proof (members_bound s i n Hil) as Hb.
  pose proof (np_where_eq_NoDup (s_instance_labels s) i) as Hnd.
  fold (members s i) in Hnd.
  destruct (take_rows_total (s_point_cloud s) (members s i)) as [x Hx];
    [by rewrite Hpc|].
  rewrite Hx. simpl. rewrite (proj2 (getitem_Ok _ _ _) Hmeta), Hmeta. simpl.
  destruct Hsz as (Hv & Hcv & Hm & Hsem' & Hplanes).
  destruct (put_rows_spec (point_votes st) (members s i)
              ((λ p, vsub (m_center meta) p) <$> x))
    as (votes & -> & Hvl & Hvin & Hvout); [done|by rewrite Hv| |].
  { rewrite length_fmap. by eapply take_rows_length. }
  simpl.
  destruct (fill_rows_spec (point_votes_mask st) (members s i) 1%Z)
    as (mask & -> & Hml & Hmin & Hmout); [by rewrite Hm|]. simpl.
  destruct (HDC _ Hvalid) as [cls Hcls]. unfold dict_get. rewrite Hcls. simpl.
  destruct (fill_rows_spec (point_sem_label st) (members s i) cls)
    as (sem_label & -> & Hsl' & Hsin & Hsout); [by rewrite Hsem'|]. simpl.
  fold (instance_corners meta).
  destruct (corner_vote_loop_spec (instance_corners meta) (members s i)
              (point_votes_corner st) x)
    as (cvotes & -> & Hcl & Hcout & Hcin);
    [done|done|by rewrite Hcv|by eapply take_rows_length|]. simpl.
  match goal with |- ∃ st', label_planes _ _ _ _ ?t = _ ∧ _ => set (st1 := t) end.
  destruct (label_planes_spec leastsq s i n Hpv Hil (instance_corners meta) st1)
    as (st' & f & Hlp & Hf & Hsz' & Hpv' & Hpcv' & Hpm' & Hps' & Hom' & Hlab & Hunlab).
  { unfold sizes, st1; simpl. repeat split; try congruence; tauto. }
  { done. }
  exists st'. split; [done|]. split; [done|]. split; [by rewrite Hom'|]. split.
  - intros j Hj. assert (j ∉ members s i) as Hout.
    { unfold members. by rewrite elem_of_np_where_eq. }
    split.
    + unfold same_votes. rewrite Hpv', Hpcv', Hpm', Hps'. simpl.
      repeat split; auto.
    + destruct (Hunlab j) as (? & ? & ? & ? & ? & ? & ?); [tauto|].
      by repeat split.
  - intros j Hj [_ Hzero].
    assert (j ∈ members s i) as Hin by (by apply elem_of_np_where_eq).
    apply list_elem_of_lookup in Hin as Hk. destruct Hk as [k Hk].
    destruct (lookup_lt_is_Some_2 x k) as [p Hp].
    { rewrite (take_rows_length _ _ _ Hx). by eapply lookup_lt_Some. }
    destruct (Hcin k j p Hk Hp) as (c & Hc & Hcv').
    exists p, cls, c, f.
    split; [by rewrite <-(take_rows_lookup _ _ _ _ _ Hx Hk)|].
    split; [done|]. split; [done|]. split; [done|]. split.
    + unfold votes_are. rewrite Hpv', Hpcv', Hpm', Hps'. simpl.
      rewrite (Hvin k j Hk), list_lookup_fmap, Hp. repeat split; auto.
    + destruct (plane_labelled s i j) eqn:Hlabelled; [by apply Hlab|].
      destruct (Hunlab j) as (Ha & Hb1 & Hb2 & Hb3 & Hb4 & Hb5 & Hb6).
      { intros [_ ?]. congruence. }
      destruct Hzero as (? & ? & ? & ? & ? & ? & ?).
      unfold planes_are. rewrite Ha, Hb1, Hb2, Hb3, Hb4, Hb5, Hb6. by repeat split.
Qed.
End InstanceProps.

(** ** The whole instance loop *)

Section LoopProps.
Variable DC : DatasetConfig.
Variable leastsq : (plane → list R) → plane → plane.
Variables (s : sampled) (n : nat).
Hypothesis Hs : sampled_ok n s.
Hypothesis HDC : config_ok DC.

Lemma votes_are_same st st' j vote cvote mask sem :
  same_votes st st' j → votes_are st j vote cvote mask sem →
  votes_are st' j vote cvote mask sem.
Proof.
  intros (H1 & H2 & H3 & H4) (? & ? & ? & ?). unfold votes_are.
  rewrite H1, H2, H3, H4. by repeat split.
Qed.

Lemma planes_are_same st st' j mask f :
  same_planes st st' j → planes_are st j mask f → planes_are st' j mask f.
Proof.
  intros (H1 & H2 & H3 & H4 & H5 & H6 & H7) (? & ? & ? & ? & ? & ? & ?).
  unfold planes_are. rewrite H1, H2, H3, H4, H5, H6, H7. by repeat split.
Qed.

Lemma untouched_same st st' j :
  same_votes st st' j ∧ same_planes st st' j → untouched st j → untouched st' j.
Proof.
  intros [Hv Hp] [? ?]. split;
    [by eapply votes_are_same | by eapply planes_are_same].
Qed.

Lemma settled_same st st' j i :
  same_votes st st' j ∧ same_planes st st' j →
  settled DC leastsq s st j i → settled DC leastsq s st' j i.
Proof.
  intros Hsame. unfold settled.
  destruct (retained_meta DC s i) as [meta|]; [|by apply untouched_same].
  intros (p & cls & c & f & ? & ? & ? & ? & Hv & Hp).
  exists p, cls, c, f. do 4 (split; [done|]). destruct Hsame as [Hsv Hsp].
  split; [by eapply votes_are_same|].
  destruct (plane_labelled s i j); by eapply planes_are_same.
Qed.

Lemma same_rows_trans st1 st2 st3 j :
  same_votes st1 st2 j ∧ same_planes st1 st2 j →
  same_votes st2 st3 j ∧ same_planes st2 st3 j →
  same_votes st1 st3 j ∧ same_planes st1 st3 j.
Proof.
  intros [(? & ? & ? & ?) (? & ? & ? & ? & ? & ? & ?)]
         [(? & ? & ? & ?) (? & ? & ? & ? & ? & ? & ?)].
  split; repeat split; congruence.
Qed.

Lemma label_instances_spec ids : ∀ st,
  NoDup ids → Forall (λ i, i ∈ s_instance_labels s) ids → sizes n st →
  ∃ st', label_instances DC leastsq s ids st = Ok st'
    ∧ sizes n st'
    ∧ obj_meta st' = obj_meta st ++ omap (retained_meta DC s) ids
    ∧ ∀ j i, s_instance_labels s !! j = Some i →
        (i ∉ ids → same_votes st st' j ∧ same_planes st st' j)
        ∧ (i ∈ ids → untouched st j → settled DC leastsq s st' j i).
Proof.
  induction ids as [|i ids IH]; intros st Hnd Hall Hsz.
  - exists st. split; [done|]. split; [done|]. split; [by rewrite app_nil_r|].
    intros j i Hj. split; [intros; by repeat split|]. by intros ?%elem_of_nil.
  - apply NoDup_cons in Hnd as [Hi Hnd]. apply Forall_cons in Hall as [Hin Hall].
    destruct (label_instance_spec DC leastsq s n Hs HDC st i Hsz Hin)
      as (st1 & Hstep & Hsz1 & Hom1 & Hothers & Hmine).
    destruct (IH st1 Hnd Hall Hsz1) as (st' & Hloop & Hsz' & Hom' & Hrows).
    exists st'. simpl. rewrite Hstep. simpl.
    split; [done|]. split; [done|]. split.
    { rewrite Hom', Hom1, <-(assoc_L (++)). f_equal.
      by destruct (retained_meta DC s i). }
    intros j i' Hj. destruct (Hrows j i' Hj) as [Hout Hsettle]. split.
    + intros [Hne Hni]%not_elem_of_cons.
      eapply same_rows_trans; [|by apply Hout].
      apply Hothers. congruence.
    + intros [->|Hi']%elem_of_cons Hzero.
      * eapply settled_same; [by apply Hout|]. by apply Hmine.
      * apply Hsettle; [done|]. eapply untouched_same; [|done].
        apply Hothers. intros Heq. rewrite Hj in Heq. by injection Heq as ->.
Qed.

Lemma init_labels_sizes : sizes n (init_labels n).
Proof. unfold sizes; simpl. by rewrite !length_replicate. Qed.

Lemma init_labels_untouched j : j < n → untouched (init_labels n) j.
Proof.
  intros Hj. unfold untouched, votes_are, planes_are; simpl.
  by rewrite !lookup_replicate_2.
Qed.

(** The loop of lines 323-395 finishes, and leaves every row as
    [settled] describes it; [obj_meta] holds the metadata rows of the
    retained instances, in the order of their ids. *)
Lemma synthesize_labels_spec :
  ∃ st, synthesize_labels DC leastsq n s = Ok st
    ∧ sizes n st
    ∧ obj_meta st = omap (retained_meta DC s) (np_unique (s_instance_labels s))
    ∧ ∀ j i, s_instance_labels s !! j = Some i → settled DC leastsq s st j i.
Proof.
  destruct (label_instances_spec (np_unique (s_instance_labels s)) (init_labels n))
    as (st & Hloop & Hsz & Hom & Hrows).
  - apply np_unique_NoDup.
  - apply Forall_forall. intros i. by rewrite elem_of_np_unique.
  - apply init_labels_sizes.
  - exists st. split; [done|]. split; [done|]. split; [done|].
    intros j i Hj. apply (Hrows j i Hj).
    + apply elem_of_np_unique. by eapply list_elem_of_lookup_2.
    + apply init_labels_untouched.
      destruct Hs as (_ & <- & _). by eapply lookup_lt_Some.
Qed.
End LoopProps.

(** ** Votes, corner votes and plane labels *)

Lemma demo_config_ok : config_ok demo_config.
Proof.
  intros x Hx. repeat (apply elem_of_cons in Hx as [->|Hx]; [by eexists|]).
  by apply elem_of_nil in Hx.
Qed.

Lemma one_patch_scene_ok n : sampled_ok n (one_patch_scene n).
Proof.
  unfold sampled_ok; simpl. rewrite !length_replicate, fmap_replicate. done.
Qed.

Section LabelClaims.
Local Open Scope R_scope.
Variable DC : DatasetConfig.
Variable leastsq : (plane → list R) → plane → plane.
Variables (s : sampled) (n : nat).
Hypothesis Hs : sampled_ok n s.
Hypothesis HDC : config_ok DC.

(** C4: the loop finishes; a member point [p] of a retained instance
    gets the center vote [center - p] and vote mask 1, and every other
    point keeps vote mask 0. *)
Theorem center_votes_and_mask :
  ∃ st, synthesize_labels DC leastsq n s = Ok st
    ∧ ∀ j i p, s_instance_labels s !! j = Some i → s_point_cloud s !! j = Some p →
        match retained_meta DC s i with
        | Some meta =>
            point_votes st !! j = Some (vsub (m_center meta) p)
            ∧ point_votes_mask st !! j = Some 1%Z
        | None => point_votes_mask st !! j = Some 0%Z
        end.
Proof.
  destruct (synthesize_labels_spec DC leastsq s n Hs HDC) as (st & Hst & _ & _ & Hrows).
  exists st. split; [done|]. intros j i p Hj Hp.
  specialize (Hrows j i Hj). unfold settled in Hrows.
  destruct (retained_meta DC s i) as [meta|].
  - destruct Hrows as (p' & cls & c & f & Hp' & _ & _ & _ & (Hv & _ & Hm & _) & _).
    rewrite Hp in Hp'. injection Hp' as <-. done.
  - by destruct Hrows as [(_ & _ & Hm & _) _].
Qed.

(** C5: the corner vote of a member point [p] of a retained instance
    is [corner - p] for a corner of the instance's box at least
    squared distance from [p]; among the corners at that distance it is
    the one of lowest index. *)
Theorem corner_votes_nearest_first :
  ∃ st, synthesize_labels DC leastsq n s = Ok st
    ∧ ∀ j i meta p,
        s_instance_labels s !! j = Some i → retained_meta DC s i = Some meta →
        s_point_cloud s !! j = Some p →
        ∃ k c, instance_corners meta !! k = Some c
          ∧ point_votes_corner st !! j = Some (vsub c p)
          ∧ (∀ k' c', instance_corners meta !! k' = Some c' →
                      sqdist p c <= sqdist p c')
          ∧ (∀ k' c', instance_corners meta !! k' = Some c' → (k' < k)%nat →
                      sqdist p c < sqdist p c').
Proof.
  destruct (synthesize_labels_spec DC leastsq s n Hs HDC) as (st & Hst & _ & _ & Hrows).
  exists st. split; [done|]. intros j i meta p Hj Hmeta Hp.
  specialize (Hrows j i Hj). unfold settled in Hrows. rewrite Hmeta in Hrows.
  destruct Hrows as (p' & cls & c & f & Hp' & _ & Hc & _ & (_ & Hcv & _) & _).
  rewrite Hp in Hp'. injection Hp' as <-.
  destruct (argmin_spec ((λ c, sqdist p c) <$> instance_corners meta))
    as (v & Hv & Hmin & Hfirst); [done|].
  assert (v = sqdist p c) as ->.
  { rewrite list_lookup_fmap, Hc in Hv. by injection Hv. }
  eexists _, c. split; [exact Hc|]. split; [done|]. split.
  - intros k' c' Hk'. apply (Hmin k').
    by rewrite list_lookup_fmap, Hk'.
  - intros k' c' Hk' Hlt. apply (Hfirst k'); [|done].
    by rewrite list_lookup_fmap, Hk'.
Qed.

(** C10: a point with plane mask 1 has vote mask 1. *)
Theorem plane_mask_implies_vote_mask :
  ∃ st, synthesize_labels DC leastsq n s = Ok st
    ∧ ∀ j, plane_label_mask st !! j = Some 1%Z →
           point_votes_mask st !! j = Some 1%Z.
Proof.
  destruct (synthesize_labels_spec DC leastsq s n Hs HDC)
    as (st & Hst & Hsz & _ & Hrows).
  exists st. split; [done|]. intros j Hj.
  destruct (lookup_lt_is_Some_2 (s_instance_labels s) j) as [i Hi].
  { destruct Hs as (_ & -> & _). destruct Hsz as (_ & _ & _ & _ & <- & _).
    by eapply lookup_lt_Some. }
  specialize (Hrows j i Hi). unfold settled in Hrows.
  destruct (retained_meta DC s i) as [meta|].
  - by destruct Hrows as (p & cls & c & f & _ & _ & _ & _ & (_ & _ & Hm & _) & _).
  - destruct Hrows as [_ (Hpm & _)]. congruence.
Qed.

(** C9: the points of an instance that is not retained keep zero
    votes, vote mask 0, semantic label 0, plane mask 0 and zero plane
    rows; [obj_meta], from which the boxes are packed, holds the rows of
    the retained instances only; the label arrays still have a row for
    each of the [n] points. *)
Theorem unretained_instances_contribute_nothing :
  ∃ st, synthesize_labels DC leastsq n s = Ok st
    ∧ sizes n st
    ∧ obj_meta st = omap (retained_meta DC s) (np_unique (s_instance_labels s))
    ∧ ∀ j i, s_instance_labels s !! j = Some i → retained_meta DC s i = None →
        point_votes st !! j = Some zero3
        ∧ point_votes_corner st !! j = Some zero3
        ∧ point_votes_mask st !! j = Some 0%Z
        ∧ point_sem_label st !! j = Some 0%Z
        ∧ planes_are st j 0 zero_faces.
Proof.
  destruct (synthesize_labels_spec DC leastsq s n Hs HDC)
    as (st & Hst & Hsz & Hom & Hrows).
  exists st. do 3 (split; [done|]). intros j i Hj Hnone.
  specialize (Hrows j i Hj). unfold settled in Hrows. rewrite Hnone in Hrows.
  destruct Hrows as [(? & ? & ? & ?) ?]. done.
Qed.
(** C3: at a point that receives plane labels, the stored upper,
    right and back planes have the very normal of the stored lower,
    left and front planes, which are the least-squares fits to their 4
    corners; the offset of an opposite plane is minus the mean of the
    dot products of that normal with the 4 corners of the opposite
    face. No fit is run for the opposite faces. *)
Theorem opposite_faces_share_normal :
  ∃ st, synthesize_labels DC leastsq n s = Ok st
    ∧ ∀ j i meta,
        s_instance_labels s !! j = Some i → retained_meta DC s i = Some meta →
        plane_labelled s i j = true →
        ∃ f lower_pts upper_pts left_pts right_pts front_pts back_pts,
          planes_are st j 1 f
          ∧ take_rows (instance_corners meta) [0; 2; 4; 6]%nat = Ok lower_pts
          ∧ take_rows (instance_corners meta) [1; 3; 5; 7]%nat = Ok upper_pts
          ∧ take_rows (instance_corners meta) [0; 1; 2; 3]%nat = Ok left_pts
          ∧ take_rows (instance_corners meta) [4; 5; 6; 7]%nat = Ok right_pts
          ∧ take_rows (instance_corners meta) [0; 1; 4; 5]%nat = Ok front_pts
          ∧ take_rows (instance_corners meta) [2; 3; 6; 7]%nat = Ok back_pts
          ∧ plane_lower f = leastsq (λ p, residuals p lower_pts) (Plane (0, 0, 1) 0)
          ∧ plane_left f = leastsq (λ p, residuals p left_pts) (Plane (1, 0, 0) 0)
          ∧ plane_front f = leastsq (λ p, residuals p front_pts) (Plane (0, 1, 0) 0)
          ∧ normal (plane_upper f) = normal (plane_lower f)
          ∧ offset (plane_upper f)
            = - mean ((λ q, dot q (normal (plane_lower f))) <$> upper_pts)
          ∧ normal (plane_right f) = normal (plane_left f)
          ∧ offset (plane_right f)
            = - mean ((λ q, dot q (normal (plane_left f))) <$> right_pts)
          ∧ normal (plane_back f) = normal (plane_front f)
          ∧ offset (plane_back f)
            = - mean ((λ q, dot q (normal (plane_front f))) <$> back_pts).
Proof.
  destruct (synthesize_labels_spec DC leastsq s n Hs HDC) as (st & Hst & _ & _ & Hrows).
  exists st. split; [done|]. intros j i meta Hj Hmeta Hlab.
  specialize (Hrows j i Hj). unfold settled in Hrows. rewrite Hmeta, Hlab in Hrows.
  destruct Hrows as (p & cls & c & f & _ & _ & _ & Hf & _ & Hplanes).
  destruct (face_planes_inv leastsq _ _ Hf)
    as (lo & up & le & ri & fr & ba & ? & ? & ? & ? & ? & ?
        & Hlo & Hup & Hle & Hri & Hfr & Hba).
  exists f, lo, up, le, ri, fr, ba. do 10 (split; [done|]).
  rewrite Hup, Hri, Hba. by repeat split.
Qed.

(** C6 (as amended): within a retained instance, a point whose patch
    id is positive and is carried by more than 10 member points gets
    plane mask 1 and the six face planes of the instance; any other
    member point, one whose patch has 10 points or fewer included, keeps
    plane mask 0 and zero plane rows. *)
Theorem plane_labels_need_more_than_10 :
  ∃ st, synthesize_labels DC leastsq n s = Ok st
    ∧ ∀ j i meta row,
        s_instance_labels s !! j = Some i → retained_meta DC s i = Some meta →
        s_plane_vertices s !! j = Some row →
        ∃ f, face_planes leastsq (instance_corners meta) = Ok f
          ∧ ((0 < patch_id row)%Z
             ∧ (10 < length (patch_members s i (patch_id row)))%nat →
             planes_are st j 1 f)
          ∧ (¬ ((0 < patch_id row)%Z
                ∧ (10 < length (patch_members s i (patch_id row)))%nat) →
             planes_are st j 0 zero_faces).
Proof.
  destruct (synthesize_labels_spec DC leastsq s n Hs HDC) as (st & Hst & _ & _ & Hrows).
  exists st. split; [done|]. intros j i meta row Hj Hmeta Hrow.
  specialize (Hrows j i Hj). unfold settled in Hrows. rewrite Hmeta in Hrows.
  destruct Hrows as (p & cls & c & f & _ & _ & _ & Hf & _ & Hplanes).
  exists f. split; [done|]. unfold plane_labelled in Hplanes. rewrite Hrow in Hplanes.
  destruct (Z.ltb_spec 0 (patch_id row)) as [Hpos|Hneg];
    [destruct (Nat.ltb_spec 10 (length (patch_members s i (patch_id row))))
       as [Hbig|Hsmall]|];
    simpl in Hplanes; split; try done; try (intros [? ?]; lia).
  all: intros Hno; exfalso; apply Hno; by split.
Qed.
End LabelClaims.

(** C6, as stated, fails: ten points of a retained instance on one
    positive patch get no plane label. *)
Lemma ten_point_patch_gets_no_plane_label :
  length (patch_members (one_patch_scene 10) 1 1) = 10
  ∧ retained_meta demo_config (one_patch_scene 10) 1 = Some (demo_meta 1 3)
  ∧ ∃ st, synthesize_labels demo_config demo_leastsq 10 (one_patch_scene 10) = Ok st
      ∧ ∀ j, j < 10 → plane_label_mask st !! j = Some 0%Z.
Proof.
  split; [done|]. split; [done|].
  destruct (synthesize_labels_spec demo_config demo_leastsq (one_patch_scene 10) 10
              (one_patch_scene_ok 10) demo_config_ok) as (st & Hst & _ & _ & Hrows).
  exists st. split; [done|]. intros j Hj.
  assert (s_instance_labels (one_patch_scene 10) !! j = Some 1%Z) as Hi.
  { by apply lookup_replicate_2. }
  assert (s_plane_vertices (one_patch_scene 10) !! j = Some (PlaneRow zero_plane 1))
    as Hrow.
  { by apply lookup_replicate_2. }
  specialize (Hrows j 1%Z Hi). unfold settled in Hrows.
  change (retained_meta demo_config (one_patch_scene 10) 1)
    with (Some (demo_meta 1 3)) in Hrows.
  destruct Hrows as (p & cls & c & f & _ & _ & _ & _ & _ & Hplanes).
  unfold plane_labelled in Hplanes. rewrite Hrow in Hplanes.
  change (length (patch_members (one_patch_scene 10) 1 (patch_id (PlaneRow zero_plane 1))))
    with 10%nat in Hplanes.
  simpl in Hplanes. by destruct Hplanes as [? _].
Qed.

(** ** Packing the boxes *)

Lemma slice_assign_fits {A} (a : list A) n b :
  length b = n → n ≤ length a → slice_assign a n b = Ok (b ++ drop n a).
Proof.
  intros Hb Hn. unfold slice_assign.
  rewrite Nat.min_l by done. by rewrite Hb, Nat.eqb_refl.
Qed.

(** More rows than the array has: numpy cannot broadcast them into the
    clipped slice. *)
Lemma slice_assign_overflow {A} (a : list A) n b :
  length b = n → length a < n → 1 < n → slice_assign a n b = Raise ValueError.
Proof.
  intros Hb Hn H1. unfold slice_assign.
  rewrite Nat.min_r by lia.
  destruct (Nat.eqb_spec (length b) (length a)); [lia|].
  destruct b as [|? [|? ?]]; simpl in *; try done; lia.
Qed.

Lemma padded_lookup {A} (b : list A) K z slot :
  length b ≤ slot → slot < K →
  (b ++ drop (length b) (replicate K z)) !! slot = Some z.
Proof.
  intros Hlo Hhi. rewrite lookup_app_r by done. rewrite lookup_drop.
  apply lookup_replicate_2. lia.
Qed.

Lemma map_result_total {A B} (f : A → result B) (P : B → Prop) l :
  Forall (λ a, ∃ b, f a = Ok b ∧ P b) l →
  ∃ bs, map_result f l = Ok bs ∧ length bs = length l ∧ Forall P bs.
Proof.
  induction 1 as [|a l (b & Hb & HP) _ (bs & Hbs & Hlen & HPs)]; simpl.
  - by exists [].
  - rewrite Hb, Hbs. simpl. exists (b :: bs).
    split; [done|]. split; [by rewrite <-Hlen | by constructor].
Qed.

Lemma index_of_elem l x :
  x ∈ l → ∃ k, index_of l x = Ok k ∧ k < length l.
Proof.
  intros (k & Hk & Hl)%np_where_eq_head. exists k. split; [done|].
  by eapply lookup_lt_Some.
Qed.

Section PackingProps.
Local Open Scope R_scope.
Variable DC : DatasetConfig.
Hypothesis Hboxes : config_boxes_ok DC.

Lemma pack_boxes_overflow om :
  (MAX_NUM_OBJ < length om)%nat → pack_boxes DC om = Raise ValueError.
Proof.
  intros Hn. unfold pack_boxes.
  rewrite slice_assign_overflow; [done|by rewrite length_fmap|..].
  - by rewrite length_replicate.
  - unfold MAX_NUM_OBJ in Hn. lia.
Qed.

Lemma pack_boxes_fits om :
  (length om ≤ MAX_NUM_OBJ)%nat → Forall (λ m, m_semantic m ∈ nyu40ids DC) om →
  ∃ b, pack_boxes DC om = Ok b
    ∧ length (target_bboxes_mask b) = MAX_NUM_OBJ
    ∧ (∀ slot, (slot < length om)%nat → target_bboxes_mask b !! slot = Some 1%Z)
    ∧ zero_padded b (length om).
Proof.
  intros Hn Hvalid. destruct Hboxes as (Hcls & Hmeans & Hbins).
  unfold pack_boxes, zero_padded. generalize dependent MAX_NUM_OBJ. intros K Hn.
  remember (length om) as n eqn:Hlen.
  rewrite slice_assign_fits; [|by rewrite length_fmap|by rewrite length_replicate].
  simpl.
  destruct (map_result_total (λ m, index_of (nyu40ids DC) (m_semantic m))
              (λ k, k < length (mean_size_arr DC))%nat om) as (class_ind & -> & Hcl & Hcb).
  { eapply Forall_impl; [done|]. intros m (k & ? & ?)%index_of_elem.
    exists k. split; [done|lia]. }
  simpl.
  rewrite slice_assign_fits;
    [|rewrite length_fmap; lia|by rewrite length_replicate].
  simpl.
  destruct (take_rows_total (mean_size_arr DC) class_ind Hcb) as [means Hmeans'].
  rewrite Hmeans'. simpl.
  pose proof (take_rows_length _ _ _ Hmeans') as Hml.
  assert (length (take n (snd <$> ((λ m, (m_center m, (m_xsize m, m_ysize m, m_zsize m)))
                                     <$> om) ++ drop n (replicate K (zero3, zero3))))
          = n) as Htl.
  { rewrite length_take, length_fmap, length_app, length_fmap, length_drop,
      length_replicate. lia. }
  unfold broadcast_sub. rewrite Htl.
  replace (n =? length means)%nat with true by (symmetry; apply Nat.eqb_eq; lia).
  simpl.
  rewrite slice_assign_fits;
    [|rewrite length_zip_with, Htl; lia|by rewrite length_replicate].
  simpl.
  destruct (heading_loop_total DC Hbins om 0%nat (replicate K 0%Z) (replicate K 0))
    as ([ac ar] & -> & Hacl & Harl & Hframe & _).
  { rewrite length_replicate. lia. }
  { by rewrite !length_replicate. }
  simpl.
  destruct (map_result_total (λ m, dict_get (nyu40id2class DC) (m_semantic m))
              (λ _, True) om) as (semcls & -> & Hsl & _).
  { eapply Forall_impl; [done|]. intros m [c Hc]%Hcls.
    exists c. unfold dict_get. by rewrite Hc. }
  simpl.
  rewrite slice_assign_fits; [|lia|by rewrite length_replicate].
  simpl. eexists. split; [done|]. simpl.
  unfold slice_fill. rewrite length_replicate.
  split; [rewrite length_app, length_replicate, length_drop, length_replicate; lia|].
  split.
  { intros slot Hslot. rewrite lookup_app_l by (rewrite length_replicate; lia).
    apply lookup_replicate_2. lia. }
  intros slot [Hlo Hhi].
  assert (∀ {A} (b : list A) z, length b = n →
            (b ++ drop n (replicate K z)) !! slot = Some z) as Hpad.
  { intros A b z Hb. rewrite <-Hb. apply padded_lookup; lia. }
  split; [apply Hpad; rewrite length_fmap; lia|].
  split.
  { rewrite lookup_app_r by (rewrite length_replicate; lia).
    rewrite lookup_drop. apply lookup_replicate_2.
    rewrite length_replicate. lia. }
  destruct (Hframe slot) as [Hc Hr]; [right; simpl; lia|].
  simpl in Hc, Hr. rewrite Hc, Hr.
  split; [apply lookup_replicate_2; lia|].
  split; [apply lookup_replicate_2; lia|].
  split; [apply Hpad; rewrite length_fmap; lia|].
  split; [|apply Hpad; lia].
  apply Hpad. rewrite length_zip_with, Htl. lia.
Qed.
End PackingProps.

(** ** The box arrays of [__getitem__] *)

Lemma crowded_scene_ok : sampled_ok 65 (crowded_scene 65).
Proof. by repeat split. Qed.

Lemma crowded_scene_count :
  length (omap (retained_meta demo_config (crowded_scene 65))
            (np_unique (s_instance_labels (crowded_scene 65)))) = 65.
Proof. by vm_compute. Qed.

Section GetitemProps.
Variable DC : DatasetConfig.
Variable leastsq : (plane → list R) → plane → plane.
Variables (s : sampled) (n : nat).
Hypothesis Hs : sampled_ok n s.
Hypothesis HDC : config_ok DC.

Lemma retained_meta_valid i meta :
  retained_meta DC s i = Some meta → m_semantic meta ∈ nyu40ids DC.
Proof.
  destruct Hs as (_ & _ & _ & _ & Hsl). unfold retained_meta.
  destruct (head (members s i)) as [i0|]; [simpl|done].
  rewrite Hsl, list_lookup_fmap.
  destruct (s_meta_vertices s !! i0) as [meta0|]; [simpl|done].
  destruct (bool_decide_reflect (m_semantic meta0 ∈ nyu40ids DC)); [|done].
  by intros [= <-].
Qed.

Lemma retained_rows_valid ids :
  Forall (λ m, m_semantic m ∈ nyu40ids DC) (omap (retained_meta DC s) ids).
Proof.
  apply Forall_forall. intros meta (i & _ & Hi)%list_elem_of_omap.
  by eapply retained_meta_valid.
Qed.

(** C7 (as amended): with [k] retained instances, [k] at most
    [MAX_NUM_OBJ], the box arrays are packed without an exception: the
    box mask is 1 in the first [k] slots and every per-box array is zero
    from slot [k] on. With more than [MAX_NUM_OBJ] retained instances
    nothing is truncated: the assignment of line 430 raises
    [ValueError]. *)
Theorem box_arrays_padded_or_raise :
  config_boxes_ok DC →
  let k := length (omap (retained_meta DC s) (np_unique (s_instance_labels s))) in
  (k ≤ MAX_NUM_OBJ →
     ∃ st b, dataset_getitem DC leastsq n s = Ok (st, b)
       ∧ length (target_bboxes_mask b) = MAX_NUM_OBJ
       ∧ (∀ slot, slot < k → target_bboxes_mask b !! slot = Some 1%Z)
       ∧ zero_padded b k)
  ∧ (MAX_NUM_OBJ < k → dataset_getitem DC leastsq n s = Raise ValueError).
Proof.
  intros Hboxes k.
  destruct (synthesize_labels_spec DC leastsq s n Hs HDC) as (st & Hst & _ & Hom & _).
  unfold dataset_getitem. rewrite Hst. simpl. subst k. rewrite <-Hom. split.
  - intros Hk.
    destruct (pack_boxes_fits DC Hboxes (obj_meta st) Hk) as (b & -> & Hb).
    { rewrite Hom. apply retained_rows_valid. }
    by exists st, b.
  - intros Hk. by rewrite pack_boxes_overflow.
Qed.
End GetitemProps.

(** C7, as stated, fails: a scene with 65 retained instances is not
    truncated to 64 boxes, [__getitem__] raises. *)
Lemma sixty_five_instances_raise :
  length (omap (retained_meta demo_config (crowded_scene 65))
            (np_unique (s_instance_labels (crowded_scene 65)))) = 65
  ∧ dataset_getitem demo_config demo_leastsq 65 (crowded_scene 65) = Raise ValueError.
Proof.
  split; [apply crowded_scene_count|].
  destruct (synthesize_labels_spec demo_config demo_leastsq (crowded_scene 65) 65
              crowded_scene_ok demo_config_ok) as (st & Hst & _ & Hom & _).
  unfold dataset_getitem. rewrite Hst. simpl.
  rewrite pack_boxes_overflow; [done|].
  rewrite Hom, crowded_scene_count. unfold MAX_NUM_OBJ. lia.
Qed.

(** ** The properties on an example scene

    Eleven points at the origin, all of one retained instance (a box of
    side 2 around the origin, heading 0) and all on plane patch 1. *)

Lemma demo_config_boxes_ok : config_boxes_ok demo_config.
Proof.
  split; [|split; simpl; lia].
  intros x Hx. repeat (apply elem_of_cons in Hx as [->|Hx]; [by eexists|]).
  by apply elem_of_nil in Hx.
Qed.

Lemma heading_round_trip_witness :
  (0 < num_heading_bin demo_config)
  ∧ (- PI < 0 <= PI)%R
  ∧ let '(c, r) := angle2class2 demo_config 0 in
    (0 <= c < Z.of_nat (num_heading_bin demo_config))%Z
    ∧ (Rabs r <= angle_per_class demo_config / 2)%R
    ∧ (Rabs (class2angle2 demo_config c r - 0) < 1 / 1000000)%R
    ∧ ∀ rows, Forall (λ m, (- PI < m_heading m <= PI)%R) rows →
        length rows ≤ MAX_NUM_OBJ →
        ∃ out, heading_loop demo_config 0 rows (replicate MAX_NUM_OBJ 0%Z)
                 (replicate MAX_NUM_OBJ 0%R) = Ok out.
Proof.
  assert (0 < num_heading_bin demo_config) as Hbins by (simpl; lia).
  assert (- PI < 0 <= PI)%R as Hdom by (pose proof PI_RGT_0; lra).
  split; [done|]. split; [done|].
  exact (heading_round_trip demo_config Hbins 0%R Hdom).
Defined.

Lemma mixed_scene_ok : sampled_ok 3 mixed_scene.
Proof. by repeat split. Qed.

Lemma center_votes_and_mask_witness :
  sampled_ok 3 mixed_scene ∧ config_ok demo_config
  ∧ ∃ st, synthesize_labels demo_config demo_leastsq 3 mixed_scene = Ok st
      ∧ point_votes st !! 0 = Some (vsub zero3 zero3)
      ∧ point_votes_mask st !! 0 = Some 1%Z
      ∧ point_votes_mask st !! 1 = Some 0%Z.
Proof.
  split; [apply mixed_scene_ok|]. split; [apply demo_config_ok|].
  destruct (center_votes_and_mask demo_config demo_leastsq mixed_scene 3
              mixed_scene_ok demo_config_ok) as (st & Hst & Hrows).
  exists st. split; [done|].
  destruct (Hrows 0 1%Z zero3 eq_refl eq_refl) as [Hv Hm].
  split; [done|]. split; [done|].
  exact (Hrows 1 2%Z zero3 eq_refl eq_refl).
Defined.

Lemma plane_mask_implies_vote_mask_witness :
  sampled_ok 11 (one_patch_scene 11) ∧ config_ok demo_config
  ∧ ∃ st, synthesize_labels demo_config demo_leastsq 11 (one_patch_scene 11) = Ok st
      ∧ ∀ j, plane_label_mask st !! j = Some 1%Z →
             point_votes_mask st !! j = Some 1%Z.
Proof.
  split; [apply one_patch_scene_ok|]. split; [apply demo_config_ok|].
  exact (plane_mask_implies_vote_mask demo_config demo_leastsq (one_patch_scene 11) 11
           (one_patch_scene_ok 11) demo_config_ok).
Defined.

Lemma plane_labels_need_more_than_10_witness :
  sampled_ok 11 (one_patch_scene 11) ∧ config_ok demo_config
  ∧ ∃ st f, synthesize_labels demo_config demo_leastsq 11 (one_patch_scene 11) = Ok st
      ∧ face_planes demo_leastsq (instance_corners (demo_meta 1 3)) = Ok f
      ∧ planes_are st 0 1 f.
Proof.
  split; [apply one_patch_scene_ok|]. split; [apply demo_config_ok|].
  destruct (plane_labels_need_more_than_10 demo_config demo_leastsq (one_patch_scene 11)
              11 (one_patch_scene_ok 11) demo_config_ok) as (st & Hst & Hrows).
  destruct (Hrows 0 1%Z (demo_meta 1 3) (PlaneRow zero_plane 1) eq_refl eq_refl eq_refl)
    as (f & Hf & Hyes & _).
  exists st, f. split; [done|]. split; [done|]. apply Hyes.
  split; [done|]. change (10 < 11). lia.
Defined.

Lemma opposite_faces_share_normal_witness :
  sampled_ok 11 (one_patch_scene 11) ∧ config_ok demo_config
  ∧ ∃ st f, synthesize_labels demo_config demo_leastsq 11 (one_patch_scene 11) = Ok st
      ∧ planes_are st 0 1 f
      ∧ normal (plane_upper f) = normal (plane_lower f)
      ∧ normal (plane_right f) = normal (plane_left f)
      ∧ normal (plane_back f) = normal (plane_front f).
Proof.
  split; [apply one_patch_scene_ok|]. split; [apply demo_config_ok|].
  destruct (opposite_faces_share_normal demo_config demo_leastsq (one_patch_scene 11)
              11 (one_patch_scene_ok 11) demo_config_ok) as (st & Hst & Hrows).
  destruct (Hrows 0 1%Z (demo_meta 1 3) eq_refl eq_refl eq_refl)
    as (f & lo & up & le & ri & fr & ba & Hplanes & _ & _ & _ & _ & _ & _
        & _ & _ & _ & Hu & _ & Hr & _ & Hb & _).
  by exists st, f.
Defined.

Lemma unretained_instances_contribute_nothing_witness :
  sampled_ok 3 mixed_scene ∧ config_ok demo_config
  ∧ ∃ st, synthesize_labels demo_config demo_leastsq 3 mixed_scene = Ok st
      ∧ sizes 3 st
      ∧ obj_meta st = [demo_meta 1 3]
      ∧ point_votes st !! 2 = Some zero3
      ∧ point_votes_corner st !! 2 = Some zero3
      ∧ point_votes_mask st !! 2 = Some 0%Z
      ∧ point_sem_label st !! 2 = Some 0%Z
      ∧ planes_are st 2 0 zero_faces.
Proof.
  split; [apply mixed_scene_ok|]. split; [apply demo_config_ok|].
  destruct (unretained_instances_contribute_nothing demo_config demo_leastsq
              mixed_scene 3 mixed_scene_ok demo_config_ok)
    as (st & Hst & Hsz & Hom & Hrows).
  exists st. split; [done|]. split; [done|]. split; [by rewrite Hom|].
  exact (Hrows 2 2%Z eq_refl eq_refl).
Defined.

(** A point at the center of its box is at squared distance 3 from all
    8 corners: the corner vote goes to corner 0. *)
Lemma corner_votes_nearest_first_witness :
  sampled_ok 3 mixed_scene ∧ config_ok demo_config
  ∧ ∃ st, synthesize_labels demo_config demo_leastsq 3 mixed_scene = Ok st
      ∧ point_votes_corner st !! 0 = Some (vsub (-1, -1, -1)%R zero3).
Proof.
  split; [apply mixed_scene_ok|]. split; [apply demo_config_ok|].
  destruct (corner_votes_nearest_first demo_config demo_leastsq mixed_scene 3
              mixed_scene_ok demo_config_ok) as (st & Hst & Hrows).
  exists st. split; [done|].
  destruct (Hrows 0 1%Z (demo_meta 1 3) zero3 eq_refl eq_refl eq_refl)
    as (k & c & Hk & Hcv & _ & Hfirst).
  change (instance_corners (demo_meta 1 3))
    with (params2bbox (0, 0, 0) 2 2 2 0)%R in Hk, Hfirst.
  rewrite unit_box_corners in Hk, Hfirst.
  destruct k as [|k]; [by injection Hk as <-|exfalso].
  specialize (Hfirst 0 _ eq_refl ltac:(lia)).
  do 7 (destruct k as [|k]; [injection Hk as <-; unfold sqdist, vsub, zero3 in Hfirst;
                             simpl in Hfirst; lra|]).
  done.
Defined.

Lemma box_arrays_padded_or_raise_witness :
  sampled_ok 11 (one_patch_scene 11) ∧ config_ok demo_config
  ∧ config_boxes_ok demo_config
  ∧ ∃ st b, dataset_getitem demo_config demo_leastsq 11 (one_patch_scene 11) = Ok (st, b)
      ∧ length (target_bboxes_mask b) = MAX_NUM_OBJ
      ∧ target_bboxes_mask b !! 0 = Some 1%Z
      ∧ zero_padded b 1.
Proof.
  split; [apply one_patch_scene_ok|]. split; [apply demo_config_ok|].
  split; [apply demo_config_boxes_ok|].
  destruct (box_arrays_padded_or_raise demo_config demo_leastsq (one_patch_scene 11) 11
              (one_patch_scene_ok 11) demo_config_ok demo_config_boxes_ok)
    as [Hfits _].
  destruct Hfits as (st & b & Hget & Hlen & Hones & Hpad).
  { change (1 ≤ 64). lia. }
  exists st, b. split; [done|]. split; [done|]. split; [|done].
  apply Hones. change (0 < 1). lia.
Defined.

(** * Further properties of the module *)

(** ** [params2bbox] *)

Section BoxProps.
Local Open Scope R_scope.

Lemma vec3_ext (a1 a2 a3 b1 b2 b3 : R) :
  a1 = b1 → a2 = b2 → a3 = b3 → (a1, a2, a3) = (b1, b2, b3).
Proof. by intros -> -> ->. Qed.



(** X1: [params2bbox] reads the sizes through [np.abs]: a negative
    size gives the same corners, in the same order, as its absolute
    value. *)
Theorem params2bbox_size_sign center xsize ysize zsize angle :
  params2bbox center (- xsize) ysize zsize angle
  = params2bbox center xsize ysize zsize angle
  ∧ params2bbox center xsize (- ysize) zsize angle
    = params2bbox center xsize ysize zsize angle
  ∧ params2bbox center xsize ysize (- zsize) angle
    = params2bbox center xsize ysize zsize angle
  ∧ params2bbox center (Rabs xsize) (Rabs ysize) (Rabs zsize) angle
    = params2bbox center xsize ysize zsize angle.
Proof.
  unfold params2bbox. by rewrite !Rabs_Ropp, !Rabs_Rabsolu.
Qed.




End BoxProps.

(** ** [pdist2], [f_min] and the face planes *)

Section PlaneGeometry.
Local Open Scope R_scope.







End PlaneGeometry.




(** ** More on the instance loop *)

Section LoopExtras.
Variable DC : DatasetConfig.
Variable leastsq : (plane → list R) → plane → plane.
Variables (s : sampled) (n : nat).
Hypothesis Hs : sampled_ok n s.

(** X9: the loop finishes, and a member point of a retained instance
    gets as semantic label the class [nyu40id2class_sem] gives for the
    semantic id of the instance; the points of the other instances keep
    label 0. *)
Theorem semantic_labels_propagated :
  config_ok DC →
  ∃ st, synthesize_labels DC leastsq n s = Ok st
    ∧ ∀ j i, s_instance_labels s !! j = Some i →
        match retained_meta DC s i with
        | Some meta =>
            ∃ cls, nyu40id2class_sem DC !! m_semantic meta = Some cls
                   ∧ point_sem_label st !! j = Some cls
        | None => point_sem_label st !! j = Some 0%Z
        end.
Proof.
  intros HDC.
  destruct (synthesize_labels_spec DC leastsq s n Hs HDC) as (st & Hst & _ & _ & Hrows).
  exists st. split; [done|]. intros j i Hj.
  specialize (Hrows j i Hj). unfold settled in Hrows.
  destruct (retained_meta DC s i) as [meta|].
  - destruct Hrows as (p & cls & c & f & _ & Hcls & _ & _ & (_ & _ & _ & Hl) & _).
    by exists cls.
  - by destruct Hrows as [(_ & _ & _ & Hl) _].
Qed.

(** What [retained_meta] unfolds to at a retained instance. *)
Lemma retained_meta_Some i meta :
  retained_meta DC s i = Some meta →
  ∃ i0, getitem (members s i) 0 = Ok i0
        ∧ s_semantic_labels s !! i0 = Some (m_semantic meta)
        ∧ m_semantic meta ∈ nyu40ids DC
        ∧ s_meta_vertices s !! i0 = Some meta.
Proof.
  destruct Hs as (_ & _ & _ & _ & Hsl). unfold retained_meta.
  destruct (head (members s i)) as [i0|] eqn:Hhead; [simpl|done].
  rewrite Hsl, list_lookup_fmap.
  destruct (s_meta_vertices s !! i0) as [meta0|] eqn:Hmeta; [simpl|done].
  destruct (bool_decide_reflect (m_semantic meta0 ∈ nyu40ids DC)); [|done].
  intros [= <-]. exists i0. rewrite head_lookup in Hhead.
  split; [by apply getitem_Ok|]. by rewrite list_lookup_fmap, Hmeta.
Qed.

(** One pass raises [KeyError] at a retained instance whose semantic id
    has no class. *)
Lemma label_instance_key_error st i meta :
  sizes n st → retained_meta DC s i = Some meta →
  nyu40id2class_sem DC !! m_semantic meta = None →
  label_instance DC leastsq s st i = Raise KeyError.
Proof.
  intros Hsz (i0 & Hhead & Hsem & Hvalid & Hmeta)%retained_meta_Some Hnone.
  destruct Hs as (Hpc & Hil & Hpv & Hmv & Hsl).
  unfold label_instance. fold (members s i). rewrite Hhead. simpl.
  rewrite (proj2 (getitem_Ok _ _ _) Hsem). simpl.
  rewrite bool_decide_eq_true_2 by done.
  pose proof (members_bound s i n Hil) as Hb.
  pose proof (np_where_eq_NoDup (s_instance_labels s) i) as Hnd.
  fold (members s i) in Hnd.
  destruct (take_rows_total (s_point_cloud s) (members s i)) as [x Hx];
    [by rewrite Hpc|].
  rewrite Hx. simpl. rewrite (proj2 (getitem_Ok _ _ _) Hmeta). simpl.
  destruct Hsz as (Hv & Hcv & Hm & Hsem' & Hplanes).
  destruct (put_rows_spec (point_votes st) (members s i)
              ((λ p, vsub (m_center meta) p) <$> x))
    as (votes & -> & _); [done|by rewrite Hv| |].
  { rewrite length_fmap. by eapply take_rows_length. }
  simpl.
  destruct (fill_rows_spec (point_votes_mask st) (members s i) 1%Z)
    as (mask & -> & _); [by rewrite Hm|]. simpl.
  unfold dict_get. by rewrite Hnone.
Qed.

(** One pass does not see the classes [with_default_sem_classes] adds,
    unless it would raise [KeyError]. *)
Lemma label_instance_default_classes st i :
  (∀ meta, retained_meta DC s i = Some meta →
           is_Some (nyu40id2class_sem DC !! m_semantic meta)) →
  label_instance (with_default_sem_classes DC) leastsq s st i
  = label_instance DC leastsq s st i.
Proof.
  intros Hkey. unfold label_instance. fold (members s i).
  destruct (getitem (members s i) 0) as [i0|] eqn:Hhead; [simpl|done].
  destruct (getitem (s_semantic_labels s) i0) as [sem|] eqn:Hsem; [simpl|done].
  destruct (bool_decide_reflect (sem ∈ nyu40ids DC)) as [Hvalid|]; [|done].
  destruct (take_rows (s_point_cloud s) (members s i)) as [x|]; [simpl|done].
  destruct (getitem (s_meta_vertices s) i0) as [meta|] eqn:Hmeta; [simpl|done].
  destruct (put_rows _ _ _) as [votes|]; [simpl|done].
  destruct (fill_rows (point_votes_mask st) _ _) as [mask|]; [simpl|done].
  destruct (Hkey meta) as [cls Hcls].
  { unfold retained_meta. apply getitem_Ok in Hhead, Hsem, Hmeta.
    rewrite <-head_lookup in Hhead. rewrite Hhead. simpl. rewrite Hsem. simpl.
    by rewrite bool_decide_eq_true_2. }
  unfold dict_get. simpl.
  by rewrite (lookup_union_Some_l _ _ _ _ Hcls), Hcls.
Qed.

Lemma with_default_sem_classes_ok : config_ok (with_default_sem_classes DC).
Proof.
  intros x Hx. simpl in *. apply lookup_union_is_Some. right.
  exists 0%Z. apply lookup_gset_to_gmap_Some. split; [|done].
  by apply elem_of_list_to_set.
Qed.

Lemma label_instances_key_error ids : ∀ st,
  NoDup ids → Forall (λ i, i ∈ s_instance_labels s) ids → sizes n st →
  (∃ i meta, i ∈ ids ∧ retained_meta DC s i = Some meta
             ∧ nyu40id2class_sem DC !! m_semantic meta = None) →
  label_instances DC leastsq s ids st = Raise KeyError.
Proof.
  induction ids as [|i0 ids IH]; intros st Hnd Hall Hsz (i & meta & Hi & Hmeta & Hnone).
  { by apply elem_of_nil in Hi. }
  apply NoDup_cons in Hnd as [_ Hnd]. apply Forall_cons in Hall as [Hin Hall].
  simpl.
  destruct (retained_meta DC s i0) as [meta0|] eqn:Hmeta0.
  - destruct (nyu40id2class_sem DC !! m_semantic meta0) as [cls|] eqn:Hcls.
    + rewrite <-label_instance_default_classes.
      2:{ intros m Hm. rewrite Hmeta0 in Hm. injection Hm as <-. by eexists. }
      destruct (label_instance_spec (with_default_sem_classes DC) leastsq s n Hs
                  with_default_sem_classes_ok st i0 Hsz Hin) as (st1 & -> & Hsz1 & _).
      simpl. apply IH; [done..|].
      exists i, meta. split; [|done].
      apply elem_of_cons in Hi as [->|Hi]; [congruence|done].
    + by rewrite (label_instance_key_error st i0 meta0).
  - rewrite <-label_instance_default_classes.
    2:{ intros m Hm. by rewrite Hmeta0 in Hm. }
    destruct (label_instance_spec (with_default_sem_classes DC) leastsq s n Hs
                with_default_sem_classes_ok st i0 Hsz Hin) as (st1 & -> & Hsz1 & _).
    simpl. apply IH; [done..|].
    exists i, meta. split; [|done].
    apply elem_of_cons in Hi as [->|Hi]; [congruence|done].
Qed.

(** X10: a missing key is not skipped over: if some retained instance
    has a semantic id without an entry in [nyu40id2class_sem], the label
    loop raises [KeyError] and no labels are returned. *)
Theorem synthesize_labels_key_error i meta :
  i ∈ s_instance_labels s → retained_meta DC s i = Some meta →
  nyu40id2class_sem DC !! m_semantic meta = None →
  synthesize_labels DC leastsq n s = Raise KeyError
  ∧ dataset_getitem DC leastsq n s = Raise KeyError.
Proof.
  intros Hi Hmeta Hnone.
  assert (synthesize_labels DC leastsq n s = Raise KeyError) as Hraise.
  { apply label_instances_key_error.
    - apply np_unique_NoDup.
    - apply Forall_forall. intros i'. by rewrite elem_of_np_unique.
    - apply init_labels_sizes.
    - exists i, meta. by rewrite elem_of_np_unique. }
  split; [done|]. unfold dataset_getitem. by rewrite Hraise.
Qed.
End LoopExtras.

Lemma semantic_labels_propagated_witness :
  sampled_ok 3 mixed_scene ∧ config_ok demo_config
  ∧ ∃ st, synthesize_labels demo_config demo_leastsq 3 mixed_scene = Ok st
      ∧ point_sem_label st !! 0 = Some 2%Z
      ∧ point_sem_label st !! 1 = Some 0%Z.
Proof.
  split; [apply mixed_scene_ok|]. split; [apply demo_config_ok|].
  destruct (semantic_labels_propagated demo_config demo_leastsq mixed_scene 3
              mixed_scene_ok demo_config_ok) as (st & Hst & Hrows).
  exists st. split; [done|]. split.
  - destruct (Hrows 0 1%Z eq_refl) as (cls & Hcls & Hl).
    by injection Hcls as <-.
  - exact (Hrows 1 2%Z eq_refl).
Defined.

Lemma synthesize_labels_key_error_witness :
  sampled_ok 3 mixed_scene
  ∧ 1%Z ∈ s_instance_labels mixed_scene
  ∧ retained_meta gappy_config mixed_scene 1 = Some (demo_meta 1 3)
  ∧ nyu40id2class_sem gappy_config !! m_semantic (demo_meta 1 3) = None
  ∧ synthesize_labels gappy_config demo_leastsq 3 mixed_scene = Raise KeyError
  ∧ dataset_getitem gappy_config demo_leastsq 3 mixed_scene = Raise KeyError.
Proof.
  assert (1%Z ∈ s_instance_labels mixed_scene) as Hi by (by left).
  split; [apply mixed_scene_ok|]. split; [done|]. split; [done|]. split; [done|].
  exact (synthesize_labels_key_error gappy_config demo_leastsq mixed_scene 3
           mixed_scene_ok 1%Z (demo_meta 1 3) Hi eq_refl eq_refl).
Defined.

(** ** What the box arrays hold *)

Lemma map_result_Ok {A B} (f : A → result B) l bs :
  map_result f l = Ok bs ↔ Forall2 (λ a b, f a = Ok b) l bs.
Proof.
  revert bs. induction l as [|a l IH]; intros bs; simpl.
  - split; [intros [= <-]; constructor | by intros ->%Forall2_nil_inv_l].
  - split.
    + intros H. inv_bind H. injection H as <-. constructor; [done|by apply IH].
    + intros (b & bs' & Hb & Hbs & ->)%Forall2_cons_inv_l.
      apply IH in Hbs. by rewrite Hb, Hbs.
Qed.

Section BoxContents.
Local Open Scope R_scope.
Variable DC : DatasetConfig.
Hypothesis Hboxes : config_boxes_ok DC.

(** The record [pack_boxes] returns, field by field. *)
Lemma pack_boxes_value om :
  (length om ≤ MAX_NUM_OBJ)%nat → Forall (λ m, m_semantic m ∈ nyu40ids DC) om →
  ∃ class_ind means classes resid semcls,
    Forall2 (λ m ci, index_of (nyu40ids DC) (m_semantic m) = Ok ci) om class_ind
    ∧ take_rows (mean_size_arr DC) class_ind = Ok means
    ∧ heading_loop DC 0 om (replicate MAX_NUM_OBJ 0%Z) (replicate MAX_NUM_OBJ 0)
      = Ok (classes, resid)
    ∧ Forall2 (λ m c, nyu40id2class DC !! m_semantic m = Some c) om semcls
    ∧ pack_boxes DC om
      = Ok {| target_bboxes :=
                ((λ m, (m_center m, (m_xsize m, m_ysize m, m_zsize m))) <$> om)
                ++ drop (length om) (replicate MAX_NUM_OBJ (zero3, zero3));
              target_bboxes_mask :=
                slice_fill (replicate MAX_NUM_OBJ 0%Z) (length om) 1%Z;
              angle_classes := classes;
              angle_residuals := resid;
              size_classes :=
                (Z.of_nat <$> class_ind) ++ drop (length om) (replicate MAX_NUM_OBJ 0%Z);
              size_residuals :=
                zip_with vsub ((λ m, (m_xsize m, m_ysize m, m_zsize m)) <$> om) means
                ++ drop (length om) (replicate MAX_NUM_OBJ zero3);
              target_bboxes_semcls :=
                semcls ++ drop (length om) (replicate MAX_NUM_OBJ 0%Z) |}.
Proof.
  intros Hn Hvalid. destruct Hboxes as (Hcls & Hmeans & Hbins).
  unfold pack_boxes. generalize dependent MAX_NUM_OBJ. intros K Hn.
  remember (length om) as n eqn:Hlen.
  rewrite slice_assign_fits; [|by rewrite length_fmap|by rewrite length_replicate].
  simpl.
  destruct (map_result_total (λ m, index_of (nyu40ids DC) (m_semantic m))
              (λ k, k < length (mean_size_arr DC))%nat om) as (class_ind & Hci & Hcl & Hcb).
  { eapply Forall_impl; [done|]. intros m (k & ? & ?)%index_of_elem.
    exists k. split; [done|lia]. }
  rewrite Hci. simpl.
  rewrite slice_assign_fits;
    [|rewrite length_fmap; lia|by rewrite length_replicate].
  simpl.
  destruct (take_rows_total (mean_size_arr DC) class_ind Hcb) as [means Hmeans'].
  rewrite Hmeans'. simpl.
  pose proof (take_rows_length _ _ _ Hmeans') as Hml.
  assert (take n (snd <$> ((λ m, (m_center m, (m_xsize m, m_ysize m, m_zsize m)))
                             <$> om) ++ drop n (replicate K (zero3, zero3)))
          = (λ m, (m_xsize m, m_ysize m, m_zsize m)) <$> om) as Htake.
  { rewrite fmap_app, take_app_length'; [|by rewrite !length_fmap].
    by rewrite <-list_fmap_compose. }
  rewrite Htake. unfold broadcast_sub. rewrite length_fmap.
  replace (length om =? length means)%nat with true by (symmetry; apply Nat.eqb_eq; lia).
  simpl.
  rewrite slice_assign_fits;
    [|rewrite length_zip_with, length_fmap; lia|by rewrite length_replicate].
  simpl.
  destruct (heading_loop_total DC Hbins om 0%nat (replicate K 0%Z) (replicate K 0))
    as ([ac ar] & Hloop & _).
  { rewrite length_replicate. lia. }
  { by rewrite !length_replicate. }
  rewrite Hloop. simpl.
  destruct (map_result_total (λ m, dict_get (nyu40id2class DC) (m_semantic m))
              (λ _, True) om) as (semcls & Hsem & Hsl & _).
  { eapply Forall_impl; [done|]. intros m [c Hc]%Hcls.
    exists c. unfold dict_get. by rewrite Hc. }
  rewrite Hsem. simpl.
  rewrite slice_assign_fits; [|lia|by rewrite length_replicate].
  simpl. exists class_ind, means, ac, ar, semcls.
  split; [by apply map_result_Ok|]. split; [done|]. split; [done|]. split; [|done].
  apply map_result_Ok in Hsem. eapply Forall2_impl; [done|].
  intros m c. unfold dict_get. by destruct (nyu40id2class DC !! m_semantic m) as [?|];
    intros [= ->].
Qed.


End BoxContents.



(** ** Boxes and votes together *)

Section BoxesAndVotes.
Local Open Scope R_scope.
Variable DC : DatasetConfig.
Variable leastsq : (plane → list R) → plane → plane.
Variables (s : sampled) (n : nat).
Hypothesis Hs : sampled_ok n s.
Hypothesis HDC : config_ok DC.
Hypothesis Hboxes : config_boxes_ok DC.
Hypothesis Hfits :
  (length (omap (retained_meta DC s) (np_unique (s_instance_labels s))) ≤ MAX_NUM_OBJ)%nat.


(** X13: the outputs have the shapes of the docstring whatever the
    scene holds: every per-point label array has [num_points] rows and
    every per-box array [MAX_NUM_OBJ] rows. *)
Theorem output_shapes :
  ∃ st b, dataset_getitem DC leastsq n s = Ok (st, b)
    ∧ sizes n st
    ∧ length (target_bboxes b) = MAX_NUM_OBJ
    ∧ length (target_bboxes_mask b) = MAX_NUM_OBJ
    ∧ length (angle_classes b) = MAX_NUM_OBJ
    ∧ length (angle_residuals b) = MAX_NUM_OBJ
    ∧ length (size_classes b) = MAX_NUM_OBJ
    ∧ length (size_residuals b) = MAX_NUM_OBJ
    ∧ length (target_bboxes_semcls b) = MAX_NUM_OBJ.
Proof.
  destruct (synthesize_labels_spec DC leastsq s n Hs HDC)
    as (st & Hst & Hsz & Hom & Hrows).
  destruct (pack_boxes_value DC Hboxes (obj_meta st))
    as (class_ind & means & ac & ar & semcls & Hci & Hmeans & Hloop & Hsem & Hpack).
  { by rewrite Hom. }
  { rewrite Hom. by apply retained_rows_valid with (n := n). }
  match type of Hpack with _ = Ok ?r => set (b0 := r) in * end.
  exists st, b0. unfold dataset_getitem. rewrite Hst. simpl. rewrite Hpack. simpl.
  split; [done|]. split; [done|].
  assert (length (obj_meta st) ≤ MAX_NUM_OBJ)%nat as Hk by (by rewrite Hom).
  destruct Hboxes as (_ & _ & Hbins).
  destruct (heading_loop_total DC Hbins (obj_meta st) 0%nat (replicate MAX_NUM_OBJ 0%Z)
              (replicate MAX_NUM_OBJ 0)) as (out & Hout & Hl1 & Hl2 & _).
  { by rewrite length_replicate. }
  { by rewrite !length_replicate. }
  rewrite Hloop in Hout. injection Hout as <-.
  cbn [fst snd] in Hl1, Hl2. rewrite length_replicate in Hl1, Hl2.
  apply take_rows_length in Hmeans.
  apply Forall2_length in Hci, Hsem.
  unfold b0, slice_fill.
  cbn [target_bboxes target_bboxes_mask angle_classes angle_residuals size_classes
       size_residuals target_bboxes_semcls].
  rewrite !length_app, !length_drop, !length_replicate, !length_fmap, length_zip_with,
    length_fmap.
  unfold MAX_NUM_OBJ in *. repeat split; simpl; lia.
Qed.
End BoxesAndVotes.

Lemma mixed_scene_fits :
  length (omap (retained_meta demo_config mixed_scene)
            (np_unique (s_instance_labels mixed_scene))) ≤ MAX_NUM_OBJ.
Proof. change (1 ≤ 64). lia. Qed.


Lemma output_shapes_witness :
  sampled_ok 3 mixed_scene ∧ config_ok demo_config ∧ config_boxes_ok demo_config
  ∧ ∃ st b, dataset_getitem demo_config demo_leastsq 3 mixed_scene = Ok (st, b)
      ∧ sizes 3 st
      ∧ length (target_bboxes b) = MAX_NUM_OBJ
      ∧ length (target_bboxes_mask b) = MAX_NUM_OBJ.
Proof.
  split; [apply mixed_scene_ok|]. split; [apply demo_config_ok|].
  split; [apply demo_config_boxes_ok|].
  destruct (output_shapes demo_config demo_leastsq mixed_scene 3 mixed_scene_ok
              demo_config_ok demo_config_boxes_ok mixed_scene_fits)
    as (st & b & Hget & Hsz & Hl1 & Hl2 & _).
  by exists st, b.
Defined.

(** ** The order of the boxes *)

Section BoxOrder.
Variable DC : DatasetConfig.
Variable leastsq : (plane → list R) → plane → plane.
Variables (s : sampled) (n : nat).
Hypothesis Hs : sampled_ok n s.
Hypothesis HDC : config_ok DC.
(** The instance labels are column -2 of the metadata rows (line 183). *)
Hypothesis Hinst : s_instance_labels s = m_instance <$> s_meta_vertices s.

Lemma retained_meta_instance i meta :
  retained_meta DC s i = Some meta → m_instance meta = i.
Proof.
  intros (i0 & Hhead & _ & _ & Hmeta)%(retained_meta_Some DC s n Hs).
  apply getitem_Ok in Hhead.
  assert (i0 ∈ members s i) as Hi0 by (by eapply list_elem_of_lookup_2).
  apply elem_of_np_where_eq in Hi0.
  rewrite Hinst, list_lookup_fmap, Hmeta in Hi0. by injection Hi0.
Qed.

Lemma retained_ids_sorted ids :
  StronglySorted Z.lt ids →
  StronglySorted Z.lt (m_instance <$> omap (retained_meta DC s) ids).
Proof.
  induction 1 as [|i ids Hsorted IH Hlt]; simpl; [constructor|].
  destruct (retained_meta DC s i) as [meta|] eqn:Hmeta; [|done].
  simpl. constructor; [done|].
  rewrite (retained_meta_instance i meta Hmeta).
  apply Forall_fmap, Forall_forall. intros m (i' & Hi' & Hm)%list_elem_of_omap. simpl.
  rewrite (retained_meta_instance i' m Hm). by eapply Forall_forall in Hlt.
Qed.

(** X14: [obj_meta], and with it the box slots, follows the ascending
    order of the instance ids, and no instance gets two boxes: the
    instance ids of the rows of [obj_meta] are strictly increasing, and
    they are exactly the ids of the retained instances. *)
Theorem boxes_in_instance_order :
  ∃ st, synthesize_labels DC leastsq n s = Ok st
    ∧ StronglySorted Z.lt (m_instance <$> obj_meta st)
    ∧ ∀ i, i ∈ m_instance <$> obj_meta st
           ↔ i ∈ s_instance_labels s ∧ is_Some (retained_meta DC s i).
Proof.
  destruct (synthesize_labels_spec DC leastsq s n Hs HDC) as (st & Hst & _ & Hom & _).
  exists st. split; [done|]. rewrite Hom. split.
  - apply retained_ids_sorted, np_unique_sorted.
  - intros i. rewrite list_elem_of_fmap. split.
    + intros (m & -> & (i' & Hi' & Hm)%list_elem_of_omap).
      rewrite (retained_meta_instance i' m Hm).
      rewrite elem_of_np_unique in Hi'. split; [done|]. by exists m.
    + intros [Hi [m Hm]]. exists m. split; [by rewrite (retained_meta_instance i m Hm)|].
      apply list_elem_of_omap. exists i. by rewrite elem_of_np_unique.
Qed.
End BoxOrder.

Lemma boxes_in_instance_order_witness :
  sampled_ok 3 mixed_scene ∧ config_ok demo_config
  ∧ s_instance_labels mixed_scene = m_instance <$> s_meta_vertices mixed_scene
  ∧ ∃ st, synthesize_labels demo_config demo_leastsq 3 mixed_scene = Ok st
      ∧ StronglySorted Z.lt (m_instance <$> obj_meta st)
      ∧ ∀ i, i ∈ m_instance <$> obj_meta st
             ↔ i ∈ s_instance_labels mixed_scene
               ∧ is_Some (retained_meta demo_config mixed_scene i).
Proof.
  split; [apply mixed_scene_ok|]. split; [apply demo_config_ok|]. split; [done|].
  exact (boxes_in_instance_order demo_config demo_leastsq mixed_scene 3 mixed_scene_ok
           demo_config_ok eq_refl).
Defined.

(** ** Data augmentation *)

Section SameIds.
Variable DC : DatasetConfig.
Variable leastsq : (plane → list R) → plane → plane.
Variables (s s' : sampled) (n : nat).
Hypothesis Hs : sampled_ok n s.
Hypothesis Hs' : sampled_ok n s'.
Hypothesis HDC : config_ok DC.
Hypothesis Hids : same_ids s s'.

Lemma same_ids_members i : members s' i = members s i.
Proof. unfold members. by destruct Hids as (-> & _). Qed.

Lemma same_ids_retained i :
  match retained_meta DC s i, retained_meta DC s' i with
  | Some m, Some m' => m_semantic m' = m_semantic m
  | None, None => True
  | _, _ => False
  end.
Proof.
  destruct Hids as (Hil & Hsl & _ & Hsem).
  destruct Hs as (_ & _ & _ & Hmv & _), Hs' as (_ & _ & _ & Hmv' & _).
  unfold retained_meta. rewrite same_ids_members, Hsl.
  destruct (head (members s i)) as [i0|]; [simpl|done].
  destruct (s_semantic_labels s !! i0) as [sem|] eqn:Hi0; [simpl|done].
  destruct (bool_decide (sem ∈ nyu40ids DC)); [|done].
  pose proof (f_equal (.!! i0) Hsem) as Hrow. simpl in Hrow.
  rewrite !list_lookup_fmap in Hrow.
  destruct (s_meta_vertices s !! i0) as [m|], (s_meta_vertices s' !! i0) as [m'|];
    simpl in Hrow; try done. by injection Hrow.
Qed.

Lemma same_ids_plane_labelled i j : plane_labelled s' i j = plane_labelled s i j.
Proof.
  destruct Hids as (_ & _ & Hpatch & _).
  assert (∀ k, patch_id <$> s_plane_vertices s' !! k
               = patch_id <$> s_plane_vertices s !! k) as Hrow.
  { intros k. by rewrite <-!list_lookup_fmap, Hpatch. }
  assert (∀ p, patch_members s' i p = patch_members s i p) as Hgroup.
  { intros p. unfold patch_members. rewrite same_ids_members.
    apply list_filter_iff. intros k. by rewrite Hrow. }
  unfold plane_labelled. specialize (Hrow j).
  destruct (s_plane_vertices s !! j) as [r|], (s_plane_vertices s' !! j) as [r'|];
    simpl in Hrow; try done.
  injection Hrow as ->. by rewrite Hgroup.
Qed.

(** Which points are supervised, and with which class, is decided by
    the ids alone. *)
Lemma same_ids_masks st st' :
  synthesize_labels DC leastsq n s = Ok st →
  synthesize_labels DC leastsq n s' = Ok st' →
  point_votes_mask st' = point_votes_mask st
  ∧ point_sem_label st' = point_sem_label st
  ∧ plane_label_mask st' = plane_label_mask st.
Proof.
  intros Hst Hst'.
  destruct (synthesize_labels_spec DC leastsq s n Hs HDC) as (st0 & Hst0 & Hsz & _ & Hrows).
  destruct (synthesize_labels_spec DC leastsq s' n Hs' HDC)
    as (st0' & Hst0' & Hsz' & _ & Hrows').
  rewrite Hst in Hst0. injection Hst0 as <-.
  rewrite Hst' in Hst0'. injection Hst0' as <-.
  assert (∀ j, point_votes_mask st' !! j = point_votes_mask st !! j
               ∧ point_sem_label st' !! j = point_sem_label st !! j
               ∧ plane_label_mask st' !! j = plane_label_mask st !! j) as Hall.
  { intros j. destruct (decide (j < n)) as [Hj|Hj].
    - destruct (lookup_lt_is_Some_2 (s_instance_labels s) j) as [i Hi].
      { by destruct Hs as (_ & -> & _). }
      assert (s_instance_labels s' !! j = Some i) as Hi'.
      { by destruct Hids as (-> & _). }
      specialize (Hrows j i Hi). specialize (Hrows' j i Hi'). unfold settled in *.
      pose proof (same_ids_retained i) as Hret.
      rewrite same_ids_plane_labelled in Hrows'.
      destruct (retained_meta DC s i) as [m|], (retained_meta DC s' i) as [m'|];
        try done.
      + destruct Hrows as (p & cls & c & f & _ & Hcls & _ & _ & (_ & _ & Hm & Hl) & Hpl).
        destruct Hrows' as (p' & cls' & c' & f' & _ & Hcls' & _ & _
                            & (_ & _ & Hm' & Hl') & Hpl').
        rewrite Hret, Hcls in Hcls'. injection Hcls' as <-.
        rewrite Hm, Hm', Hl, Hl'. do 2 (split; [done|]).
        destruct (plane_labelled s i j);
          destruct Hpl as (-> & _), Hpl' as (-> & _); done.
      + destruct Hrows as [(_ & _ & -> & ->) (-> & _)].
        by destruct Hrows' as [(_ & _ & -> & ->) (-> & _)].
    - destruct Hsz as (_ & _ & Hm & Hl & Hp & _), Hsz' as (_ & _ & Hm' & Hl' & Hp' & _).
      rewrite !lookup_ge_None_2; [done|lia..]. }
  repeat split; apply list_eq; intros j; by destruct (Hall j) as (? & ? & ?).
Qed.
End SameIds.

Section FlipProps.
Local Open Scope R_scope.
Variable DC : DatasetConfig.
Variable leastsq : (plane → list R) → plane → plane.
Variables (s : sampled) (n : nat).
Hypothesis Hs : sampled_ok n s.
Hypothesis HDC : config_ok DC.

Lemma flip_with_ok neg : sampled_ok n (flip_with neg s) ∧ same_ids s (flip_with neg s).
Proof.
  destruct Hs as (Hpc & Hil & Hpv & Hmv & Hsl).
  unfold sampled_ok, same_ids; simpl.
  rewrite !length_fmap, <-!list_fmap_compose. by repeat split.
Qed.

Lemma flip_with_retained neg i :
  match retained_meta DC s i, retained_meta DC (flip_with neg s) i with
  | Some m, Some m' => m_center m' = neg (m_center m)
  | None, None => True
  | _, _ => False
  end.
Proof.
  unfold retained_meta, members; simpl.
  destruct (head (np_where_eq (s_instance_labels s) i)) as [i0|]; [simpl|done].
  destruct (s_semantic_labels s !! i0) as [sem|]; [simpl|done].
  destruct (bool_decide (sem ∈ nyu40ids DC)); [|done].
  rewrite list_lookup_fmap. by destruct (s_meta_vertices s !! i0).
Qed.

Lemma flip_with_votes neg st st' :
  (∀ a b, vsub (neg a) (neg b) = neg (vsub a b)) → neg zero3 = zero3 →
  synthesize_labels DC leastsq n s = Ok st →
  synthesize_labels DC leastsq n (flip_with neg s) = Ok st' →
  point_votes st' = neg <$> point_votes st.
Proof.
  intros Hlin Hzero Hst Hst'. destruct (flip_with_ok neg) as [Hs' Hids].
  destruct (synthesize_labels_spec DC leastsq s n Hs HDC) as (st0 & Hst0 & Hsz & _ & Hrows).
  destruct (synthesize_labels_spec DC leastsq _ n Hs' HDC)
    as (st0' & Hst0' & Hsz' & _ & Hrows').
  rewrite Hst in Hst0. injection Hst0 as <-.
  rewrite Hst' in Hst0'. injection Hst0' as <-.
  apply list_eq. intros j. rewrite list_lookup_fmap.
  destruct (decide (j < n)%nat) as [Hj|Hj].
  - destruct (lookup_lt_is_Some_2 (s_instance_labels s) j) as [i Hi].
    { by destruct Hs as (_ & -> & _). }
    specialize (Hrows j i Hi). specialize (Hrows' j i Hi). unfold settled in *.
    pose proof (flip_with_retained neg i) as Hret.
    destruct (retained_meta DC s i) as [m|], (retained_meta DC (flip_with neg s) i) as [m'|];
      try done.
    + destruct Hrows as (p & cls & c & f & Hp & _ & _ & _ & (-> & _) & _).
      destruct Hrows' as (p' & cls' & c' & f' & Hp' & _ & _ & _ & (-> & _) & _).
      simpl in Hp'. rewrite list_lookup_fmap, Hp in Hp'. injection Hp' as <-.
      simpl. by rewrite Hret, Hlin.
    + destruct Hrows as [(-> & _) _]. destruct Hrows' as [(-> & _) _].
      simpl. by rewrite Hzero.
  - destruct Hsz as (Hv & _), Hsz' as (Hv' & _).
    rewrite !lookup_ge_None_2; [done|lia..].
Qed.

(** X15: reflecting the scene reflects the center votes and changes
    nothing else about them: the votes computed after a flip along the
    YZ (XZ) plane are the votes of the unflipped scene with the x (y)
    coordinate negated; vote mask, semantic labels and plane mask are the
    same. *)
Theorem flips_mirror_center_votes :
  ∃ st st_yz st_xz,
    synthesize_labels DC leastsq n s = Ok st
    ∧ synthesize_labels DC leastsq n (flip_yz s) = Ok st_yz
    ∧ synthesize_labels DC leastsq n (flip_xz s) = Ok st_xz
    ∧ point_votes st_yz = negate_x <$> point_votes st
    ∧ point_votes st_xz = negate_y <$> point_votes st
    ∧ point_votes_mask st_yz = point_votes_mask st
    ∧ point_votes_mask st_xz = point_votes_mask st
    ∧ point_sem_label st_yz = point_sem_label st
    ∧ point_sem_label st_xz = point_sem_label st
    ∧ plane_label_mask st_yz = plane_label_mask st
    ∧ plane_label_mask st_xz = plane_label_mask st.
Proof.
  destruct (flip_with_ok negate_x) as [Hyz Hids_yz].
  destruct (flip_with_ok negate_y) as [Hxz Hids_xz].
  destruct (synthesize_labels_spec DC leastsq s n Hs HDC) as (st & Hst & _).
  destruct (synthesize_labels_spec DC leastsq _ n Hyz HDC) as (st_yz & Hst_yz & _).
  destruct (synthesize_labels_spec DC leastsq _ n Hxz HDC) as (st_xz & Hst_xz & _).
  exists st, st_yz, st_xz. do 3 (split; [done|]).
  destruct (same_ids_masks DC leastsq s _ n Hs Hyz HDC Hids_yz st st_yz Hst Hst_yz)
    as (? & ? & ?).
  destruct (same_ids_masks DC leastsq s _ n Hs Hxz HDC Hids_xz st st_xz Hst Hst_xz)
    as (? & ? & ?).
  split.
  { apply (flip_with_votes negate_x st st_yz); [| |done..].
    - intros [[a1 a2] a3] [[b1 b2] b3]. unfold vsub, negate_x. apply vec3_ext; ring.
    - unfold negate_x, zero3. apply vec3_ext; ring. }
  split.
  { apply (flip_with_votes negate_y st st_xz); [| |done..].
    - intros [[a1 a2] a3] [[b1 b2] b3]. unfold vsub, negate_y. apply vec3_ext; ring.
    - unfold negate_y, zero3. apply vec3_ext; ring. }
  by repeat split.
Qed.
End FlipProps.

Section FlipGeometry.
Local Open Scope R_scope.

Lemma flip_with_twice neg s :
  (∀ v, neg (neg v) = v) → flip_with neg (flip_with neg s) = s.
Proof.
  intros Hneg. destruct s as [ch pc il sl pv mv col]. unfold flip_with; simpl.
  rewrite <-!list_fmap_compose. f_equal.
  - rewrite <-(list_fmap_id pc) at 2. apply list_fmap_ext. intros _ p _. apply Hneg.
  - rewrite <-(list_fmap_id pv) at 2. apply list_fmap_ext.
    intros _ [[nrm d] pid] _. simpl. by rewrite Hneg.
  - rewrite <-(list_fmap_id mv) at 2. apply list_fmap_ext.
    intros _ [c xs ys zs h i sem] _. simpl. rewrite Hneg. f_equal. ring.
Qed.

(** X16: the two flips are involutions and commute: flipping twice
    along the same plane gives the scene back (coordinates, plane
    parameters and headings), and the two flips can be done in either
    order. *)
Theorem flips_involutive s :
  flip_yz (flip_yz s) = s
  ∧ flip_xz (flip_xz s) = s
  ∧ flip_xz (flip_yz s) = flip_yz (flip_xz s).
Proof.
  split; [|split].
  - apply flip_with_twice. intros [[x y] z]. unfold negate_x. apply vec3_ext; ring.
  - apply flip_with_twice. intros [[x y] z]. unfold negate_y. apply vec3_ext; ring.
  - unfold flip_xz, flip_yz, flip_with; simpl. rewrite <-!list_fmap_compose.
    f_equal; apply list_fmap_ext.
    + by intros _ [[x y] z] _.
    + by intros _ [[[[x y] z] d] pid] _.
    + by intros _ [[[x y] z] xs ys zs h i sem] _.
Qed.

(** X17: negating the heading is the right thing to do to a box under a
    flip: the corners of the flipped metadata row are the mirror images
    of the corners of the original row; the corner at position
    4 bx + 2 by + bz is the image of the original corner with the x bit
    flipped (flip along YZ), or the y bit flipped (flip along XZ). *)
Theorem flipped_box_is_mirror_image center xsize ysize zsize angle bx by_ bz :
  params2bbox (negate_x center) xsize ysize zsize (-1 * angle) !! corner_index bx by_ bz
  = negate_x <$> params2bbox center xsize ysize zsize angle
                   !! corner_index (negb bx) by_ bz
  ∧ params2bbox (negate_y center) xsize ysize zsize (-1 * angle)
      !! corner_index bx by_ bz
    = negate_y <$> params2bbox center xsize ysize zsize angle
                     !! corner_index bx (negb by_) bz.
Proof.
  rewrite !params2bbox_corner. simpl.
  replace (-1 * angle) with (- angle) by ring.
  destruct center as [[cx cy] cz]. unfold box_corner, negate_x, negate_y.
  rewrite cos_neg, sin_neg.
  split; f_equal; destruct bx, by_; simpl; apply vec3_ext; field.
Qed.
End FlipGeometry.

Lemma flips_mirror_center_votes_witness :
  sampled_ok 3 mixed_scene ∧ config_ok demo_config
  ∧ ∃ st st_yz,
      synthesize_labels demo_config demo_leastsq 3 mixed_scene = Ok st
      ∧ synthesize_labels demo_config demo_leastsq 3 (flip_yz mixed_scene) = Ok st_yz
      ∧ point_votes st_yz = negate_x <$> point_votes st
      ∧ point_votes_mask st_yz = point_votes_mask st.
Proof.
  split; [apply mixed_scene_ok|]. split; [apply demo_config_ok|].
  destruct (flips_mirror_center_votes demo_config demo_leastsq mixed_scene 3
              mixed_scene_ok demo_config_ok)
    as (st & st_yz & st_xz & Hst & Hyz & _ & Hv & _ & Hm & _).
  by exists st, st_yz.
Defined.

Lemma same_ids_refl s : same_ids s s.
Proof. by repeat split. Qed.

Lemma same_ids_trans s1 s2 s3 : same_ids s1 s2 → same_ids s2 s3 → same_ids s1 s3.
Proof.
  intros (? & ? & ? & ?) (? & ? & ? & ?). repeat split; congruence.
Qed.

Lemma zip_with_set_box_fmap {A} (f g : meta_row → A) mv boxes :
  (∀ m b, f (set_box m b) = g m) → length boxes = length mv →
  f <$> zip_with set_box mv boxes = g <$> mv.
Proof.
  intros Hf. revert boxes.
  induction mv as [|m mv IH]; intros [|b boxes] Hlen; simpl in *; try done.
  rewrite Hf, IH; [done|lia].
Qed.

Section AugmentProps.
Local Open Scope R_scope.
Context {rng : Type} (random : rng → R * rng) (rotz : R → mat3).
Context (rotate_aligned_boxes : list (vec3 * vec3) → mat3 → list (vec3 * vec3)).
(** [rotate_aligned_boxes] returns one box per box. *)
Hypothesis Hboxes : ∀ b m, length (rotate_aligned_boxes b m) = length b.
(** [np.random.random()] is in the half-open interval [0, 1). *)
Hypothesis Hrandom : ∀ g, 0 <= (random g).1 < 1.

Lemma rotate_scene_ok rot_angle s n :
  sampled_ok n s →
  ∃ s', rotate_scene rotz rotate_aligned_boxes rot_angle s = Ok s'
    ∧ sampled_ok n s' ∧ same_ids s s'
    ∧ m_heading <$> s_meta_vertices s'
      = (λ h, h + rot_angle) <$> (m_heading <$> s_meta_vertices s).
Proof.
  intros (Hpc & Hil & Hpv & Hmv & Hsl). unfold rotate_scene, assign_boxes.
  set (boxes := rotate_aligned_boxes _ _).
  assert (length boxes = length (s_meta_vertices s)) as Hlen.
  { unfold boxes. by rewrite Hboxes, length_fmap. }
  rewrite Hlen, Nat.eqb_refl. simpl. eexists. split; [done|].
  unfold sampled_ok, same_ids; simpl.
  rewrite !length_fmap, length_zip_with, Hlen, Nat.min_id, <-!list_fmap_compose.
  assert (∀ {A} (f : meta_row → A),
            (∀ c xs ys zs h c' xs' ys' zs' h' i sem,
               f (MetaRow c xs ys zs h i sem) = f (MetaRow c' xs' ys' zs' h' i sem)) →
            (f ∘ (λ m, MetaRow (m_center m) (m_xsize m) (m_ysize m) (m_zsize m)
                         (m_heading m + rot_angle) (m_instance m) (m_semantic m)))
              <$> zip_with set_box (s_meta_vertices s) boxes
            = f <$> s_meta_vertices s) as Hcol.
  { intros A f Hf. apply zip_with_set_box_fmap; [|done].
    intros [c xs ys zs h i sem] [c' [[xs' ys'] zs']]. simpl. apply Hf. }
  rewrite (Hcol _ m_semantic) by done.
  repeat split; try done.
  apply zip_with_set_box_fmap; [|done].
  by intros [c xs ys zs h i sem] [c' [[xs' ys'] zs']].
Qed.

Lemma flip_step n neg (take : bool) s :
  sampled_ok n s →
  let out := if take then (flip_with neg s, 1%Z) else (s, (-1)%Z) in
  sampled_ok n out.1 ∧ same_ids s out.1 ∧ (out.2 = 1%Z ∨ out.2 = (-1)%Z)
  ∧ m_heading <$> s_meta_vertices out.1
    = (λ h, IZR (- out.2) * h) <$> (m_heading <$> s_meta_vertices s).
Proof.
  intros Hs. destruct take; simpl.
  - destruct (flip_with_ok s n Hs neg) as [? ?]. do 2 (split; [done|]).
    split; [by left|]. by rewrite <-!list_fmap_compose.
  - split; [done|]. split; [apply same_ids_refl|]. split; [by right|].
    rewrite <-list_fmap_compose. apply list_fmap_ext. intros _ m _. simpl.
    rewrite opp_IZR. ring.
Qed.

(** What [augment_scene] returns. *)
Lemma augment_scene_spec augment s g n :
  sampled_ok n s →
  ∃ s' point_yz point_xz point_rot g',
    augment_scene rng random rotz rotate_aligned_boxes augment s g
      = Ok (s', point_yz, point_xz, point_rot, g')
    ∧ sampled_ok n s' ∧ same_ids s s'
    ∧ (point_yz = 1 ∨ point_yz = -1)%Z ∧ (point_xz = 1 ∨ point_xz = -1)%Z
    ∧ (augment = false →
         s' = s ∧ point_yz = (-1)%Z ∧ point_xz = (-1)%Z ∧ point_rot = eye3 ∧ g' = g)
    ∧ (augment = true →
         ∃ rot_angle, - (PI / 36) <= rot_angle < PI / 36
           ∧ point_rot = rotz rot_angle
           ∧ m_heading <$> s_meta_vertices s'
             = (λ h, IZR (point_yz * point_xz) * h + rot_angle)
                 <$> (m_heading <$> s_meta_vertices s)).
Proof.
  intros Hs. unfold augment_scene. destruct augment.
  2:{ exists s, (-1)%Z, (-1)%Z, eye3, g. split; [done|]. split; [done|].
      split; [apply same_ids_refl|]. split; [by right|]. split; [by right|].
      split; [done|]. intros [=]. }
  pose proof (Hrandom g) as Hr1. destruct (random g) as [r1 g1].
  pose proof (flip_step n negate_x (if Rgt_dec r1 (1 / 2) then true else false) s Hs)
    as Hyz.
  fold flip_yz in Hyz.
  replace (if (if Rgt_dec r1 (1 / 2) then true else false)
           then (flip_yz s, 1%Z) else (s, (-1)%Z))
    with (if Rgt_dec r1 (1 / 2) then (flip_yz s, 1%Z) else (s, (-1)%Z)) in Hyz
    by (by destruct (Rgt_dec r1 (1 / 2))).
  destruct (if Rgt_dec r1 (1 / 2) then (flip_yz s, 1%Z) else (s, (-1)%Z))
    as [s1 yz]. simpl in Hyz. destruct Hyz as (Hs1 & Hid1 & Hyz & Hh1).
  pose proof (Hrandom g1) as Hr2. destruct (random g1) as [r2 g2].
  pose proof (flip_step n negate_y (if Rgt_dec r2 (1 / 2) then true else false) s1 Hs1)
    as Hxz.
  fold flip_xz in Hxz.
  replace (if (if Rgt_dec r2 (1 / 2) then true else false)
           then (flip_xz s1, 1%Z) else (s1, (-1)%Z))
    with (if Rgt_dec r2 (1 / 2) then (flip_xz s1, 1%Z) else (s1, (-1)%Z)) in Hxz
    by (by destruct (Rgt_dec r2 (1 / 2))).
  destruct (if Rgt_dec r2 (1 / 2) then (flip_xz s1, 1%Z) else (s1, (-1)%Z))
    as [s2 xz]. simpl in Hxz. destruct Hxz as (Hs2 & Hid2 & Hxz & Hh2).
  pose proof (Hrandom g2) as Hr3. destruct (random g2) as [r3 g3]. simpl in Hr1, Hr2, Hr3.
  destruct (rotate_scene_ok (r3 * PI / 18 - PI / 36) s2 n Hs2)
    as (s3 & -> & Hs3 & Hid3 & Hh3).
  simpl. exists s3, yz, xz, (rotz (r3 * PI / 18 - PI / 36)), g3.
  split; [done|]. split; [done|].
  split; [by eapply same_ids_trans; [eapply same_ids_trans|]|].
  split; [done|]. split; [done|]. split; [intros [=]|]. intros _.
  exists (r3 * PI / 18 - PI / 36). split; [|split; [done|]].
  - pose proof PI_RGT_0. split; nra.
  - rewrite Hh3, Hh2, Hh1, <-!list_fmap_compose. apply list_fmap_ext.
    intros _ m _. simpl. rewrite mult_IZR, !opp_IZR. ring.
Qed.

(** X18: augmentation touches coordinates and headings only. Given a
    scene with [num_points] rows, [augment_scene] returns a scene with
    the same number of rows and the same instance, semantic and patch ids,
    flags [aug_yz], [aug_xz] that are 1 or -1, and, when augmentation is
    on, a rotation by an angle within 5 degrees; the heading of every box
    becomes [aug_yz * aug_xz * heading + angle]. With augmentation off
    the scene and the generator state are untouched, the flags are -1 and
    the matrix is the identity. *)
Theorem augment_scene_contract augment s g n :
  sampled_ok n s →
  ∃ s' point_yz point_xz point_rot g',
    augment_scene rng random rotz rotate_aligned_boxes augment s g
      = Ok (s', point_yz, point_xz, point_rot, g')
    ∧ sampled_ok n s' ∧ same_ids s s'
    ∧ (point_yz = 1 ∨ point_yz = -1)%Z ∧ (point_xz = 1 ∨ point_xz = -1)%Z
    ∧ (augment = false →
         s' = s ∧ point_yz = (-1)%Z ∧ point_xz = (-1)%Z ∧ point_rot = eye3 ∧ g' = g)
    ∧ (augment = true →
         ∃ rot_angle, - (PI / 36) <= rot_angle < PI / 36
           ∧ point_rot = rotz rot_angle
           ∧ m_heading <$> s_meta_vertices s'
             = (λ h, IZR (point_yz * point_xz) * h + rot_angle)
                 <$> (m_heading <$> s_meta_vertices s)).
Proof. apply augment_scene_spec. Qed.

(** X19: augmentation does not change which points are supervised: the
    vote mask, the per-point semantic labels and the plane mask computed
    on the augmented scene are those of the scene before augmentation. *)
Theorem augmentation_keeps_supervision DC leastsq augment s g n :
  sampled_ok n s → config_ok DC →
  ∃ s' point_yz point_xz point_rot g' st st',
    augment_scene rng random rotz rotate_aligned_boxes augment s g
      = Ok (s', point_yz, point_xz, point_rot, g')
    ∧ synthesize_labels DC leastsq n s = Ok st
    ∧ synthesize_labels DC leastsq n s' = Ok st'
    ∧ point_votes_mask st' = point_votes_mask st
    ∧ point_sem_label st' = point_sem_label st
    ∧ plane_label_mask st' = plane_label_mask st.
Proof.
  intros Hs HDC.
  destruct (augment_scene_spec augment s g n Hs)
    as (s' & yz & xz & rot & g' & Haug & Hs' & Hids & _).
  destruct (synthesize_labels_spec DC leastsq s n Hs HDC) as (st & Hst & _).
  destruct (synthesize_labels_spec DC leastsq s' n Hs' HDC) as (st' & Hst' & _).
  destruct (same_ids_masks DC leastsq s s' n Hs Hs' HDC Hids st st' Hst Hst')
    as (? & ? & ?).
  by exists s', yz, xz, rot, g', st, st'.
Qed.
End AugmentProps.

Lemma demo_rotate_boxes_length b m : length (demo_rotate_boxes b m) = length b.
Proof. done. Qed.

Lemma demo_random_unit g : (0 <= (demo_random g).1 < 1)%R.
Proof. unfold demo_random. destruct (Nat.even g); simpl; lra. Qed.

Lemma augment_scene_contract_witness :
  (∀ b m, length (demo_rotate_boxes b m) = length b)
  ∧ (∀ g, (0 <= (demo_random g).1 < 1)%R)
  ∧ sampled_ok 3 mixed_scene
  ∧ ∃ s' point_yz point_xz point_rot g',
      augment_scene nat demo_random demo_rotz demo_rotate_boxes true mixed_scene 0
        = Ok (s', point_yz, point_xz, point_rot, g')
      ∧ sampled_ok 3 s' ∧ same_ids mixed_scene s'.
Proof.
  split; [exact demo_rotate_boxes_length|]. split; [exact demo_random_unit|].
  split; [exact mixed_scene_ok|].
  destruct (augment_scene_contract demo_random demo_rotz demo_rotate_boxes
              demo_rotate_boxes_length demo_random_unit true mixed_scene 0 3
              mixed_scene_ok)
    as (s' & yz & xz & rot & g' & Haug & Hs' & Hids & _).
  by exists s', yz, xz, rot, g'.
Defined.

Lemma augmentation_keeps_supervision_witness :
  (∀ b m, length (demo_rotate_boxes b m) = length b)
  ∧ (∀ g, (0 <= (demo_random g).1 < 1)%R)
  ∧ sampled_ok 3 mixed_scene ∧ config_ok demo_config
  ∧ ∃ s' point_yz point_xz point_rot g' st st',
      augment_scene nat demo_random demo_rotz demo_rotate_boxes true mixed_scene 0
        = Ok (s', point_yz, point_xz, point_rot, g')
      ∧ synthesize_labels demo_config demo_leastsq 3 mixed_scene = Ok st
      ∧ synthesize_labels demo_config demo_leastsq 3 s' = Ok st'
      ∧ point_votes_mask st' = point_votes_mask st
      ∧ point_sem_label st' = point_sem_label st
      ∧ plane_label_mask st' = plane_label_mask st.
Proof.
  split; [exact demo_rotate_boxes_length|]. split; [exact demo_random_unit|].
  split; [exact mixed_scene_ok|]. split; [exact demo_config_ok|].
  exact (augmentation_keeps_supervision demo_random demo_rotz demo_rotate_boxes
           demo_rotate_boxes_length demo_random_unit demo_config demo_leastsq true
           mixed_scene 0 3 mixed_scene_ok demo_config_ok).
Defined.

(** ** The visualization helpers on the outputs of [__getitem__] *)

Lemma select_rows_nil_r {A} (a : list A) : select_rows a [] = [].
Proof. by destruct a. Qed.







Section VizVotes.
Local Open Scope R_scope.
Variable DC : DatasetConfig.
Variable leastsq : (plane → list R) → plane → plane.
Variables (s : sampled) (n : nat).
Hypothesis Hs : sampled_ok n s.
Hypothesis HDC : config_ok DC.

End VizVotes.



Section VizCorners.
Local Open Scope R_scope.
Variable DC : DatasetConfig.
Variable leastsq : (plane → list R) → plane → plane.
Variables (s : sampled) (n : nat).
Hypothesis Hs : sampled_ok n s.
Hypothesis HDC : config_ok DC.

End VizCorners.


Section VizObbProps.
Local Open Scope R_scope.
Variable DC : DatasetConfig.
Hypothesis Hboxes : config_boxes_ok DC.


End VizObbProps.

(** ** Matching support centers *)

Lemma pdist2_shape x1 x2 :
  length (pdist2 x1 x2) = length x1
  ∧ Forall (λ row, length row = length x2) (pdist2 x1 x2).
Proof.
  unfold pdist2. induction x1 as [|a x1 [IH1 IH2]]; [by split|].
  cbn [fmap list_fmap zip_with length]. split; [by rewrite IH1|].
  constructor; [|done].
  rewrite length_fmap, length_zip_with, !length_fmap. lia.
Qed.

Lemma centers_equal_eq a b : centers_equal a b = true ↔ a = b.
Proof.
  destruct a as [[a1 a2] a3], b as [[b1 b2] b3]. unfold centers_equal.
  destruct (Req_dec_T a1 b1), (Req_dec_T a2 b2), (Req_dec_T a3 b3);
    split; intros H; try done; try congruence.
Qed.

Lemma scan_centers_spec centers c idx :
  match scan_centers centers c idx with
  | (true, idx') => ∃ j, idx' = idx + j ∧ first_at centers c j
  | (false, idx') => (c ∉ centers) ∧ idx' = idx + length centers - 1
  end.
Proof.
  revert idx. induction centers as [|c0 centers IH]; intros idx; simpl.
  { split; [apply not_elem_of_nil|lia]. }
  destruct (centers_equal c0 c) eqn:Heq.
  - apply centers_equal_eq in Heq as ->. exists 0. split; [lia|].
    split; [done|]. intros k' Hk'. lia.
  - assert (c0 ≠ c) as Hne.
    { intros ->. by rewrite (proj2 (centers_equal_eq c c) eq_refl) in Heq. }
    specialize (IH (S idx)). destruct (scan_centers centers c (S idx)) as [[] idx'].
    + destruct IH as (j & -> & Hj & Hfirst). exists (S j). split; [lia|].
      split; [done|]. intros [|k'] Hk'; simpl; [congruence|]. apply Hfirst. lia.
    + destruct IH as [Hnot ->]. split; [|lia].
      intros [->|?]%elem_of_cons; done.
Qed.

Lemma first_at_unique centers c k1 k2 :
  first_at centers c k1 → first_at centers c k2 → k1 = k2.
Proof.
  intros [H1 F1] [H2 F2]. destruct (Nat.lt_trichotomy k1 k2) as [Hlt|[?|Hlt]]; [|done|].
  - by destruct (F2 k1 Hlt).
  - by destruct (F1 k2 Hlt).
Qed.

Lemma matched_at_unique centers c k1 k2 :
  matched_at centers c k1 → matched_at centers c k2 → k1 = k2.
Proof.
  intros [H1|[N1 ->]] [H2|[N2 ->]]; [by eapply first_at_unique| | |done].
  - destruct N2. destruct H1 as [H1 _]. by eapply list_elem_of_lookup_2.
  - destruct N1. destruct H2 as [H2 _]. by eapply list_elem_of_lookup_2.
Qed.

Lemma scan_centers_matched centers c :
  centers ≠ [] →
  matched_at centers c (scan_centers centers c 0).2
  ∧ (scan_centers centers c 0).2 < length centers
  ∧ ((scan_centers centers c 0).1 = true ↔ c ∈ centers).
Proof.
  intros Hne. assert (0 < length centers) as Hlen.
  { destruct centers; [done|simpl; lia]. }
  pose proof (scan_centers_spec centers c 0) as H.
  destruct (scan_centers centers c 0) as [[] idx]; simpl.
  - destruct H as (j & -> & Hj). split; [by left|].
    destruct Hj as [Hj ?]. split; [by eapply lookup_lt_Some|].
    split; [intros _; by eapply list_elem_of_lookup_2|done].
  - destruct H as [Hnot ->]. split; [right; split; [done|lia]|]. split; [lia|].
    split; [done|]. by intros ?.
Qed.

Lemma match_loop_spec centers support :
  centers ≠ [] →
  ∀ support_idx printed, NoDup support_idx →
  ∃ support_idx' printed',
    match_loop centers (seq 0 (length centers)) support support_idx printed
      = Ok (support_idx', printed')
    ∧ NoDup support_idx'
    ∧ (∀ k, k ∈ support_idx' ↔
         k ∈ support_idx ∨ ∃ c, c ∈ support ∧ matched_at centers c k)
    ∧ printed ≤ printed'
    ∧ (printed' = printed ↔ ∀ c, c ∈ support → c ∈ centers).
Proof.
  intros Hne. induction support as [|c support IH]; intros si e Hnd.
  { exists si, e. simpl. split; [done|]. split; [done|]. split.
    - intros k. split; [by left|]. intros [?|(c & Hc%elem_of_nil & _)]; done.
    - split; [done|]. split; [|done]. by intros _ c Hc%elem_of_nil. }
  destruct (scan_centers_matched centers c Hne) as (Hm & Hlt & Hfound).
  cbn [match_loop].
  destruct (scan_centers centers c 0) as [check idx]. simpl in Hm, Hlt, Hfound.
  set (e1 := if check then e else S e).
  assert (e ≤ e1 ∧ (e1 = e ↔ c ∈ centers)) as [He1 He1'].
  { unfold e1. destruct check.
    - split; [done|]. split; [intros _; by apply Hfound|done].
    - split; [lia|]. split; [lia|]. intros Hc%Hfound. done. }
  destruct (bool_decide (idx ∈ si)) eqn:Hin.
  - apply bool_decide_eq_true in Hin.
    destruct (IH si e1 Hnd) as (si' & e' & Hrun & Hnd' & Hmem & Hle & Hpr).
    exists si', e'. split; [done|]. split; [done|]. split.
    + intros k. rewrite Hmem. split.
      * intros [?|(c' & Hc' & Hk)]; [by left|]. right. exists c'.
        split; [by right|done].
      * intros [?|(c' & [->|Hc']%elem_of_cons & Hk)]; [by left| |].
        -- left. by rewrite (matched_at_unique _ _ _ _ Hk Hm).
        -- right. by exists c'.
    + split; [lia|]. split.
      * intros He' c' [->|Hc']%elem_of_cons.
        -- apply He1'. lia.
        -- apply Hpr; [lia|done].
      * intros Hall. assert (e1 = e) as Hee by (apply He1', Hall; by left).
        rewrite <-Hee. apply Hpr. intros c' Hc'. apply Hall. by right.
  - apply bool_decide_eq_false in Hin.
    rewrite lookup_seq_lt by done. simpl.
    destruct (IH (si ++ [idx]) e1) as (si' & e' & Hrun & Hnd' & Hmem & Hle & Hpr).
    { apply NoDup_app. split; [done|]. split; [|apply NoDup_singleton].
      intros k Hk Hk'%list_elem_of_singleton. by subst. }
    exists si', e'. split; [done|]. split; [done|]. split.
    + intros k. rewrite Hmem, elem_of_app, list_elem_of_singleton. split.
      * intros [[?| ->]|(c' & Hc' & Hk)]; [by left| |].
        -- right. exists c. split; [by left|done].
        -- right. exists c'. split; [by right|done].
      * intros [?|(c' & [->|Hc']%elem_of_cons & Hk)]; [left; by left| |].
        -- left. right. by eapply matched_at_unique.
        -- right. by exists c'.
    + split; [lia|]. split.
      * intros He' c' [->|Hc']%elem_of_cons.
        -- apply He1'. lia.
        -- apply Hpr; [lia|done].
      * intros Hall. assert (e1 = e) as Hee by (apply He1', Hall; by left).
        rewrite <-Hee. apply Hpr. intros c' Hc'. apply Hall. by right.
Qed.

Lemma take_rows_seq (n : nat) : take_rows (seq 0 n) (seq 0 n) = Ok (seq 0 n).
Proof.
  apply take_rows_Ok. apply Forall2_same_length_lookup_2; [done|].
  intros i x y Hx Hy. rewrite Hx in Hy. injection Hy as <-.
  apply lookup_seq in Hx as [-> Hlt]. by apply lookup_seq_lt.
Qed.

Section FindIdxProps.
Variable linear_sum_assignment : list (list R) → list nat * list nat.
(** For a square cost matrix the row indices scipy returns are
    [arange(n)]. *)
Hypothesis Hrows : ∀ M, Forall (λ row, length row = length M) M →
  (linear_sum_assignment M).1 = seq 0 (length M).

(** X23: with at least one selected center, [find_idx] returns the
    same two index lists for every array of as many target boxes: the
    boxes and the assignment computed from them play no part. Each list
    is free of repetitions and holds exactly the indices the centers of
    its support list are matched to: the position of the first selected
    center equal to the support center, and the last position for a
    support center that is none of the selected centers. Nothing is
    printed exactly when every support center is a selected center. *)
Theorem find_idx_positions selected_centers support bsupport :
  selected_centers ≠ [] →
  ∃ support_idx bsupport_idx printed,
    (∀ targetbb, length targetbb = length selected_centers →
       find_idx linear_sum_assignment targetbb selected_centers support bsupport
       = Ok (support_idx, bsupport_idx, printed))
    ∧ NoDup support_idx ∧ NoDup bsupport_idx
    ∧ (∀ k, k ∈ support_idx ↔
         ∃ c, c ∈ support ∧ matched_at selected_centers c k)
    ∧ (∀ k, k ∈ bsupport_idx ↔
         ∃ c, c ∈ bsupport ∧ matched_at selected_centers c k)
    ∧ (printed = 0 ↔ ∀ c, c ∈ support ++ bsupport → c ∈ selected_centers).
Proof.
  intros Hne.
  destruct (match_loop_spec selected_centers support Hne [] 0 (NoDup_nil_2))
    as (si & e1 & Hrun1 & Hnd1 & Hmem1 & Hle1 & Hpr1).
  destruct (match_loop_spec selected_centers bsupport Hne [] e1 (NoDup_nil_2))
    as (bi & e2 & Hrun2 & Hnd2 & Hmem2 & Hle2 & Hpr2).
  exists si, bi, e2. split; [|split; [done|split; [done|split; [|split]]]].
  - intros targetbb Hlen. unfold find_idx.
    destruct selected_centers as [|c0 cs] eqn:Hcs; [done|]. rewrite <-Hcs in *.
    rewrite <-Hlen, Nat.eqb_refl. simpl negb. cbv iota.
    destruct (pdist2_shape selected_centers targetbb) as [Hl Hsq].
    specialize (Hrows (pdist2 selected_centers targetbb)).
    rewrite Hl in Hrows. rewrite Hlen in Hsq. specialize (Hrows Hsq).
    destruct (linear_sum_assignment _) as [row_ind col_ind]. simpl in Hrows.
    rewrite Hrows, Hlen, take_rows_seq. cbn [mbind result_bind].
    rewrite Hrun1. cbn [mbind result_bind]. rewrite Hrun2. done.
  - intros k. rewrite Hmem1. split; [|by right].
    intros [?%elem_of_nil|?]; done.
  - intros k. rewrite Hmem2. split; [|by right].
    intros [?%elem_of_nil|?]; done.
  - split.
    + intros ->. assert (e1 = 0) as -> by lia.
      intros c [Hc|Hc]%elem_of_app; [by apply Hpr1|by apply Hpr2].
    + intros Hall. assert (e1 = 0) as ->.
      { apply Hpr1. intros c Hc. apply Hall, elem_of_app. by left. }
      apply Hpr2. intros c Hc. apply Hall, elem_of_app. by right.
Qed.
End FindIdxProps.

(** * The mean sizes of [extract_mean_size.py] *)

Lemma mean_size_init_lookup c :
  mean_size_init !! c = if bool_decide (1 ≤ c ≤ 40)%Z then Some [] else None.
Proof.
  unfold mean_size_init. rewrite lookup_gset_to_gmap.
  case_bool_decide as Hc.
  - rewrite option_guard_True; [done|].
    apply elem_of_list_to_set, list_elem_of_fmap. exists (Z.to_nat c).
    split; [lia|]. apply elem_of_seq. lia.
  - rewrite option_guard_False; [done|].
    intros (k & -> & Hk%elem_of_seq)%elem_of_list_to_set%list_elem_of_fmap. lia.
Qed.

Lemma keys_ok_init : keys_ok mean_size_init.
Proof.
  intros c. rewrite mean_size_init_lookup. case_bool_decide; split; done.
Qed.

Lemma keys_ok_insert ms c l :
  keys_ok ms → is_Some (ms !! c) → keys_ok (<[c := l]> ms).
Proof.
  intros Hk Hc c'. destruct (decide (c = c')) as [->|Hne].
  - rewrite lookup_insert_eq. split; [intros _; by apply Hk|by eexists].
  - rewrite lookup_insert_ne by done. apply Hk.
Qed.

Lemma grown_from_refl rows ms : grown_from rows ms ms.
Proof.
  intros c l Hl. exists l, []. split; [done|]. split; [by rewrite app_nil_r|].
  by intros v ?%elem_of_nil.
Qed.

Lemma grown_from_trans (rows1 rows2 rows : meta_row → Prop) ms1 ms2 ms3 :
  (∀ obj, rows1 obj → rows obj) → (∀ obj, rows2 obj → rows obj) →
  grown_from rows1 ms1 ms2 → grown_from rows2 ms2 ms3 → grown_from rows ms1 ms3.
Proof.
  intros H1 H2 G1 G2 c l3 Hl3.
  destruct (G2 c l3 Hl3) as (l2 & add2 & Hl2 & -> & Hadd2).
  destruct (G1 c l2 Hl2) as (l1 & add1 & Hl1 & -> & Hadd1).
  exists l1, (add1 ++ add2). split; [done|]. split; [by rewrite app_assoc|].
  intros v [Hv|Hv]%elem_of_app.
  - destruct (Hadd1 v Hv) as (obj & ? & ?). exists obj. split; [by apply H1|done].
  - destruct (Hadd2 v Hv) as (obj & ? & ?). exists obj. split; [by apply H2|done].
Qed.



Lemma fill_step_lookup (g : nat → option vec3) cs acc i :
  (∀ c, c ∈ cs → 1 ≤ c) → i < length acc →
  foldl (λ a c, match g c with Some m => <[c - 1 := m]> a | None => a end) acc cs !! i
  = match (if bool_decide (S i ∈ cs) then g (S i) else None) with
    | Some m => Some m
    | None => acc !! i
    end.
Proof.
  revert acc. induction cs as [|c cs IH]; intros acc Hpos Hi; [done|].
  cbn [foldl]. rewrite IH.
  2:{ intros c' Hc'. apply Hpos. by right. }
  2:{ destruct (g c); [by rewrite length_insert|done]. }
  pose proof (Hpos c ltac:(by left)) as Hc.
  destruct (decide (c = S i)) as [->|Hne].
  - rewrite (bool_decide_eq_true_2 (S i ∈ S i :: cs)) by (by left).
    replace (S i - 1) with i by lia.
    destruct (g (S i)) as [m|] eqn:Hg.
    + rewrite list_lookup_insert_eq by done.
      by destruct (bool_decide (S i ∈ cs)); rewrite ?Hg.
    + by destruct (bool_decide (S i ∈ cs)); rewrite ?Hg.
  - assert (bool_decide (S i ∈ c :: cs) = bool_decide (S i ∈ cs)) as ->.
    { apply bool_decide_ext. rewrite elem_of_cons.
      split; [intros [?|?]; [congruence|done]|by right]. }
    destruct (if bool_decide (S i ∈ cs) then g (S i) else None); [done|].
    destruct (g c); [|done]. apply list_lookup_insert_ne. lia.
Qed.

Lemma fill_means_spec ms :
  length (fill_means ms) = 40
  ∧ ∀ cls, 1 ≤ cls ≤ 40 →
      fill_means ms !! (cls - 1)
      = Some (match ms !! Z.of_nat cls with
              | Some (v :: l) => vmean (v :: l)
              | _ => zero3
              end).
Proof.
  set (g := λ c : nat, match ms !! Z.of_nat c with
                       | Some (v :: l) => Some (vmean (v :: l))
                       | _ => None
                       end).
  assert (fill_means ms
          = foldl (λ a c, match g c with Some m => <[c - 1 := m]> a | None => a end)
              (replicate 40 zero3) (seq 1 40)) as Hfold.
  { unfold fill_means. generalize (replicate 40 zero3). generalize (seq 1 40).
    intros cs. induction cs as [|c cs IH]; intros acc; [done|].
    cbn [foldl]. rewrite IH. f_equal. unfold g.
    by destruct (ms !! Z.of_nat c) as [[|v l]|]. }
  split.
  - rewrite Hfold. generalize (seq 1 40). intros cs.
    assert (length (replicate 40 zero3) = 40) as Hl by apply length_replicate.
    revert Hl. generalize (replicate 40 zero3).
    induction cs as [|c cs IH]; intros acc Hl; [done|].
    cbn [foldl]. apply IH. destruct (g c); [by rewrite length_insert|done].
  - intros cls Hcls. rewrite Hfold, fill_step_lookup.
    + replace (S (cls - 1)) with cls by lia.
      rewrite bool_decide_eq_true_2 by (apply elem_of_seq; lia).
      unfold g. destruct (ms !! Z.of_nat cls) as [[|v l]|]; try done;
        apply lookup_replicate_2; lia.
    + intros c Hc%elem_of_seq. lia.
    + rewrite length_replicate. lia.
Qed.

Section ExtractProps.
Variable str : R → string.

Lemma scan_file_spec data :
  (∀ obj, obj ∈ data → (0 ≤ m_semantic obj ≤ 40)%Z) →
  ∀ temp ms, keys_ok ms →
  ∃ temp' ms', scan_file str data temp ms = Ok (temp', ms')
    ∧ keys_ok ms' ∧ grown_from (λ obj, obj ∈ data) ms ms'.
Proof.
  induction data as [|obj data IH]; intros Hvalid temp ms Hk.
  { exists temp, ms. split; [done|]. split; [done|]. apply grown_from_refl. }
  assert (∀ o, o ∈ data → (0 ≤ m_semantic o ≤ 40)%Z) as Hvalid'
    by (intros o Ho; apply Hvalid; by right).
  assert (∀ t m, keys_ok m →
            ∃ temp' ms', scan_file str data t m = Ok (temp', ms')
              ∧ keys_ok ms' ∧ grown_from (λ o, o ∈ obj :: data) m ms') as Hrest.
  { intros t m Hm. destruct (IH Hvalid' t m Hm) as (temp' & ms' & ? & ? & Hg).
    exists temp', ms'. split; [done|]. split; [done|].
    eapply (grown_from_trans (λ _, False) (λ o, o ∈ data));
      [done| |apply grown_from_refl|exact Hg].
    intros o Ho. by right. }
  cbn [scan_file]. case_bool_decide as Hskip; [by apply Hrest|].
  case_bool_decide as Hseen; [by apply Hrest|].
  pose proof (Hvalid obj ltac:(by left)) as Hc.
  assert (1 ≤ m_semantic obj ≤ 40)%Z as Hc'.
  { destruct (decide (m_semantic obj = 0%Z)) as [H0|]; [|lia].
    destruct Hskip. rewrite H0. by left. }
  destruct (proj2 (Hk _) Hc') as [l Hl]. rewrite Hl.
  destruct (IH Hvalid' (temp ++ [list2str str (row_values obj)])
              (<[m_semantic obj := l ++ [row_size obj]]> ms))
    as (temp' & ms' & Hrun & Hk' & Hg).
  { by apply keys_ok_insert. }
  exists temp', ms'. split; [done|]. split; [done|].
  eapply (grown_from_trans (λ o, o = obj) (λ o, o ∈ data)); [| | |exact Hg].
  - intros o ->. by left.
  - intros o Ho. by right.
  - intros c l' Hl'. destruct (decide (m_semantic obj = c)) as [<-|Hne].
    + rewrite lookup_insert_eq in Hl'. injection Hl' as <-.
      exists l, [row_size obj]. split; [done|]. split; [done|].
      intros v ->%list_elem_of_singleton. by exists obj.
    + rewrite lookup_insert_ne in Hl' by done.
      exists l', []. split; [done|]. split; [by rewrite app_nil_r|].
      by intros v ?%elem_of_nil.
Qed.

Lemma scan_files_spec flist :
  (∀ obj, row_of flist obj → (0 ≤ m_semantic obj ≤ 40)%Z) →
  ∀ ms, keys_ok ms →
  ∃ ms', scan_files str flist ms = Ok ms'
    ∧ keys_ok ms' ∧ grown_from (row_of flist) ms ms'.
Proof.
  induction flist as [|data flist IH]; intros Hvalid ms Hk.
  { exists ms. split; [done|]. split; [done|]. apply grown_from_refl. }
  destruct (scan_file_spec data) with (temp := @nil string) (ms := ms)
    as (temp' & ms1 & Hrun1 & Hk1 & Hg1); [|done|].
  { intros obj Hobj. apply Hvalid. exists data. split; [by left|done]. }
  destruct (IH) with (ms := ms1) as (ms2 & Hrun2 & Hk2 & Hg2); [|done|].
  { intros obj (d & Hd & Hobj). apply Hvalid. exists d. split; [by right|done]. }
  exists ms2. cbn [scan_files]. rewrite Hrun1. cbn [mbind result_bind].
  split; [done|]. split; [done|].
  eapply grown_from_trans; [| |exact Hg1|exact Hg2].
  - intros obj Hobj. exists data. split; [by left|done].
  - intros obj (d & Hd & Hobj). exists d. split; [by right|done].
Qed.

Lemma extract_mean_size_spec flist :
  (∀ obj, row_of flist obj → (0 ≤ m_semantic obj ≤ 40)%Z) →
  ∃ ms, scan_files str flist mean_size_init = Ok ms
    ∧ extract_mean_size str flist = Ok (fill_means ms)
    ∧ ∀ c l, ms !! c = Some l →
        ∀ v, v ∈ l →
          ∃ obj, row_of flist obj ∧ m_semantic obj = c ∧ row_size obj = v
                 ∧ ¬ skipped c.
Proof.
  intros Hvalid.
  destruct (scan_files_spec flist Hvalid mean_size_init keys_ok_init)
    as (ms & Hrun & Hk & Hg).
  exists ms. split; [done|]. split.
  { unfold extract_mean_size. by rewrite Hrun. }
  intros c l Hl v Hv. destruct (Hg c l Hl) as (l0 & add & Hl0 & -> & Hadd).
  rewrite mean_size_init_lookup in Hl0. case_bool_decide; [|done].
  injection Hl0 as <-. by apply Hadd.
Qed.

(** X24: when every row carries a class between 0 and 40 the script
    finishes with an array of 40 rows, and the row of a class stays zero
    if the class is one of 38, 39, 40, which the script leaves out, or if
    no row of the files carries it. *)
Theorem mean_shape_zero_rows flist :
  (∀ obj, row_of flist obj → (0 ≤ m_semantic obj ≤ 40)%Z) →
  ∃ mean_shape, extract_mean_size str flist = Ok mean_shape
    ∧ length mean_shape = 40
    ∧ ∀ cls, 1 ≤ cls ≤ 40 →
        38 ≤ cls ∨ (∀ obj, row_of flist obj → m_semantic obj ≠ Z.of_nat cls) →
        mean_shape !! (cls - 1) = Some zero3.
Proof.
  intros Hvalid. destruct (extract_mean_size_spec flist Hvalid) as (ms & _ & Hrun & Hfrom).
  destruct (fill_means_spec ms) as [Hlen Hrows].
  exists (fill_means ms). split; [done|]. split; [done|].
  intros cls Hcls Hzero. rewrite (Hrows cls Hcls).
  destruct (ms !! Z.of_nat cls) as [[|v l]|] eqn:Hl; try done.
  destruct (Hfrom _ _ Hl v ltac:(by left)) as (obj & Hobj & Hsem & _ & Hskip).
  destruct Hzero as [H38|Hnone].
  - destruct Hskip. unfold skipped.
    assert (cls = 38 ∨ cls = 39 ∨ cls = 40) as [-> | [-> | ->]] by lia.
    + right. by left.
    + right. right. by left.
    + right. right. right. by left.
  - by destruct (Hnone obj Hobj).
Qed.






Lemma scan_file_cases data temp ms :
  keys_ok ms →
  scan_file str data temp ms = Raise KeyError
  ∨ ∃ temp' ms', scan_file str data temp ms = Ok (temp', ms') ∧ keys_ok ms'.
Proof.
  revert temp ms. induction data as [|obj data IH]; intros temp ms Hk.
  { right. by exists temp, ms. }
  cbn [scan_file]. case_bool_decide; [by apply IH|].
  case_bool_decide; [by apply IH|].
  destruct (ms !! m_semantic obj) as [l|] eqn:Hl; [|by left].
  apply IH. apply keys_ok_insert; [done|by eexists].
Qed.

Lemma scan_file_bad data :
  (∀ a b, a ∈ data → b ∈ data →
     list2str str (row_values a) = list2str str (row_values b) →
     m_semantic a = m_semantic b) →
  (∃ obj, obj ∈ data ∧ ¬ (0 ≤ m_semantic obj ≤ 40)%Z) →
  ∀ temp ms, keys_ok ms →
  (∀ obj, obj ∈ data → list2str str (row_values obj) ∈ temp →
     (0 ≤ m_semantic obj ≤ 40)%Z) →
  scan_file str data temp ms = Raise KeyError.
Proof.
  induction data as [|obj data IH]; intros Hkey Hbad temp ms Hk Htemp.
  { by destruct Hbad as (? & ?%elem_of_nil & _). }
  assert (∀ a b, a ∈ data → b ∈ data →
            list2str str (row_values a) = list2str str (row_values b) →
            m_semantic a = m_semantic b) as Hkey'.
  { intros a b Ha Hb. apply Hkey; by right. }
  assert ((0 ≤ m_semantic obj ≤ 40)%Z →
          ∃ o, o ∈ data ∧ ¬ (0 ≤ m_semantic o ≤ 40)%Z) as Hbad'.
  { intros Hc. destruct Hbad as (o & [->|Ho]%elem_of_cons & Hno); [done|by exists o]. }
  cbn [scan_file]. case_bool_decide as Hskip.
  { apply IH; [done| |done|].
    - apply Hbad'.
      repeat (apply elem_of_cons in Hskip as [->|Hskip]; [lia|]).
      by apply elem_of_nil in Hskip.
    - intros o Ho. apply Htemp. by right. }
  case_bool_decide as Hseen.
  { apply IH; [done| |done|].
    - apply Hbad'. apply Htemp; [by left|done].
    - intros o Ho. apply Htemp. by right. }
  destruct (ms !! m_semantic obj) as [l|] eqn:Hl; [|done].
  assert (1 ≤ m_semantic obj ≤ 40)%Z as Hc by (apply Hk; by eexists).
  apply IH; [done| | |].
  - apply Hbad'. lia.
  - apply keys_ok_insert; [done|by eexists].
  - intros o Ho [Hin|Hin%list_elem_of_singleton]%elem_of_app.
    + apply Htemp; [by right|done].
    + rewrite (Hkey o obj); [lia|by right|by left|done].
Qed.

(** X27: a class outside 0 .. 40 stops the script: if within each
    file rows with the same key carry the same class, and some row carries
    a class that is not between 0 and 40, the run ends with [KeyError]. *)
Theorem class_out_of_range_raises flist :
  (∀ data a b, data ∈ flist → a ∈ data → b ∈ data →
     list2str str (row_values a) = list2str str (row_values b) →
     m_semantic a = m_semantic b) →
  (∃ obj, row_of flist obj ∧ ¬ (0 ≤ m_semantic obj ≤ 40)%Z) →
  extract_mean_size str flist = Raise KeyError.
Proof.
  intros Hkey Hbad. unfold extract_mean_size.
  assert (∀ ms, keys_ok ms → scan_files str flist ms = Raise KeyError) as Hrun.
  2:{ by rewrite (Hrun _ keys_ok_init). }
  induction flist as [|data flist IH]; intros ms Hk.
  { by destruct Hbad as (? & (? & ?%elem_of_nil & _) & _). }
  cbn [scan_files].
  destruct (decide (Forall (λ o, (0 ≤ m_semantic o ≤ 40)%Z) data)) as [Hgood|Hnot].
  - destruct (scan_file_cases data [] ms Hk) as [->|(temp' & ms' & -> & Hk')]; [done|].
    cbn [mbind result_bind]. apply IH; [| |done].
    + intros d a b Hd. apply Hkey. by right.
    + destruct Hbad as (obj & (d & [->|Hd]%elem_of_cons & Hobj) & Hno).
      * rewrite Forall_forall in Hgood. by destruct (Hno (Hgood obj Hobj)).
      * exists obj. split; [by exists d|done].
  - apply not_Forall_Exists in Hnot; [|intros o; apply _].
    apply Exists_exists in Hnot as (obj & Hobj & Hno).
    rewrite (scan_file_bad data); [done| |by exists obj|done|].
    + intros a b. apply Hkey. by left.
    + by intros o _ ?%elem_of_nil.
Qed.
End ExtractProps.

(** ** Instances *)




Lemma diagonal_assignment_rows M :
  Forall (λ row : list R, length row = length M) M →
  (diagonal_assignment M).1 = seq 0 (length M).
Proof. done. Qed.

Lemma find_idx_positions_witness :
  (∀ M, Forall (λ row : list R, length row = length M) M →
        (diagonal_assignment M).1 = seq 0 (length M))
  ∧ [zero3; (1, 0, 0)%R] ≠ []
  ∧ ∃ support_idx bsupport_idx printed,
      (∀ targetbb, length targetbb = 2 →
         find_idx diagonal_assignment targetbb [zero3; (1, 0, 0)%R]
           [(1, 0, 0)%R] [(5, 5, 5)%R]
         = Ok (support_idx, bsupport_idx, printed))
      ∧ NoDup support_idx ∧ NoDup bsupport_idx.
Proof.
  split; [exact diagonal_assignment_rows|]. split; [done|].
  destruct (find_idx_positions diagonal_assignment diagonal_assignment_rows
              [zero3; (1, 0, 0)%R] [(1, 0, 0)%R] [(5, 5, 5)%R] ltac:(done))
    as (si & bi & e & Hrun & Hnd1 & Hnd2 & _).
  by exists si, bi, e.
Defined.

Lemma demo_rows_valid obj :
  row_of [[demo_meta 1 3]] obj → (0 ≤ m_semantic obj ≤ 40)%Z.
Proof.
  intros (d & Hd%list_elem_of_singleton & Hobj). subst d.
  apply list_elem_of_singleton in Hobj as ->. simpl. lia.
Qed.

Lemma mean_shape_zero_rows_witness :
  (∀ obj, row_of [[demo_meta 1 3]] obj → (0 ≤ m_semantic obj ≤ 40)%Z)
  ∧ ∃ mean_shape, extract_mean_size demo_str [[demo_meta 1 3]] = Ok mean_shape
      ∧ length mean_shape = 40
      ∧ mean_shape !! 37 = Some zero3.
Proof.
  split; [exact demo_rows_valid|].
  destruct (mean_shape_zero_rows demo_str [[demo_meta 1 3]] demo_rows_valid)
    as (mean_shape & Hrun & Hlen & Hzero).
  exists mean_shape. do 2 (split; [done|]).
  apply (Hzero 38); [lia|]. left. lia.
Defined.



Lemma class_out_of_range_raises_witness :
  (∀ data a b, data ∈ [[demo_meta 1 41]] → a ∈ data → b ∈ data →
     list2str demo_str (row_values a) = list2str demo_str (row_values b) →
     m_semantic a = m_semantic b)
  ∧ (∃ obj, row_of [[demo_meta 1 41]] obj ∧ ¬ (0 ≤ m_semantic obj ≤ 40)%Z)
  ∧ extract_mean_size demo_str [[demo_meta 1 41]] = Raise KeyError.
Proof.
  assert (∀ data a b, data ∈ [[demo_meta 1 41]] → a ∈ data → b ∈ data →
            list2str demo_str (row_values a) = list2str demo_str (row_values b) →
            m_semantic a = m_semantic b) as Hkey.
  { intros data a b Hd%list_elem_of_singleton Ha Hb _. subst data.
    apply list_elem_of_singleton in Ha as ->.
    by apply list_elem_of_singleton in Hb as ->. }
  assert (∃ obj, row_of [[demo_meta 1 41]] obj ∧ ¬ (0 ≤ m_semantic obj ≤ 40)%Z) as Hbad.
  { exists (demo_meta 1 41). split.
    - exists [demo_meta 1 41]. split; by apply list_elem_of_singleton.
    - simpl. lia. }
  split; [exact Hkey|]. split; [exact Hbad|].
  exact (class_out_of_range_raises demo_str [[demo_meta 1 41]] Hkey Hbad).
Defined.

(** ** The steps of [__getitem__] together *)

Lemma length_omap_le {A B} (f : A → option B) (l : list A) :
  length (omap f l) ≤ length l.
Proof.
  induction l as [|x l IH]; [done|]. cbn [omap list_omap].
  destruct (f x); cbn [length]; lia.
Qed.

Section GetItemProps.
Context {rng : Type}.
Variable random_choice : rng → nat → nat → list nat * rng.
Variable random : rng → R * rng.
Variable rotz : R → mat3.
Variable rotate_aligned_boxes : list (vec3 * vec3) → mat3 → list (vec3 * vec3).
Variable DC : DatasetConfig.
Variable leastsq : (plane → list R) → plane → plane.
Variable num_points : nat.
Variable augment : bool.
Hypothesis Hrotate : ∀ b m, length (rotate_aligned_boxes b m) = length b.
Hypothesis Hrandom : ∀ g, (0 <= (random g).1 < 1)%R.
Hypothesis HDC : config_ok DC.
Hypothesis Hboxes : config_boxes_ok DC.

(** X28: a raw scene with at most [MAX_NUM_OBJ] instance ids gives a
    sample without an exception. If the arrays of the scene are aligned
    and some draw of the resampling loop hits every instance id, the
    chain resampling, augmentation, label loop, packing returns, the same
    value for every sufficient fuel; the per-point arrays have
    [num_points] rows, and the boxes, one per retained instance and no
    more than the scene has instance ids, fill the first slots of the
    box arrays, which are zero behind them. *)
Theorem getitem_sample_returns s g :
  aligned s → sampler_ok random_choice num_points s →
  (∃ k, keeps_ids s (draw rng random_choice num_points k s g)) →
  length (np_unique (instance_labels s)) ≤ MAX_NUM_OBJ →
  ∃ fuel st b point_yz point_xz point_rot g',
    getitem_sample rng random_choice random rotz rotate_aligned_boxes DC leastsq
      num_points augment fuel s g
    = Some (Ok (st, b, point_yz, point_xz, point_rot, g'))
    ∧ (∀ fuel' r,
         getitem_sample rng random_choice random rotz rotate_aligned_boxes DC leastsq
           num_points augment fuel' s g = Some r →
         r = Ok (st, b, point_yz, point_xz, point_rot, g'))
    ∧ sizes num_points st
    ∧ length (obj_meta st) ≤ length (np_unique (instance_labels s))
    ∧ length (target_bboxes_mask b) = MAX_NUM_OBJ
    ∧ (∀ slot, slot < length (obj_meta st) → target_bboxes_mask b !! slot = Some 1%Z)
    ∧ zero_padded b (length (obj_meta st)).
Proof.
  intros Hal Hsam Hk Hcount.
  destruct (resample_returns random_choice num_points s g Hal Hsam Hk)
    as (fuel & out & g1 & Hres & Hdet & Hok & _ & Hids & _).
  destruct (augment_scene_spec random rotz rotate_aligned_boxes Hrotate Hrandom
              augment out g1 num_points Hok)
    as (s' & yz & xz & rot & g2 & Haug & Hok' & (Hil & _) & _).
  destruct (synthesize_labels_spec DC leastsq s' num_points Hok' HDC)
    as (st & Hst & Hsz & Hom & _).
  assert (length (obj_meta st) ≤ length (np_unique (instance_labels s))) as Hle.
  { rewrite Hom, Hil, (np_unique_ext _ _ Hids). apply length_omap_le. }
  destruct (pack_boxes_fits DC Hboxes (obj_meta st)) as (b & Hb & Hlen & Hones & Hpad).
  { etrans; [exact Hle|exact Hcount]. }
  { rewrite Hom. by apply retained_rows_valid with (n := num_points). }
  assert (∀ r, r = Ok (out, g1) →
            ('(out, g) ← r;
             '(out, point_yz, point_xz, point_rot, g) ←
               augment_scene rng random rotz rotate_aligned_boxes augment out g;
             '(st, b) ← dataset_getitem DC leastsq num_points out;
             Ok (st, b, point_yz, point_xz, point_rot, g))
            = Ok (st, b, yz, xz, rot, g2)) as Hchain.
  { intros r ->. cbn [mbind result_bind]. rewrite Haug. cbn [mbind result_bind].
    unfold dataset_getitem. rewrite Hst. cbn [mbind result_bind].
    rewrite Hb. done. }
  exists fuel, st, b, yz, xz, rot, g2. split; [|split].
  - unfold getitem_sample. rewrite Hres. by rewrite (Hchain _ eq_refl).
  - intros fuel' r Hr. unfold getitem_sample in Hr.
    destruct (resample rng random_choice num_points fuel' s g) as [r0|] eqn:Hr0;
      [|done].
    injection Hr as <-. by rewrite (Hchain r0 (Hdet fuel' r0 Hr0)).
  - done.
Qed.
End GetItemProps.

Lemma demo_sampler_ok : sampler_ok cycle_choice 2 demo_scene.
Proof. apply cycle_choice_ok. simpl. lia. Qed.

Lemma demo_draw_keeps_ids :
  ∃ k, keeps_ids demo_scene (draw nat cycle_choice 2 k demo_scene 0).
Proof.
  exists 0. intros x Hx. vm_compute in Hx.
  apply elem_of_cons in Hx as [->|Hx]; [exists 0; split; [|done]; vm_compute; left|].
  exists 1. split; [vm_compute; right; left|].
  apply elem_of_cons in Hx as [->|Hx]; [done|].
  apply elem_of_cons in Hx as [->|Hx]; [done|]. by apply elem_of_nil in Hx.
Qed.

Lemma demo_scene_count : length (np_unique (instance_labels demo_scene)) ≤ MAX_NUM_OBJ.
Proof. change (2 ≤ 64). lia. Qed.

Lemma getitem_sample_returns_witness :
  (∀ b m, length (demo_rotate_boxes b m) = length b)
  ∧ (∀ g, (0 <= (demo_random g).1 < 1)%R)
  ∧ config_ok demo_config ∧ config_boxes_ok demo_config
  ∧ aligned demo_scene ∧ sampler_ok cycle_choice 2 demo_scene
  ∧ (∃ k, keeps_ids demo_scene (draw nat cycle_choice 2 k demo_scene 0))
  ∧ length (np_unique (instance_labels demo_scene)) ≤ MAX_NUM_OBJ
  ∧ ∃ fuel st b point_yz point_xz point_rot g',
      getitem_sample nat cycle_choice demo_random demo_rotz demo_rotate_boxes
        demo_config demo_leastsq 2 true fuel demo_scene 0
      = Some (Ok (st, b, point_yz, point_xz, point_rot, g'))
      ∧ sizes 2 st
      ∧ length (target_bboxes_mask b) = MAX_NUM_OBJ.
Proof.
  split; [exact demo_rotate_boxes_length|]. split; [exact demo_random_unit|].
  split; [exact demo_config_ok|]. split; [exact demo_config_boxes_ok|].
  split; [exact demo_scene_aligned|]. split; [exact demo_sampler_ok|].
  split; [exact demo_draw_keeps_ids|]. split; [exact demo_scene_count|].
  destruct (getitem_sample_returns cycle_choice demo_random demo_rotz demo_rotate_boxes
              demo_config demo_leastsq 2 true demo_rotate_boxes_length
              demo_random_unit demo_config_ok demo_config_boxes_ok demo_scene 0
              demo_scene_aligned demo_sampler_ok demo_draw_keeps_ids demo_scene_count)
    as (fuel & st & b & yz & xz & rot & g' & Hrun & _ & Hsz & _ & Hlen & _).
  by exists fuel, st, b, yz, xz, rot, g'.
Defined.
